(** * The background polling engine of the Resy monitor

    A shallow embedding of [monitor_engine.py] (the [MonitorEngine] class:
    registry, poll loop, shutdown) and of the checker [run_check] of
    [app.py], with the Python objects they share kept on an explicit heap,
    followed by the properties of the specification proved about them. *)

From Stdlib Require Import ZArith Lia Ascii String.
From stdpp Require Import gmap strings list fin_maps relations pretty.

Set Warnings "-register-all".
Local Open Scope Z_scope.
Local Open Scope string_scope.
Local Open Scope list_scope.

(** ** Python values, objects and exceptions *)

Module Py.

Definition loc := nat.

(** A parsed JSON document, as [resp.json()] returns it.  Numbers are kept
    as integers; an object is its list of members in document order. *)
Inductive json :=
| JNull
| JBool (b : bool)
| JNum (n : Z)
| JStr (s : string)
| JArr (xs : list json)
| JObj (kvs : list (string * json)).

(** The values a monitor record holds.  A [dt.date] is kept by its
    [%Y-%m-%d] rendering, a [dt.datetime] by its POSIX timestamp in whole
    seconds; dicts and lists are references into the heap. *)
Inductive value :=
| VNone
| VBool (b : bool)
| VInt (n : Z)
| VStr (s : string)
| VDate (iso : string)
| VDatetime (ts : Z)
| VJson (j : json)
| VDict (l : loc)
| VList (l : loc).

Record heap := Heap {
  dicts : gmap loc (gmap string value);
  lists : gmap loc (list value)
}.

Definition dict_at (h : heap) (l : loc) : gmap string value :=
  default ∅ (dicts h !! l).

Definition list_at (h : heap) (l : loc) : list value :=
  default [] (lists h !! l).

(** [d[k] = v] on the dict object at [l]. *)
Definition dict_setitem (l : loc) (k : string) (v : value) (h : heap) : heap :=
  Heap (<[l := <[k := v]> (dict_at h l)]> (dicts h)) (lists h).

(** [xs.append(v)] on the list object at [l]. *)
Definition list_append (l : loc) (v : value) (h : heap) : heap :=
  Heap (dicts h) (<[l := list_at h l ++ [v]]> (lists h)).

Definition alloc_dict (d : gmap string value) (h : heap) : loc * heap :=
  let l := fresh (dom (dicts h)) in
  (l, Heap (<[l := d]> (dicts h)) (lists h)).

Definition alloc_list (xs : list value) (h : heap) : loc * heap :=
  let l := fresh (dom (lists h)) in
  (l, Heap (dicts h) (<[l := xs]> (lists h))).

(** [d.get(k, dflt)] *)
Definition dict_get (d : gmap string value) (k : string) (dflt : value) : value :=
  default dflt (d !! k).

Definition json_truthy (j : json) : bool :=
  match j with
  | JNull => false
  | JBool b => b
  | JNum n => negb (Z.eqb n 0)
  | JStr s => negb (String.eqb s "")
  | JArr xs => match xs with [] => false | _ => true end
  | JObj kvs => match kvs with [] => false | _ => true end
  end.

(** Python truth value testing. *)
Definition truthy (h : heap) (v : value) : bool :=
  match v with
  | VNone => false
  | VBool b => b
  | VInt n => negb (Z.eqb n 0)
  | VStr s => negb (String.eqb s "")
  | VDate _ => true
  | VDatetime _ => true
  | VJson j => json_truthy j
  | VDict l => negb (bool_decide (dict_at h l = ∅))
  | VList l => match list_at h l with [] => false | _ => true end
  end.

(** The exception classes the two modules distinguish: [ResyClientError]
    has a handler of its own, every other class here is a plain
    [Exception] subclass. *)
Inductive exn_class :=
| ResyClientError
| KeyError
| IndexError
| TypeError
| AttributeError
| ValueError
| OtherException.

(** An exception instance: [exn_str] is [str(e)]; [exn_status] and
    [exn_details] are the attributes [status_code] and [details] of a
    [ResyClientError]. *)
Record exn := Exn {
  exn_cls : exn_class;
  exn_str : string;
  exn_status : option Z;
  exn_details : gmap string value
}.

Definition mk_exn (c : exn_class) (msg : string) : exn := Exn c msg None ∅.

Definition is_resy_error (e : exn) : bool :=
  match exn_cls e with ResyClientError => true | _ => false end.

Inductive outcome (A : Type) :=
| Normal (a : A)
| Raise (e : exn).
Arguments Normal {A} a.
Arguments Raise {A} e.

(** What one call into the outside world (the reservation API, the
    webhook) does: how long it takes and what it returns or raises. *)
Record reply := Reply {
  r_elapsed : Z;
  r_result : outcome json
}.

Inductive event :=
| EvCalendar (venue_id party_size : value) (start_date end_date : string)
| EvFind (venue_id party_size : value) (day : json)
| EvWebhook (args : list value) (sent : bool).

(** The world a thread runs in: the object heap, the wall clock, the
    replies the outside world will give to the calls still to come, and
    the trace of what happened so far. *)
Record world := World {
  w_heap : heap;
  w_clock : Z;
  w_tape : nat → reply;
  w_cursor : nat;
  w_log : list event
}.

Definition with_heap (h : heap) (w : world) : world :=
  World h (w_clock w) (w_tape w) (w_cursor w) (w_log w).

Definition with_log (ev : event) (w : world) : world :=
  World (w_heap w) (w_clock w) (w_tape w) (w_cursor w) (w_log w ++ [ev]).

(** Computations that mutate the world in place and may raise: the
    world reached at the raise is kept. *)
Definition M (A : Type) : Type := world → outcome A * world.

Definition ret {A} (a : A) : M A := fun w => (Normal a, w).

Definition raise {A} (e : exn) : M A := fun w => (Raise e, w).

Definition bind {A B} (m : M A) (k : A → M B) : M B :=
  fun w =>
    match m w with
    | (Normal a, w') => k a w'
    | (Raise e, w') => (Raise e, w')
    end.

Definition lift {A} (o : outcome A) : M A := fun w => (o, w).

(** [try: m  except Exception as e: handler e] *)
Definition try_except {A} (m : M A) (handler : exn → M A) : M A :=
  fun w =>
    match m w with
    | (Normal a, w') => (Normal a, w')
    | (Raise e, w') => handler e w'
    end.

Definition get_heap : M heap := fun w => (Normal (w_heap w), w).

Definition modify_heap (f : heap → heap) : M unit :=
  fun w => (Normal tt, with_heap (f (w_heap w)) w).

(** [dt.datetime.now()] / [time.time()] *)
Definition now : M Z := fun w => (Normal (w_clock w), w).

Definition emit (ev : event) : M unit := fun w => (Normal tt, with_log ev w).

(** [item.get(k, dflt)] on the dict object at [l]. *)
Definition item_get (l : loc) (k : string) (dflt : value) : M value :=
  fun w => (Normal (dict_get (dict_at (w_heap w) l) k dflt), w).

(** [item[k]]: raises [KeyError] when the key is missing. *)
Definition item_getitem (l : loc) (k : string) : M value :=
  fun w =>
    match dict_at (w_heap w) l !! k with
    | Some v => (Normal v, w)
    | None => (Raise (mk_exn KeyError ("'" +:+ k +:+ "'")), w)
    end.

(** [item[k] = v] *)
Definition item_setitem (l : loc) (k : string) (v : value) : M unit :=
  modify_heap (dict_setitem l k v).

Definition is_truthy (v : value) : M bool :=
  fun w => (Normal (truthy (w_heap w) v), w).

End Py.

Export Py.

Declare Scope py_scope.
Delimit Scope py_scope with py.
Notation "'let*' x ':=' m 'in' k" := (bind m (fun x => k))
  (at level 10, x name, m at level 100, k at level 200) : py_scope.
Notation "m ';;' k" := (bind m (fun _ => k))
  (at level 100, k at level 200, right associativity) : py_scope.
Local Open Scope py_scope.

(** ** monitor_engine.py *)

Module Engine.

Definition POLL_INTERVAL_SEC : Z := 120.

(** Where the worker thread stands in [_loop]: about to test the stop
    signal, inside the [for] over the snapshot taken at [now], in the
    tick sleep, or finished. *)
Inductive pc :=
| AtWhile
| InScan (now_ : Z) (items : list loc)
| Sleeping
| Exited.

(** Where the thread that calls [stop()] stands: not called, inside
    [join(timeout=3)] until [deadline], or returned. *)
Inductive caller :=
| Idle
| Joining (deadline : Z)
| Returned.

Inductive tevent :=
| Checked (l : loc)
| StopReturned.

(** An engine and the threads around it.  [s_monitors] is the dict
    [self._monitors] in insertion order, [s_stop] the event
    [self._stop], [s_trace] the record of checker invocations and of
    the return of [stop()]. *)
Record sys := Sys {
  s_monitors : list (string * loc);
  s_stop : bool;
  s_worker : pc;
  s_caller : caller;
  s_world : world;
  s_trace : list tevent
}.

Fixpoint assoc_get (k : string) (m : list (string * loc)) : option loc :=
  match m with
  | [] => None
  | (k', l) :: m' => if String.eqb k' k then Some l else assoc_get k m'
  end.

(** [m[k] = l]: an existing key keeps its place, a new one goes last. *)
Fixpoint assoc_set (k : string) (l : loc) (m : list (string * loc))
  : list (string * loc) :=
  match m with
  | [] => [(k, l)]
  | (k', l') :: m' =>
      if String.eqb k' k then (k', l) :: m' else (k', l') :: assoc_set k l m'
  end.

(** [m.pop(k, None)] *)
Fixpoint assoc_pop (k : string) (m : list (string * loc))
  : list (string * loc) :=
  match m with
  | [] => []
  | (k', l') :: m' =>
      if String.eqb k' k then assoc_pop k m' else (k', l') :: assoc_pop k m'
  end.

Definition values (m : list (string * loc)) : list loc := map snd m.

Definition with_world (w : world) (s : sys) : sys :=
  Sys (s_monitors s) (s_stop s) (s_worker s) (s_caller s) w (s_trace s).

Definition with_monitors (m : list (string * loc)) (s : sys) : sys :=
  Sys m (s_stop s) (s_worker s) (s_caller s) (s_world s) (s_trace s).

(** [add(item)]: [self._monitors[item["id"]] = item].  The registry is
    annotated [Dict[str, ...]]; the model keeps [str] keys only and
    reports any other id as a [TypeError]. *)
Definition add (item : loc) (s : sys) : outcome sys :=
  match dict_at (w_heap (s_world s)) item !! "id" with
  | Some (VStr k) => Normal (with_monitors (assoc_set k item (s_monitors s)) s)
  | Some _ => Raise (mk_exn TypeError "id is not a str")
  | None => Raise (mk_exn KeyError "'id'")
  end.

(** [remove(item_id)]: [self._monitors.pop(item_id, None)] *)
Definition remove (item_id : string) (s : sys) : sys :=
  with_monitors (assoc_pop item_id (s_monitors s)) s.

(** [[dict(v) for v in vs]]: one new dict object per record, holding
    the same values under the same keys. *)
Fixpoint copy_all (vs : list loc) (h : heap) : list loc * heap :=
  match vs with
  | [] => ([], h)
  | v :: vs' =>
      let '(c, h1) := alloc_dict (dict_at h v) h in
      let '(cs, h2) := copy_all vs' h1 in
      (c :: cs, h2)
  end.

(** [list()] *)
Definition list_ (s : sys) : list loc * sys :=
  let '(cs, h) := copy_all (values (s_monitors s)) (w_heap (s_world s)) in
  (cs, with_world (with_heap h (s_world s)) s).

(** [set_active(item_id, active)] *)
Definition set_active (item_id : string) (active : bool) (s : sys) : sys :=
  match assoc_get item_id (s_monitors s) with
  | Some l =>
      with_world
        (with_heap (dict_setitem l "active" (VBool active) (w_heap (s_world s)))
           (s_world s)) s
  | None => s
  end.

(** [v.timestamp()]: only a [datetime] has the method. *)
Definition timestamp (v : value) : M Z :=
  match v with
  | VDatetime ts => ret ts
  | _ => raise (mk_exn AttributeError "object has no attribute 'timestamp'")
  end.

Section Loop.

Variable checker : loc → M unit.

(** The [except Exception as e] block of [_loop]. *)
Definition on_failure (item : loc) (e : exn) : M unit :=
  item_setitem item "status" (VStr "error") ;;
  item_setitem item "status_msg" (VStr "Background error") ;;
  item_setitem item "error" (VStr (exn_str e)) ;;
  let* t := now in
  item_setitem item "last_checked" (VDatetime t).

(** The body of [for item in items].  The result tells whether the
    checker was invoked on [item]. *)
Definition loop_item (now_ : Z) (item : loc) : M bool :=
  let* active := item_get item "active" (VBool true) in
  let* a := is_truthy active in
  if negb a then ret false
  else
    let* lc := item_get item "last_checked" VNone in
    let* set := is_truthy lc in
    let* last_ts :=
      (if set then (let* v := item_getitem item "last_checked" in timestamp v)
       else ret 0) in
    if Z.geb (now_ - last_ts) POLL_INTERVAL_SEC then
      try_except (checker item) (on_failure item) ;;
      ret true
    else ret false.

(** One whole [for] loop; the result lists the records the checker was
    invoked on, in order. *)
Fixpoint for_items (now_ : Z) (items : list loc) : M (list loc) :=
  match items with
  | [] => ret []
  | item :: rest =>
      let* c := loop_item now_ item in
      let* cs := for_items now_ rest in
      ret (if c then item :: cs else cs)
  end.

(** One iteration of [while not self._stop.is_set()] up to the sleep. *)
Definition scan (s : sys) : outcome (list loc) * world :=
  for_items (w_clock (s_world s)) (values (s_monitors s)) (s_world s).

Definition advance (d : Z) (w : world) : world :=
  World (w_heap w) (w_clock w + d) (w_tape w) (w_cursor w) (w_log w).

Definition with_worker (p : pc) (s : sys) : sys :=
  Sys (s_monitors s) (s_stop s) p (s_caller s) (s_world s) (s_trace s).

(** One move of the worker thread.  An exception that leaves
    [loop_item] is uncaught and ends the thread; the tick sleep
    [self._stop.wait(1.0)] lasts one second unless the signal is set. *)
Definition worker_step (s : sys) : sys :=
  match s_worker s with
  | AtWhile =>
      if s_stop s then with_worker Exited s
      else with_worker (InScan (w_clock (s_world s)) (values (s_monitors s))) s
  | InScan now_ [] => with_worker Sleeping s
  | InScan now_ (item :: rest) =>
      match loop_item now_ item (s_world s) with
      | (Normal c, w) =>
          Sys (s_monitors s) (s_stop s) (InScan now_ rest) (s_caller s) w
            (if c then s_trace s ++ [Checked item] else s_trace s)
      | (Raise _, w) =>
          Sys (s_monitors s) (s_stop s) Exited (s_caller s) w (s_trace s)
      end
  | Sleeping =>
      with_world (advance (if s_stop s then 0 else 1) (s_world s))
        (with_worker AtWhile s)
  | Exited => s
  end.

(** [stop()], first half: [self._stop.set()], then the join starts. *)
Definition stop_call (s : sys) : sys :=
  Sys (s_monitors s) true (s_worker s)
    (Joining (w_clock (s_world s) + 3)) (s_world s) (s_trace s).

(** [stop()], second half: [join(timeout=3)] returns once the worker
    has finished or the three seconds have passed. *)
Definition stop_return (s : sys) : option sys :=
  match s_caller s with
  | Joining deadline =>
      if match s_worker s with Exited => true | _ => false end
         || Z.leb deadline (w_clock (s_world s))
      then Some (Sys (s_monitors s) (s_stop s) (s_worker s) Returned
                   (s_world s) (s_trace s ++ [StopReturned]))
      else None
  | _ => None
  end.

(** What the threads can do next. *)
Inductive action :=
| Worker
| Add (item : loc)
| Remove (item_id : string)
| List
| SetActive (item_id : string) (active : bool)
| Stop
| StopReturn.

Definition step (a : action) (s : sys) : option sys :=
  match a with
  | Worker => Some (worker_step s)
  | Add item => match add item s with Normal s' => Some s' | Raise _ => Some s end
  | Remove item_id => Some (remove item_id s)
  | List => Some (snd (list_ s))
  | SetActive item_id active => Some (set_active item_id active s)
  | Stop => match s_caller s with Joining _ => None | _ => Some (stop_call s) end
  | StopReturn => stop_return s
  end.

(** A schedule is the order in which the threads move. *)
Fixpoint run (sched : list action) (s : sys) : option sys :=
  match sched with
  | [] => Some s
  | a :: sched' =>
      match step a s with
      | Some s' => run sched' s'
      | None => None
      end
  end.

End Loop.

(** [MonitorEngine(checker)]: empty registry, signal clear, worker
    started. *)
Definition init (w : world) : sys := Sys [] false AtWhile Idle w [].

End Engine.

(** ** app.py: the checker *)

Module App.

(** *** The operations of Python the checker uses on parsed JSON *)

(** Member lookup; a repeated name keeps its last value, as
    [json.loads] does. *)
Fixpoint jlookup (k : string) (kvs : list (string * json)) : option json :=
  match kvs with
  | [] => None
  | (k', v) :: rest =>
      match jlookup k rest with
      | Some x => Some x
      | None => if String.eqb k' k then Some v else None
      end
  end.

(** [j.get(k, dflt)] *)
Definition py_get (j : json) (k : string) (dflt : json) : outcome json :=
  match j with
  | JObj kvs => Normal (default dflt (jlookup k kvs))
  | _ => Raise (mk_exn AttributeError "object has no attribute 'get'")
  end.

Fixpoint chars (s : string) : list json :=
  match s with
  | EmptyString => []
  | String a s' => JStr (String a EmptyString) :: chars s'
  end.

(** [for x in j]: a list gives its elements, a dict its keys, a str its
    characters. *)
Definition py_iter (j : json) : outcome (list json) :=
  match j with
  | JArr xs => Normal xs
  | JObj kvs => Normal (map (fun kv => JStr (fst kv)) kvs)
  | JStr s => Normal (chars s)
  | _ => Raise (mk_exn TypeError "object is not iterable")
  end.

(** [xs[i]] with Python's negative indices. *)
Definition py_index {A} (xs : list A) (i : Z) : option A :=
  if Z.leb 0 i then nth_error xs (Z.to_nat i)
  else if Z.leb 0 (Z.of_nat (length xs) + i)
       then nth_error xs (Z.to_nat (Z.of_nat (length xs) + i))
       else None.

Definition as_index (key : json) : option Z :=
  match key with
  | JNum i => Some i
  | JBool b => Some (if b then 1 else 0)
  | _ => None
  end.

(** [j[key]] *)
Definition py_getitem (j key : json) : outcome json :=
  match j with
  | JObj kvs =>
      match key with
      | JStr k =>
          match jlookup k kvs with
          | Some v => Normal v
          | None => Raise (mk_exn KeyError ("'" +:+ k +:+ "'"))
          end
      | JArr _ | JObj _ => Raise (mk_exn TypeError "unhashable type")
      | _ => Raise (mk_exn KeyError "key")
      end
  | JArr xs =>
      match as_index key with
      | Some i =>
          match py_index xs i with
          | Some v => Normal v
          | None => Raise (mk_exn IndexError "list index out of range")
          end
      | None => Raise (mk_exn TypeError "list indices must be integers or slices")
      end
  | JStr s =>
      match as_index key with
      | Some i =>
          match py_index (chars s) i with
          | Some v => Normal v
          | None => Raise (mk_exn IndexError "string index out of range")
          end
      | None => Raise (mk_exn TypeError "string indices must be integers")
      end
  | _ => Raise (mk_exn TypeError "object is not subscriptable")
  end.

(** [s.split(c)] for a one-character separator. *)
Fixpoint split_on (c : ascii) (s : string) : list string :=
  match s with
  | EmptyString => [EmptyString]
  | String a s' =>
      if Ascii.eqb a c then EmptyString :: split_on c s'
      else match split_on c s' with
           | x :: xs => String a x :: xs
           | [] => [String a EmptyString]
           end
  end.

(** The part of [s] before the last [c], if [c] occurs. *)
Fixpoint before_last (c : ascii) (s : string) : option string :=
  match s with
  | EmptyString => None
  | String a s' =>
      match before_last c s' with
      | Some p => Some (String a p)
      | None => if Ascii.eqb a c then Some EmptyString else None
      end
  end.

(** [s.rsplit(c, 1)[0]] *)
Definition rsplit1_head (c : ascii) (s : string) : string :=
  default s (before_last c s).

(** [j.split(" ")]: only a str has the method. *)
Definition py_split (j : json) : outcome (list string) :=
  match j with
  | JStr s => Normal (split_on " " s)
  | _ => Raise (mk_exn AttributeError "object has no attribute 'split'")
  end.

Fixpoint is_substring (t s : string) : bool :=
  String.prefix t s
  || match s with
     | EmptyString => false
     | String _ s' => is_substring t s'
     end.

Definition str_eq_value (t : string) (v : value) : bool :=
  match v with
  | VStr s => String.eqb s t
  | VJson (JStr s) => String.eqb s t
  | _ => false
  end.

(** [t in v] for a str [t]: membership in a list, key of a dict,
    substring of a str. *)
Definition contains (v : value) (t : string) : M bool :=
  fun w =>
    match v with
    | VList l => (Normal (existsb (str_eq_value t) (list_at (w_heap w) l)), w)
    | VDict l => (Normal (bool_decide (is_Some (dict_at (w_heap w) l !! t))), w)
    | VStr s => (Normal (is_substring t s), w)
    | VJson (JStr s) => (Normal (is_substring t s), w)
    | VJson (JArr xs) =>
        (Normal (existsb (fun j => str_eq_value t (VJson j)) xs), w)
    | VJson (JObj kvs) =>
        (Normal (match jlookup t kvs with Some _ => true | None => false end), w)
    | _ => (Raise (mk_exn TypeError "argument is not iterable"), w)
    end.

(** A JSON scalar as the Python value it parses to. *)
Definition of_json (j : json) : value :=
  match j with
  | JNull => VNone
  | JBool b => VBool b
  | JNum n => VInt n
  | JStr s => VStr s
  | _ => VJson j
  end.

(** *** Dates and times *)

(** [d.strftime("%Y-%m-%d")] on a [dt.date]. *)
Definition strftime_date (v : value) : M string :=
  match v with
  | VDate iso => ret iso
  | _ => raise (mk_exn AttributeError "object has no attribute 'strftime'")
  end.

Definition digit_of (a : ascii) : option Z :=
  let n := Z.of_nat (nat_of_ascii a) in
  if Z.leb 48 n && Z.leb n 57 then Some (n - 48) else None.

(** One or two digits below [bound]: the directives [%H] and [%M]. *)
Definition parse_field (bound : Z) (s : string) : option Z :=
  match s with
  | String a EmptyString => digit_of a
  | String a (String b EmptyString) =>
      match digit_of a, digit_of b with
      | Some x, Some y => if Z.ltb (10 * x + y) bound then Some (10 * x + y) else None
      | _, _ => None
      end
  | _ => None
  end.

Fixpoint split_first (c : ascii) (s : string) : option (string * string) :=
  match s with
  | EmptyString => None
  | String a s' =>
      if Ascii.eqb a c then Some (EmptyString, s')
      else match split_first c s' with
           | Some (x, y) => Some (String a x, y)
           | None => None
           end
  end.

(** [dt.datetime.strptime(s, "%H:%M").time()] *)
Definition strptime_HM (s : string) : outcome (Z * Z) :=
  match split_first ":" s with
  | Some (hs, ms) =>
      match parse_field 24 hs, parse_field 60 ms with
      | Some h, Some m => Normal (h, m)
      | _, _ => Raise (mk_exn ValueError "time data does not match format '%H:%M'")
      end
  | None => Raise (mk_exn ValueError "time data does not match format '%H:%M'")
  end.

Definition two_digits (n : Z) : string :=
  if Z.ltb n 10 then "0" +:+ pretty n else pretty n.

(** [t.strftime("%I:%M %p").lstrip("0")] *)
Definition time_12 (hm : Z * Z) : string :=
  let h12 := if Z.eqb (fst hm mod 12) 0 then 12 else fst hm mod 12 in
  pretty h12 +:+ ":" +:+ two_digits (snd hm) +:+ " "
  +:+ (if Z.ltb (fst hm) 12 then "AM" else "PM").

(** [strptime] wants a str. *)
Definition to_time_12 (j : json) : outcome string :=
  match j with
  | JStr s =>
      match strptime_HM s with
      | Normal hm => Normal (time_12 hm)
      | Raise e => Raise e
      end
  | _ => Raise (mk_exn TypeError "strptime() argument 1 must be str")
  end.

(** *** The outside world *)

(** A call that leaves the process: the next reply of the tape decides
    how long it takes and what comes back. *)
Definition call (ev : bool → event) : M json :=
  fun w =>
    let r := w_tape w (w_cursor w) in
    (r_result r,
     World (w_heap w) (w_clock w + r_elapsed r) (w_tape w) (S (w_cursor w))
       (w_log w ++ [ev (match r_result r with Normal _ => true | Raise _ => false end)])).

(** [client.get_calendar(venue_id, num_seats, start_date, end_date)] *)
Definition get_calendar (venue_id num_seats : value) (start_date end_date : string)
  : M json :=
  call (fun _ => EvCalendar venue_id num_seats start_date end_date).

(** [client.find(venue_id, num_seats, day, None)] *)
Definition find (venue_id num_seats : value) (day : json) : M json :=
  call (fun _ => EvFind venue_id num_seats day).

(** [sendWebhook(...)]: seven positional parameters, none with a
    default; any other number of arguments is a [TypeError] at the
    call. *)
Definition sendWebhook (args : list value) : M unit :=
  match args with
  | [restaurauntName; date; time_str; partySize; link; type_str; image] =>
      let* _ := call (EvWebhook args) in ret tt
  | _ => raise (mk_exn TypeError
                  "sendWebhook() missing 1 required positional argument: 'image'")
  end.

(** *** run_check *)

(** [[x["date"] for x in scheduled
      if x.get("inventory", {}).get("reservation") == "available"]] *)
Fixpoint available_dates (scheduled : list json) : outcome (list json) :=
  match scheduled with
  | [] => Normal []
  | x :: rest =>
      match py_get x "inventory" (JObj []) with
      | Raise e => Raise e
      | Normal inv =>
          match py_get inv "reservation" JNull with
          | Raise e => Raise e
          | Normal (JStr "available") =>
              match py_getitem x (JStr "date") with
              | Raise e => Raise e
              | Normal d =>
                  match available_dates rest with
                  | Raise e => Raise e
                  | Normal ds => Normal (d :: ds)
                  end
              end
          | Normal _ => available_dates rest
          end
      end
  end.

(** The dict appended to [matches] for a slot whose time was asked
    for.  Its values all come from the JSON replies, so it is kept as a
    JSON object. *)
Definition make_match (date_str : json) (t : string) (slot venues : json)
  : outcome json :=
  match py_getitem slot (JStr "config") with
  | Raise e => Raise e
  | Normal cfg =>
  match py_get cfg "type" (JStr "reservation") with
  | Raise e => Raise e
  | Normal ty =>
  match py_getitem slot (JStr "config") with
  | Raise e => Raise e
  | Normal cfg' =>
  match py_get cfg' "time_filter" (JStr "") with
  | Raise e => Raise e
  | Normal tf =>
  match py_getitem venues (JNum 0) with
  | Raise e => Raise e
  | Normal v0 =>
  match py_getitem v0 (JStr "templates") with
  | Raise e => Raise e
  | Normal templates =>
  match py_getitem venues (JNum 0) with
  | Raise e => Raise e
  | Normal v0' =>
  match py_getitem v0' (JStr "venue") with
  | Raise e => Raise e
  | Normal venue =>
  match py_getitem venue (JStr "default_template") with
  | Raise e => Raise e
  | Normal key =>
  match py_getitem templates key with
  | Raise e => Raise e
  | Normal template =>
  match py_getitem template (JStr "images") with
  | Raise e => Raise e
  | Normal images =>
  match py_getitem images (JNum 0) with
  | Raise e => Raise e
  | Normal image =>
      Normal (JObj [("date", date_str); ("time_24", JStr t); ("type", ty);
                    ("time_filter", tf); ("image", image)])
  end end end end end end end end end end end end.

(** [slot["date"]["start"].split(" ")[1].rsplit(":", 1)[0]] *)
Definition slot_time (slot : json) : outcome string :=
  match py_getitem slot (JStr "date") with
  | Raise e => Raise e
  | Normal d =>
  match py_getitem d (JStr "start") with
  | Raise e => Raise e
  | Normal start =>
  match py_split start with
  | Raise e => Raise e
  | Normal parts =>
  match py_index parts 1 with
  | None => Raise (mk_exn IndexError "list index out of range")
  | Some hms => Normal (rsplit1_head ":" hms)
  end end end end.

(** [for slot in venues[0].get("slots", [])] *)
Fixpoint for_slots (item : loc) (date_str venues : json) (slots : list json)
  (matches : list json) : M (list json) :=
  match slots with
  | [] => ret matches
  | slot :: rest =>
      let* t := lift (slot_time slot) in
      let* times_24 := item_getitem item "times_24" in
      let* wanted := contains times_24 t in
      if wanted then
        let* m := lift (make_match date_str t slot venues) in
        for_slots item date_str venues rest (matches ++ [m])
      else for_slots item date_str venues rest matches
  end.

(** The [try] block inside [for date_str in available_dates]. *)
Definition date_body (item : loc) (date_str : json) (matches : list json)
  : M (list json) :=
  let* _ := item_getitem item "party_size" in
  let* _ := item_getitem item "venue_id" in
  let* venue_id := item_getitem item "venue_id" in
  let* party_size := item_getitem item "party_size" in
  let* find_json := find venue_id party_size date_str in
  let* results := lift (py_get find_json "results" (JObj [])) in
  let* venues := lift (py_get results "venues" (JArr [])) in
  if negb (json_truthy venues) then ret matches
  else
    let* v0 := lift (py_getitem venues (JNum 0)) in
    let* slots := lift (py_get v0 "slots" (JArr [])) in
    let* ss := lift (py_iter slots) in
    for_slots item date_str venues ss matches.

(** [for date_str in available_dates]: a [ResyClientError] on one date
    is skipped ([continue]); it can only come from [client.find], the
    first call of the block, so [matches] is then as it was. *)
Fixpoint for_dates (item : loc) (dates : list json) (matches : list json)
  : M (list json) :=
  match dates with
  | [] => ret matches
  | date_str :: rest =>
      let* matches' :=
        try_except (date_body item date_str matches)
          (fun e => if is_resy_error e then ret matches else raise e) in
      for_dates item rest matches'
  end.

(** The arguments of the call on line 188, in the order Python
    evaluates them: six of them. *)
Definition each_args (item : loc) (m : json) : M (list value) :=
  let* t24 := lift (py_getitem m (JStr "time_24")) in
  let* time_str := lift (to_time_12 t24) in
  let* venue_name := item_getitem item "venue_name" in
  let* date := lift (py_getitem m (JStr "date")) in
  let* party_size := item_getitem item "party_size" in
  let* url := item_getitem item "url" in
  let* ty := lift (py_getitem m (JStr "type")) in
  ret [venue_name; of_json date; VStr time_str; party_size; url; of_json ty].

(** The branch "send for every matched slot". *)
Fixpoint send_each (item : loc) (matches : list json) : M unit :=
  match matches with
  | [] => ret tt
  | m :: rest =>
      let* args := each_args item m in
      sendWebhook args ;;
      send_each item rest
  end.

(** The arguments of the call on line 178 or 180: they describe
    [matches[0]]. *)
Definition first_args (item : loc) (matches : list json) : M (list value) :=
  let* m := lift (py_getitem (JArr matches) (JNum 0)) in
  let* t24 := lift (py_getitem m (JStr "time_24")) in
  let* time_str := lift (to_time_12 t24) in
  let* venue_name := item_getitem item "venue_name" in
  let* date := lift (py_getitem m (JStr "date")) in
  let* party_size := item_getitem item "party_size" in
  let* url := item_getitem item "url" in
  let* ty :=
    (if Z.ltb 1 (Z.of_nat (length matches)) then ret (VStr "MANY MANY MANY")
     else let* j := lift (py_getitem m (JStr "type")) in ret (of_json j)) in
  let* image := lift (py_getitem m (JStr "image")) in
  ret [venue_name; of_json date; VStr time_str; party_size; url; ty; of_json image].

(** The branch "send a single webhook for the first matching slot". *)
Definition send_first (item : loc) (matches : list json) : M unit :=
  let* args := first_args item matches in
  sendWebhook args ;;
  item_setitem item "webhook_sent" (VBool true).

(** Lines 165-188: the notification policy. *)
Definition notify (item : loc) (matches : list json) : M unit :=
  let* only_one := item_get item "only_one_webhook" VNone in
  let* only_one := is_truthy only_one in
  let* sent := item_get item "webhook_sent" VNone in
  let* sent := is_truthy sent in
  if only_one && sent then ret tt
  else if only_one then send_first item matches
  else send_each item matches.

(** [item["found_slots"] = xs] for a list built by this call. *)
Definition set_found_slots (item : loc) (xs : list json) : M unit :=
  modify_heap (fun h =>
    let '(l, h') := alloc_list (map VJson xs) h in
    dict_setitem item "found_slots" (VList l) h').

Definition set_none (item : loc) (msg : string) : M unit :=
  item_setitem item "status" (VStr "none") ;;
  item_setitem item "status_msg" (VStr msg) ;;
  set_found_slots item [] ;;
  item_setitem item "error" VNone.

Definition set_found (item : loc) (matches : list json) : M unit :=
  item_setitem item "status" (VStr "found") ;;
  item_setitem item "status_msg" (VStr "🎉 Found reservations!") ;;
  set_found_slots item matches ;;
  item_setitem item "error" VNone ;;
  let* stop := item_get item "stop_on_match" (VBool true) in
  let* stop := is_truthy stop in
  if stop then item_setitem item "active" (VBool false) else ret tt.

(** The calendar pass, lines 109-122: the dates the calendar reports
    as available. *)
Definition calendar_pass (item : loc) : M (list json) :=
  let* start_date := item_getitem item "start_date" in
  let* start_ := strftime_date start_date in
  let* end_date := item_getitem item "end_date" in
  let* end_ := strftime_date end_date in
  let* _ := item_getitem item "venue_id" in
  let* _ := item_getitem item "party_size" in
  let* venue_id := item_getitem item "venue_id" in
  let* party_size := item_getitem item "party_size" in
  let* cal := get_calendar venue_id party_size start_ end_ in
  let* scheduled := lift (py_get cal "scheduled" (JArr [])) in
  let* xs := lift (py_iter scheduled) in
  lift (available_dates xs).

(** The [try] block of [run_check]. *)
Definition run_check_try (item : loc) : M unit :=
  let* dates := calendar_pass item in
  match dates with
  | [] => set_none item "Nothing available (calendar)"
  | _ :: _ =>
      let* matches := for_dates item dates [] in
      match matches with
      | _ :: _ => notify item matches ;; set_found item matches
      | [] => set_none item "Nothing available for selected times"
      end
  end.

(** [f"API error {e.status_code or ''}".strip()] *)
Definition api_error_msg (status_code : option Z) : string :=
  match status_code with
  | Some n => if Z.eqb n 0 then "API error" else "API error " +:+ pretty n
  | None => "API error"
  end.

(** [e.details.get("text") or e.details.get("error") or str(e)] *)
Definition error_text (e : exn) : M value :=
  let text := dict_get (exn_details e) "text" VNone in
  let* t := is_truthy text in
  if t then ret text
  else
    let error := dict_get (exn_details e) "error" VNone in
    let* t' := is_truthy error in
    if t' then ret error else ret (VStr (exn_str e)).

(** The two [except] blocks. *)
Definition on_error (item : loc) (e : exn) : M unit :=
  if is_resy_error e then
    item_setitem item "status" (VStr "error") ;;
    item_setitem item "status_msg" (VStr (api_error_msg (exn_status e))) ;;
    let* err := error_text e in
    item_setitem item "error" err
  else
    item_setitem item "status" (VStr "error") ;;
    item_setitem item "status_msg" (VStr "Unexpected error") ;;
    item_setitem item "error" (VStr (exn_str e)).

(** [run_check(item)]: [try] / [except] / [finally]. *)
Definition run_check (item : loc) : M unit :=
  fun w =>
    let '(r, w1) := try_except (run_check_try item) (on_error item) w in
    let '(_, w2) := (let* t := now in
                     item_setitem item "last_checked" (VDatetime t)) w1 in
    (r, w2).

(** The slots a check started in [w] collects in [matches]; empty
    when the calendar or a date lookup fails. *)
Definition found_matches (item : loc) (w : world) : list json :=
  match calendar_pass item w with
  | (Normal (d :: dates), w1) =>
      match for_dates item (d :: dates) [] w1 with
      | (Normal matches, _) => matches
      | (Raise _, _) => []
      end
  | _ => []
  end.

(** The heap [set_none] and [set_found] leave. *)
Definition none_heap (item : loc) (msg : string) (h : heap) : heap :=
  let h2 :=
    dict_setitem item "status_msg" (VStr msg)
      (dict_setitem item "status" (VStr "none") h) in
  let l := (alloc_list [] h2).1 in
  dict_setitem item "error" VNone
    (dict_setitem item "found_slots" (VList l) (alloc_list [] h2).2).

Definition found_heap (item : loc) (matches : list json) (h : heap) : heap :=
  let h2 :=
    dict_setitem item "status_msg" (VStr "🎉 Found reservations!")
      (dict_setitem item "status" (VStr "found") h) in
  let l := (alloc_list (map VJson matches) h2).1 in
  let h4 :=
    dict_setitem item "error" VNone
      (dict_setitem item "found_slots" (VList l)
         (alloc_list (map VJson matches) h2).2) in
  if truthy h4 (dict_get (dict_at h4 item) "stop_on_match" (VBool true))
  then dict_setitem item "active" (VBool false) h4
  else h4.

(** The heap the [except] blocks leave: [err] is the value stored in
    [error]. *)
Definition error_heap (item : loc) (msg : string) (err : value) (h : heap) : heap :=
  dict_setitem item "error" err
    (dict_setitem item "status_msg" (VStr msg)
       (dict_setitem item "status" (VStr "error") h)).

Definition is_webhook (ev : event) : bool :=
  match ev with
  | EvWebhook _ _ => true
  | _ => false
  end.

Definition is_sent (ev : event) : bool :=
  match ev with
  | EvWebhook _ sent => sent
  | _ => false
  end.

(** The calls of [sendWebhook] in a trace, and those that returned. *)
Definition attempts (evs : list event) : nat := length (List.filter is_webhook evs).

Definition sends (evs : list event) : nat := length (List.filter is_sent evs).

(** [n] checks of the same record in a row. *)
Definition checks (item : loc) (n : nat) (w : world) : world :=
  Nat.iter n (fun w => (run_check item w).2) w.

End App.

(** ** Reading a record the way [_loop] does *)

Module Reading.

Import Engine.

(** [item.get("active", True)], as a truth value. *)
Definition is_active (h : heap) (item : loc) : bool :=
  truthy h (dict_get (dict_at h item) "active" (VBool true)).

(** [item["last_checked"].timestamp() if item.get("last_checked") else 0]:
    [None] when the stored value is true but has no [timestamp]. *)
Definition last_ts (h : heap) (item : loc) : option Z :=
  let v := dict_get (dict_at h item) "last_checked" VNone in
  if truthy h v then
    match v with
    | VDatetime ts => Some ts
    | _ => None
    end
  else Some 0.

(** [item.get("last_checked")] is false: the key is missing or holds
    [None]. *)
Definition unchecked (h : heap) (item : loc) : bool :=
  negb (truthy h (dict_get (dict_at h item) "last_checked" VNone)).

(** The record as the failure boundary of [_loop] leaves it. *)
Definition failed (item : loc) (e : exn) (w : world) : world :=
  with_heap
    (dict_setitem item "last_checked" (VDatetime (w_clock w))
       (dict_setitem item "error" (VStr (exn_str e))
          (dict_setitem item "status_msg" (VStr "Background error")
             (dict_setitem item "status" (VStr "error") (w_heap w))))) w.

(** The fields an error outcome assigns. *)
Definition error_fields : list string :=
  ["status"; "status_msg"; "error"; "last_checked"].

(** The contents of the list a record's [found_slots] refers to. *)
Definition found_slots (h : heap) (item : loc) : list value :=
  match dict_at h item !! "found_slots" with
  | Some (VList l) => list_at h l
  | _ => []
  end.

(** The records the worker still holds from the scan in flight. *)
Definition pending (p : pc) : list loc :=
  match p with
  | InScan _ items => items
  | _ => []
  end.

(** Every registered record is an object of the heap. *)
Definition allocated (s : sys) : Prop :=
  ∀ l, l ∈ values (s_monitors s) → is_Some (dicts (w_heap (s_world s)) !! l).

(** Every record is registered under the id it carries, as [add]
    stores it. *)
Definition keyed (s : sys) : Prop :=
  ∀ k l, (k, l) ∈ s_monitors s →
    dict_at (w_heap (s_world s)) l !! "id" = Some (VStr k).

(** A checker that neither assigns the [id] of a record nor drops an
    object from the heap. *)
Definition keeps_ids (checker : loc → M unit) : Prop :=
  ∀ item w l,
    is_Some (dicts (w_heap w) !! l) →
    is_Some (dicts (w_heap (checker item w).2) !! l)
    ∧ dict_at (w_heap (checker item w).2) l !! "id" = dict_at (w_heap w) l !! "id".

(** [item.get("only_one_webhook")] and [item.get("webhook_sent")], as
    truth values. *)
Definition only_one (h : heap) (item : loc) : bool :=
  truthy h (dict_get (dict_at h item) "only_one_webhook" VNone).

Definition webhook_sent (h : heap) (item : loc) : bool :=
  truthy h (dict_get (dict_at h item) "webhook_sent" VNone).

(** The [finally] block of [run_check]. *)
Definition stamped (item : loc) (w : world) : world :=
  with_heap (dict_setitem item "last_checked" (VDatetime (w_clock w)) (w_heap w)) w.

(** [w1] is [w] with the same heap, later on the clock and the tape,
    and no call of [sendWebhook] in between. *)
Definition quiet_from (w w1 : world) : Prop :=
  w_heap w1 = w_heap w
  ∧ ∃ evs, w_log w1 = w_log w ++ evs ∧ App.attempts evs = 0%nat.

Definition quiet {A} (m : M A) : Prop := ∀ w, quiet_from w (m w).2.

(** A computation that only reads. *)
Definition pure {A} (m : M A) : Prop := ∀ w, (m w).2 = w.

Definition is_add (a : action) : bool :=
  match a with
  | Add _ => true
  | _ => false
  end.

End Reading.

(** ** Sample records, checkers and worlds *)

Module Samples.

Import Engine App Reading.

(** The record the form of [app.py] builds, before its first check. *)
Definition monitor (id : string) (times_24 times_12 found : loc)
  (only_one stop_on_match : bool) : gmap string value :=
  list_to_map
    [("id", VStr id); ("venue_id", VStr "834"); ("venue_name", VStr "Casa Paco");
     ("url", VStr "https://resy.com/cities/toronto-on/venues/casa-paco");
     ("party_size", VInt 2);
     ("start_date", VDate "2025-09-03"); ("end_date", VDate "2025-09-03");
     ("times_24", VList times_24); ("times_12", VList times_12);
     ("last_checked", VNone); ("status", VStr "polling");
     ("status_msg", VStr "Monitoring…"); ("found_slots", VList found);
     ("error", VNone); ("only_one_webhook", VBool only_one);
     ("webhook_sent", VBool false); ("stop_on_match", VBool stop_on_match);
     ("active", VBool true)].

(** Two monitors, at 0 and 1, asking for 19:00. *)
Definition heap2 : heap :=
  Heap {[ 0%nat := monitor "834-1" 0%nat 1%nat 2%nat true true;
          1%nat := monitor "834-2" 0%nat 1%nat 3%nat true true ]}
       {[ 0%nat := [VStr "19:00"]; 1%nat := [VStr "7:00 PM"];
          2%nat := []; 3%nat := [] ]}.

Definition silent (n : nat) : reply := Reply 0 (Normal JNull).

Definition world2 (clock : Z) : world := World heap2 clock silent 0 [].

(** A checker that fails on record 0, takes five seconds there, and
    marks every other record as checked. *)
Definition flaky (item : loc) : M unit :=
  fun w =>
    match item with
    | O => (Raise (mk_exn OtherException "boom"), advance 5 w)
    | _ => (let* t := now in
            item_setitem item "last_checked" (VDatetime t)) (advance 5 w)
    end.

(** Record 1 was checked at 1000; record 0 is paused. *)
Definition heap_checked : heap :=
  dict_setitem 1%nat "last_checked" (VDatetime 1000)
    (dict_setitem 0%nat "active" (VBool false) heap2).

Definition world_checked (clock : Z) : world :=
  World heap_checked clock silent 0 [].

Definition boom : exn := mk_exn OtherException "boom".

(** A checker that marks the record as checked and takes no time. *)
Definition quick (item : loc) : M unit :=
  let* t := now in
  item_setitem item "last_checked" (VDatetime t).

Definition registry2 : list (string * loc) := [("834-1", 0%nat); ("834-2", 1%nat)].

Definition sys2 (clock : Z) : sys :=
  Sys registry2 false AtWhile Idle (world2 clock) [].

(** The worker is in a scan and holds records 0 and 1. *)
Definition sys_in_flight : sys :=
  Sys registry2 false (InScan 1000 [0%nat; 1%nat]) Idle (world2 1000) [].

(** The calendar reports one available date; [/4/find] reports one
    slot on it, at 19:00. *)
Definition cal_reply : json :=
  JObj [("scheduled",
         JArr [JObj [("date", JStr "2025-09-03");
                     ("inventory", JObj [("reservation", JStr "available")])]])].

Definition find_reply : json :=
  JObj [("results",
         JObj [("venues",
                JArr [JObj [("venue", JObj [("default_template", JStr "t1")]);
                            ("templates",
                             JObj [("t1", JObj [("images", JArr [JStr "http://img"])])]);
                            ("slots",
                             JArr [JObj [("date",
                                          JObj [("start", JStr "2025-09-03 19:00:00")]);
                                         ("config",
                                          JObj [("type", JStr "Dining Room")])]])]])])].

Definition resy_503 : exn :=
  Exn ResyClientError "Upstream error 503" (Some 503)
    {[ "text" := VStr "Service Unavailable" ]}.

(** The API answers, the webhook goes out, then the API is down. *)
Definition tape_found_then_down (n : nat) : reply :=
  match n with
  | 0%nat => Reply 1 (Normal cal_reply)
  | 1%nat => Reply 1 (Normal find_reply)
  | 2%nat => Reply 1 (Normal JNull)
  | _ => Reply 1 (Raise resy_503)
  end.

(** The API answers, the webhook cannot be delivered. *)
Definition tape_webhook_down (n : nat) : reply :=
  match n with
  | 0%nat => Reply 1 (Normal cal_reply)
  | 1%nat => Reply 1 (Normal find_reply)
  | _ => Reply 1 (Raise (mk_exn OtherException "Connection refused"))
  end.

Definition world_found : world := World heap2 1000 tape_found_then_down 0 [].

Definition world_webhook_down : world := World heap2 1000 tape_webhook_down 0 [].

Definition world_down : world :=
  World heap2 1000 (fun _ => Reply 1 (Raise resy_503)) 0 [].

(** Two monitors are added, the worker starts a scan, [stop()] is
    called, the worker checks the first record, [stop()] returns, the
    worker checks the second record. *)
Definition slow_shutdown : list action :=
  [Add 0%nat; Add 1%nat; Worker; Stop; Worker; StopReturn; Worker].

Definition after_stop : sys := stop_call sys_in_flight.

End Samples.

(** ** resy_client.py *)

Module Client.

(** What one [session.request] does: a response, with its status, its
    body and what [resp.json()] gives, or an exception. *)
Inductive http_reply :=
| Response (status_code : Z) (text : string) (json_ : outcome json)
| Timeout (msg : string)
| ConnectionError (msg : string)
| Failure (e : exn).

(** The [requests.Response] handed back to the caller. *)
Record response := Resp {
  status_code : Z;
  text : string;
  json_ : outcome json
}.

Inductive net_event :=
| Requested (method url : string) (params : list (string * value)) (attempt : nat)
| Slept (attempt : nat).

(** The network: the replies still to come and what the client did so
    far.  A backoff sleep is recorded by the attempt it follows; its
    length, [backoff_base * 2 ** (attempt - 1)] plus a random part, is
    not computed. *)
Record net := Net {
  n_tape : nat → http_reply;
  n_cursor : nat;
  n_log : list net_event
}.

Definition N (A : Type) : Type := net → outcome A * net.

(** [ResyClientError(f"Upstream error {status}", status_code=status,
    details={"text": resp.text})] *)
Definition upstream_error (status : Z) (body : string) : exn :=
  Exn ResyClientError ("Upstream error " +:+ pretty status) (Some status)
    {[ "text" := VStr body ]}.

(** [ResyClientError("Network error", details={"error": msg})] *)
Definition network_error (msg : string) : exn :=
  Exn ResyClientError "Network error" None {[ "error" := VStr msg ]}.

(** [resp.status_code in (429, 500, 502, 503, 504)] *)
Definition retryable (status : Z) : bool :=
  Z.eqb status 429 || Z.eqb status 500 || Z.eqb status 502
  || Z.eqb status 503 || Z.eqb status 504.

Definition sent (method url : string) (params : list (string * value))
  (attempt : nat) (n : net) : net :=
  Net (n_tape n) (S (n_cursor n)) (n_log n ++ [Requested method url params attempt]).

Definition slept (attempt : nat) (n : net) : net :=
  Net (n_tape n) (n_cursor n) (n_log n ++ [Slept attempt]).

(** [for attempt in range(1, self.max_retries + 1)], from [attempt] on,
    with [remaining] iterations to go; [last_exc] is [str(last_exc)]. *)
Fixpoint attempts_from (remaining attempt max_retries : nat) (last_exc : string)
  (method url : string) (params : list (string * value)) : N response :=
  fun n =>
    match remaining with
    | O => (Raise (network_error last_exc), n)
    | S remaining' =>
        let n1 := sent method url params attempt n in
        match n_tape n (n_cursor n) with
        | Response status body js =>
            if Z.geb status 400 then
              if retryable status && Nat.ltb attempt max_retries then
                attempts_from remaining' (S attempt) max_retries last_exc
                  method url params (slept attempt n1)
              else (Raise (upstream_error status body), n1)
            else (Normal (Resp status body js), n1)
        | Timeout msg | ConnectionError msg =>
            if Nat.ltb attempt max_retries then
              attempts_from remaining' (S attempt) max_retries msg
                method url params (slept attempt n1)
            else (Raise (network_error msg), n1)
        | Failure e => (Raise e, n1)
        end
    end.

(** [_request(method, url, **kwargs)] *)
Definition _request (max_retries : nat) (method url : string)
  (params : list (string * value)) : N response :=
  attempts_from max_retries 1 max_retries "None" method url params.

(** ["id" not in data] *)
Definition lacks_id (data : json) : outcome bool :=
  match data with
  | JObj kvs => Normal (match App.jlookup "id" kvs with Some _ => false | None => true end)
  | JArr xs => Normal (negb (existsb (fun j => App.str_eq_value "id" (VJson j)) xs))
  | JStr s => Normal (negb (App.is_substring "id" s))
  | _ => Raise (mk_exn TypeError "argument is not iterable")
  end.

(** [lookup_venue(city_slug, venue_slug)] *)
Definition lookup_venue (max_retries : nat) (city_slug venue_slug : string) : N json :=
  fun n =>
    match _request max_retries "GET" "https://api.resy.com/3/venue"
            [("url_slug", VStr venue_slug); ("location", VStr city_slug)] n with
    | (Raise e, n1) => (Raise e, n1)
    | (Normal resp, n1) =>
        match json_ resp with
        | Raise e => (Raise e, n1)
        | Normal data =>
            match lacks_id data with
            | Raise e => (Raise e, n1)
            | Normal true =>
                (Raise (Exn ResyClientError "Venue lookup did not return an id" None
                          {[ "response" := VJson data ]}), n1)
            | Normal false => (Normal data, n1)
            end
        end
    end.

(** [get_calendar(venue_id, num_seats, start_date, end_date)] *)
Definition get_calendar (max_retries : nat) (venue_id num_seats : value)
  (start_date end_date : string) : N json :=
  fun n =>
    match _request max_retries "GET" "https://api.resy.com/4/venue/calendar"
            [("venue_id", venue_id); ("num_seats", num_seats);
             ("start_date", VStr start_date); ("end_date", VStr end_date)] n with
    | (Raise e, n1) => (Raise e, n1)
    | (Normal resp, n1) => (json_ resp, n1)
    end.

(** [find(venue_id, num_seats, day, time_filter)]: [time_filter] goes
    into the payload only when it is true. *)
Definition find (max_retries : nat) (venue_id num_seats day time_filter : value)
  (h : heap) : N json :=
  fun n =>
    let payload :=
      [("day", day); ("lat", VInt 0); ("long", VInt 0);
       ("party_size", num_seats); ("venue_id", venue_id)]
      ++ (if truthy h time_filter then [("time_filter", time_filter)] else []) in
    match _request max_retries "POST" "https://api.resy.com/4/find" payload n with
    | (Raise e, n1) => (Raise e, n1)
    | (Normal resp, n1) => (json_ resp, n1)
    end.

Definition is_request (ev : net_event) : bool :=
  match ev with
  | Requested _ _ _ _ => true
  | Slept _ => false
  end.

(** The requests and the sleeps in a trace. *)
Definition requests (evs : list net_event) : nat := length (List.filter is_request evs).

Definition sleeps (evs : list net_event) : nat :=
  length (List.filter (fun ev => negb (is_request ev)) evs).

End Client.

(** ** app.py: the helpers of the page *)

Module Ui.

Import App.

Definition upper_ascii (a : ascii) : ascii :=
  let n := nat_of_ascii a in
  if Nat.leb 97 n && Nat.leb n 122 then ascii_of_nat (n - 32) else a.

(** [s.upper()], on ASCII. *)
Fixpoint upper (s : string) : string :=
  match s with
  | EmptyString => EmptyString
  | String a s' => String (upper_ascii a) (upper s')
  end.

(** What [\s] matches, on ASCII. *)
Definition is_space (a : ascii) : bool :=
  let n := nat_of_ascii a in
  (Nat.leb 9 n && Nat.leb n 13) || (Nat.leb 28 n && Nat.leb n 32).

(** The directive [%I]: [1[0-2]|0[1-9]|[1-9]]. *)
Definition parse_hour12 (s : string) : option Z :=
  match s with
  | String a EmptyString =>
      match digit_of a with
      | Some x => if Z.leb 1 x then Some x else None
      | None => None
      end
  | String a (String b EmptyString) =>
      match digit_of a, digit_of b with
      | Some 1, Some y => if Z.leb y 2 then Some (10 + y) else None
      | Some 0, Some y => if Z.leb 1 y then Some y else None
      | _, _ => None
      end
  | _ => None
  end.

(** The text up to the first white space, and the text from there. *)
Fixpoint until_space (s : string) : string * string :=
  match s with
  | EmptyString => (EmptyString, EmptyString)
  | String a s' =>
      if is_space a then (EmptyString, s)
      else let '(x, y) := until_space s' in (String a x, y)
  end.

Fixpoint skip_spaces (s : string) : string :=
  match s with
  | EmptyString => EmptyString
  | String a s' => if is_space a then skip_spaces s' else s
  end.

Definition bad_time : exn :=
  mk_exn ValueError "time data does not match format '%I:%M %p'".

(** [dt.datetime.strptime(s, "%I:%M %p").time()], as (hour, minute). *)
Definition strptime_IMp (s : string) : outcome (Z * Z) :=
  match split_first ":" s with
  | None => Raise bad_time
  | Some (hs, rest) =>
      let '(ms, tail) := until_space rest in
      match parse_hour12 hs, parse_field 60 ms, tail with
      | Some i, Some m, String _ _ =>
          let p := upper (skip_spaces tail) in
          if String.eqb p "AM" then Normal (if Z.eqb i 12 then 0 else i, m)
          else if String.eqb p "PM" then Normal (if Z.eqb i 12 then 12 else i + 12, m)
          else Raise bad_time
      | _, _, _ => Raise bad_time
      end
  end.

(** [to_24h_hhmm(t12)] *)
Definition to_24h_hhmm (t12 : string) : outcome string :=
  match strptime_IMp (upper t12) with
  | Normal (h, m) => Normal (two_digits h +:+ ":" +:+ two_digits m)
  | Raise e => Raise e
  end.

(** [times_12h_options()] *)
Definition times_12h_options : list string :=
  flat_map (fun hour => map (fun minute => time_12 (hour, minute)) [0; 15; 30; 45])
    (map Z.of_nat (seq 0 24)).

Definition ENGINE_POLL_INTERVAL_SEC : Z := 120.

(** The seconds [eta_text] counts down from: [remain]. *)
Definition eta_remain (now_ last_ts : Z) : Z :=
  Z.max 0 (ENGINE_POLL_INTERVAL_SEC - Z.max 0 (now_ - last_ts)).

(** [eta_text(item)], at clock [now_]. *)
Definition eta_text (now_ : Z) (item : loc) : M string :=
  let* lc := item_get item "last_checked" VNone in
  let* set := is_truthy lc in
  let* last_ts :=
    (if set then (let* v := item_getitem item "last_checked" in Engine.timestamp v)
     else ret 0) in
  let remain := eta_remain now_ last_ts in
  let m := remain / 60 in
  let s := remain mod 60 in
  if negb (Z.eqb m 0) then ret (pretty m +:+ "m " +:+ pretty s +:+ "s")
  else ret (pretty s +:+ "s").

Definition dq : string := String (ascii_of_nat 34) EmptyString.

(** [<span class="pill CLS">LABEL</span>] *)
Definition pill (cls label : string) : string :=
  "<span class=" +:+ dq +:+ "pill " +:+ cls +:+ dq +:+ ">" +:+ label +:+ "</span>".

(** [status_pill(item)] *)
Definition status_pill (h : heap) (item : loc) : string :=
  match dict_get (dict_at h item) "status" VNone with
  | VStr "found" => pill "pill-ok" "✅ Found"
  | VStr "none" => pill "pill-warn" "❌ None"
  | VStr "error" => pill "pill-warn" "⚠️ Error"
  | _ => pill "pill-run" "🔄 Polling"
  end.

End Ui.

(** ** Reading a check *)

Module Checking.

Import App.

(** The record holds what the calendar call needs: two dates, a venue
    and a party size. *)
Definition ready (h : heap) (item : loc) (venue_id party_size : value)
  (start_ end_ : string) : Prop :=
  dict_at h item !! "start_date" = Some (VDate start_)
  ∧ dict_at h item !! "end_date" = Some (VDate end_)
  ∧ dict_at h item !! "venue_id" = Some venue_id
  ∧ dict_at h item !! "party_size" = Some party_size.

(** Lines 119-122 on a calendar reply. *)
Definition calendar_dates (cal : json) : outcome (list json) :=
  match py_get cal "scheduled" (JArr []) with
  | Raise e => Raise e
  | Normal scheduled =>
      match py_iter scheduled with
      | Raise e => Raise e
      | Normal xs => available_dates xs
      end
  end.

(** The fields [run_check] may assign. *)
Definition result_fields : list string :=
  ["status"; "status_msg"; "found_slots"; "error"; "active"; "webhook_sent";
   "last_checked"].

End Checking.

(** ** Reading a request *)

Module Retrying.

Import Client.

(** A reply [_request] answers with a sleep and another attempt, as
    long as attempts are left. *)
Definition retried (reply : http_reply) : bool :=
  match reply with
  | Response status _ _ => Z.geb status 400 && retryable status
  | Timeout _ | ConnectionError _ => true
  | Failure _ => false
  end.

(** What [_request] makes of the reply it stops at. *)
Definition settle (reply : http_reply) : outcome response :=
  match reply with
  | Response status body js =>
      if Z.geb status 400 then Raise (upstream_error status body)
      else Normal (Resp status body js)
  | Timeout msg | ConnectionError msg => Raise (network_error msg)
  | Failure e => Raise e
  end.

(** Every request of a trace is the one given. *)
Definition all_to (method url : string) (params : list (string * value))
  (evs : list net_event) : Prop :=
  ∀ m u p a, Requested m u p a ∈ evs → m = method ∧ u = url ∧ p = params.

End Retrying.

(** ** More sample data *)

Module Cases.

Import Engine App Reading Samples Client.

(** Record 0 of [heap2] with [only_one_webhook] off. *)
Definition heap_every_slot : heap :=
  dict_setitem 0%nat "only_one_webhook" (VBool false) heap2.

Definition world_every_slot : world :=
  World heap_every_slot 1000 tape_found_then_down 0 [].

(** The calendar has no date for the range. *)
Definition world_empty_calendar : world :=
  World heap2 1000 (fun _ => Reply 1 (Normal (JObj [("scheduled", JArr [])]))) 0 [].

(** Every call times out after twelve seconds. *)
Definition world_timeout : world :=
  World heap2 1000 (fun _ => Reply 12 (Raise (network_error "Read timed out"))) 0 [].

(** Record 0 holds a text where a [datetime] belongs. *)
Definition heap_ill_typed : heap :=
  dict_setitem 0%nat "last_checked" (VStr "2025-09-03 19:00") heap2.

Definition sys_ill_typed : sys :=
  Sys registry2 false (InScan 1000 [0%nat; 1%nat]) Idle
    (World heap_ill_typed 1000 silent 0 []) [].

(** Two monitors are added, a scan checks both, the first is removed
    and the worker goes on. *)
Definition busy_day : list action :=
  [Add 0%nat; Add 1%nat; Worker; Worker; Worker; Remove "834-1"; List; Worker].

Definition venue_json : json :=
  JObj [("id", JObj [("resy", JNum 834)]); ("name", JStr "Casa Paco")].

(** The API is busy, then slow, then answers. *)
Definition net_third_time : net :=
  Net (fun n =>
         match n with
         | 0%nat => Response 503 "Service Unavailable"
                      (Raise (mk_exn ValueError "Expecting value"))
         | 1%nat => Timeout "Read timed out"
         | _ => Response 200 "{}" (Normal venue_json)
         end) 0 [].

End Cases.

(** * Properties *)

(** ** The heap *)

Section HeapFacts.

Implicit Types (h : heap) (l : loc) (k : string) (v : value).

Lemma dict_at_setitem_eq h l k v :
  dict_at (dict_setitem l k v h) l = <[k := v]> (dict_at h l).
Proof. unfold dict_at, dict_setitem; simpl. by rewrite lookup_insert_eq. Qed.

Lemma dict_at_setitem_ne h l l' k v :
  l ≠ l' → dict_at (dict_setitem l k v h) l' = dict_at h l'.
Proof. intros Hne. unfold dict_at, dict_setitem; simpl. by rewrite lookup_insert_ne. Qed.

Lemma lists_setitem h l k v : lists (dict_setitem l k v h) = lists h.
Proof. reflexivity. Qed.

Lemma dict_setitem_twice h l k v :
  dict_setitem l k v (dict_setitem l k v h) = dict_setitem l k v h.
Proof.
  unfold dict_setitem at 1 3. rewrite dict_at_setitem_eq. simpl.
  by rewrite !insert_insert_eq.
Qed.

Lemma alloc_dict_fresh h d : dicts h !! (alloc_dict d h).1 = None.
Proof. simpl. apply not_elem_of_dom, is_fresh. Qed.

Lemma alloc_dict_keeps h d l :
  is_Some (dicts h !! l) → dicts (alloc_dict d h).2 !! l = dicts h !! l.
Proof.
  intros [o Ho]. simpl. rewrite lookup_insert_ne; [done |].
  intros Heq. pose proof (alloc_dict_fresh h d) as Hf. simpl in Hf.
  rewrite Heq in Hf. congruence.
Qed.

Lemma alloc_list_fresh h xs : lists h !! (alloc_list xs h).1 = None.
Proof. simpl. apply not_elem_of_dom, is_fresh. Qed.

End HeapFacts.

(** ** The registry *)

Section Registry.

Import Engine.

Implicit Types (m : list (string * loc)) (s : sys) (k id : string).

Lemma assoc_get_pop k id m :
  assoc_get k (assoc_pop id m)
  = if String.eqb k id then None else assoc_get k m.
Proof.
  induction m as [| [k' l'] m IH]; simpl.
  - by destruct (String.eqb k id).
  - destruct (String.eqb k' id) eqn:Hid.
    + rewrite IH. destruct (String.eqb k id) eqn:Hk; [done |].
      apply String.eqb_eq in Hid as ->.
      rewrite String.eqb_sym in Hk. by rewrite Hk.
    + simpl. destruct (String.eqb k' k) eqn:Hk'; [| exact IH].
      apply String.eqb_eq in Hk' as ->. by rewrite Hid.
Qed.

Lemma assoc_pop_absent id m : assoc_get id m = None → assoc_pop id m = m.
Proof.
  induction m as [| [k' l'] m IH]; simpl; [done |].
  destruct (String.eqb k' id); [done |]. intros H. by rewrite IH.
Qed.

Lemma assoc_pop_twice id m : assoc_pop id (assoc_pop id m) = assoc_pop id m.
Proof.
  apply assoc_pop_absent. rewrite assoc_get_pop. by rewrite String.eqb_refl.
Qed.

Lemma assoc_get_values k l m : assoc_get k m = Some l → l ∈ values m.
Proof.
  induction m as [| [k' l'] m IH]; simpl; [done |].
  destruct (String.eqb k' k).
  - intros [= ->]. apply list_elem_of_here.
  - intros H. apply list_elem_of_further. by apply IH.
Qed.

(** C8.  [remove(id)] deletes the entry under [id] and nothing else,
    and is a no-op when [id] is absent; [set_active(id, flag)] assigns
    the [active] field of the record under [id] and nothing else, and is
    a no-op when [id] is absent; neither can raise, and doing either
    twice leaves the same state as doing it once. *)
Theorem remove_and_set_active_idempotent id (flag : bool) s :
  (∀ k, assoc_get k (s_monitors (remove id s))
        = if String.eqb k id then None else assoc_get k (s_monitors s))
  ∧ s_world (remove id s) = s_world s
  ∧ match assoc_get id (s_monitors s) with
    | None => remove id s = s ∧ set_active id flag s = s
    | Some l =>
        s_monitors (set_active id flag s) = s_monitors s
        ∧ w_heap (s_world (set_active id flag s))
          = dict_setitem l "active" (VBool flag) (w_heap (s_world s))
        ∧ dict_at (w_heap (s_world (set_active id flag s))) l !! "active"
          = Some (VBool flag)
    end
  ∧ remove id (remove id s) = remove id s
  ∧ set_active id flag (set_active id flag s) = set_active id flag s.
Proof.
  split; [intros k; apply assoc_get_pop |].
  split; [done |].
  split.
  - destruct (assoc_get id (s_monitors s)) as [l |] eqn:Hget.
    + unfold set_active. rewrite Hget. simpl.
      split; [done |]. split; [done |].
      rewrite dict_at_setitem_eq. apply lookup_insert_eq.
    + split.
      * unfold remove, with_monitors. rewrite assoc_pop_absent by done.
        by destruct s.
      * unfold set_active. by rewrite Hget.
  - split.
    + unfold remove, with_monitors; simpl. by rewrite assoc_pop_twice.
    + unfold set_active at 1.
      destruct (assoc_get id (s_monitors s)) as [l |] eqn:Hget.
      * assert (s_monitors (set_active id flag s) = s_monitors s) as ->.
        { unfold set_active. by rewrite Hget. }
        rewrite Hget. unfold set_active. rewrite Hget. simpl.
        unfold with_world, with_heap; simpl. by rewrite dict_setitem_twice.
      * assert (set_active id flag s = s) as ->.
        { unfold set_active. by rewrite Hget. }
        by rewrite Hget.
Qed.

End Registry.

(** ** The poll loop *)

Section PollLoop.

Import Engine Reading.

Variable checker : loc → M unit.

Implicit Types (w : world) (item : loc) (e : exn).

Ltac run_monad :=
  unfold loop_item, bind, ret, raise, lift, item_get, item_getitem, is_truthy,
    timestamp, try_except; simpl.

Lemma on_failure_spec item e w : on_failure item e w = (Normal tt, failed item e w).
Proof. reflexivity. Qed.

Lemma loop_item_inactive now_ item w :
  is_active (w_heap w) item = false →
  loop_item checker now_ item w = (Normal false, w).
Proof. unfold is_active. intros H. run_monad. by rewrite H. Qed.

Lemma loop_item_active now_ item w ts :
  is_active (w_heap w) item = true →
  last_ts (w_heap w) item = Some ts →
  loop_item checker now_ item w
  = if Z.leb POLL_INTERVAL_SEC (now_ - ts)
    then (Normal true, (try_except (checker item) (on_failure item) w).2)
    else (Normal false, w).
Proof.
  unfold is_active, last_ts. intros Ha Hts. run_monad. rewrite Ha. simpl.
  destruct (truthy (w_heap w) (dict_get (dict_at (w_heap w) item) "last_checked" VNone))
    eqn:Hset.
  - unfold dict_get in Hts, Hset.
    destruct (dict_at (w_heap w) item !! "last_checked") as [v |] eqn:Hv;
      simpl in *; [| done].
    destruct v; try done. injection Hts as ->. unfold ret.
    rewrite Z.geb_leb.
    destruct (Z.leb POLL_INTERVAL_SEC (now_ - ts)); [| done].
    by destruct (checker item w) as [[[] |e] w'].
  - injection Hts as <-. rewrite Z.geb_leb.
    destruct (Z.leb POLL_INTERVAL_SEC (now_ - 0)); [| done].
    by destruct (checker item w) as [[[] |e] w'].
Qed.

Lemma loop_item_crash now_ item w :
  is_active (w_heap w) item = true →
  last_ts (w_heap w) item = None →
  ∃ e, loop_item checker now_ item w = (Raise e, w).
Proof.
  unfold is_active, last_ts. intros Ha Hts. run_monad. rewrite Ha. simpl.
  destruct (truthy (w_heap w) (dict_get (dict_at (w_heap w) item) "last_checked" VNone))
    eqn:Hset; [| done].
  unfold dict_get in Hts, Hset.
  destruct (dict_at (w_heap w) item !! "last_checked") as [v |] eqn:Hv;
    simpl in *; [| done].
  destruct v; try done; by eexists.
Qed.

Lemma last_ts_datetime h item T :
  dict_at h item !! "last_checked" = Some (VDatetime T) → last_ts h item = Some T.
Proof. unfold last_ts, dict_get. by intros ->. Qed.

Lemma last_ts_unchecked h item : unchecked h item = true → last_ts h item = Some 0.
Proof.
  unfold unchecked, last_ts. intros H. apply negb_true_iff in H. by rewrite H.
Qed.

(** C1, as the code has it.  An inactive record is skipped whatever its
    [last_checked]; an active record is passed to the checker exactly
    when [now - last_ts >= 120], where [last_ts] is the timestamp of
    [last_checked], or 0 when [last_checked] is unset: an unset record
    is due once the clock reads 120 seconds or more, and a record
    checked at [T] is not due at [T + 60] and is due at [T + 121]. *)
Theorem checked_iff_active_and_due now_ item w :
  (is_active (w_heap w) item = false →
     loop_item checker now_ item w = (Normal false, w))
  ∧ (∀ ts, is_active (w_heap w) item = true →
       last_ts (w_heap w) item = Some ts →
       ((loop_item checker now_ item w).1 = Normal true
        ↔ (POLL_INTERVAL_SEC ≤ now_ - ts)%Z)
       ∧ ((loop_item checker now_ item w).1 = Normal true →
          (loop_item checker now_ item w).2
          = (try_except (checker item) (on_failure item) w).2)
       ∧ ((loop_item checker now_ item w).1 ≠ Normal true →
          loop_item checker now_ item w = (Normal false, w)))
  ∧ (unchecked (w_heap w) item = true → last_ts (w_heap w) item = Some 0)
  ∧ (∀ T, dict_at (w_heap w) item !! "last_checked" = Some (VDatetime T) →
       last_ts (w_heap w) item = Some T
       ∧ (is_active (w_heap w) item = true → now_ = T + 60 →
          loop_item checker now_ item w = (Normal false, w))
       ∧ (is_active (w_heap w) item = true → now_ = T + 121 →
          (loop_item checker now_ item w).1 = Normal true)).
Proof.
  split; [apply loop_item_inactive |].
  split.
  { intros ts Ha Hts. rewrite (loop_item_active _ _ _ _ Ha Hts).
    destruct (Z.leb POLL_INTERVAL_SEC (now_ - ts)) eqn:Hdue; simpl.
    - apply Z.leb_le in Hdue. split; [done |]. split; [done |]. by intros [].
    - apply Z.leb_gt in Hdue. split; [| done]. split; [done | lia]. }
  split; [apply last_ts_unchecked |].
  intros T HT. pose proof (last_ts_datetime _ _ _ HT) as Hts.
  split; [done |]. split; intros Ha ->; rewrite (loop_item_active _ _ _ _ Ha Hts).
  - replace (T + 60 - T) with 60 by lia. done.
  - replace (T + 121 - T) with 121 by lia. done.
Qed.

Lemma for_items_app now_ (xs ys : list loc) w :
  for_items checker now_ (xs ++ ys) w
  = match for_items checker now_ xs w with
    | (Normal cs, w1) =>
        match for_items checker now_ ys w1 with
        | (Normal ds, w2) => (Normal (cs ++ ds), w2)
        | (Raise e, w2) => (Raise e, w2)
        end
    | (Raise e, w1) => (Raise e, w1)
    end.
Proof.
  revert w. induction xs as [| x xs IH]; intros w; simpl.
  - unfold ret. by destruct (for_items checker now_ ys w) as [[ds | e] w2].
  - unfold bind, ret.
    destruct (loop_item checker now_ x w) as [[c | e] w1]; [| done].
    rewrite IH.
    destruct (for_items checker now_ xs w1) as [[cs | e] w2]; [| done].
    destruct (for_items checker now_ ys w2) as [[ds | e] w3]; [| done].
    by destruct c.
Qed.

(** C2.  When the checker raises on a due active record, the loop
    assigns [status], [status_msg], [error] and [last_checked] of that
    record on top of whatever the checker left, touches no other object,
    and goes on with the rest of the snapshot exactly as it would have
    from that state: the scan neither stops nor skips a sibling, whether
    it comes before or after the failing record, and the worker stays in
    its loop. *)
Theorem failing_check_is_contained now_ item (before rest : list loc) w e w1 ts :
  is_active (w_heap w) item = true →
  last_ts (w_heap w) item = Some ts →
  (POLL_INTERVAL_SEC ≤ now_ - ts)%Z →
  checker item w = (Raise e, w1) →
  loop_item checker now_ item w = (Normal true, failed item e w1)
  ∧ dict_at (w_heap (failed item e w1)) item
    = <["last_checked" := VDatetime (w_clock w1)]>
        (<["error" := VStr (exn_str e)]>
           (<["status_msg" := VStr "Background error"]>
              (<["status" := VStr "error"]> (dict_at (w_heap w1) item))))
  ∧ (∀ other, other ≠ item →
       dict_at (w_heap (failed item e w1)) other = dict_at (w_heap w1) other)
  ∧ lists (w_heap (failed item e w1)) = lists (w_heap w1)
  ∧ (∀ w0 cs0, for_items checker now_ before w0 = (Normal cs0, w) →
       for_items checker now_ (before ++ item :: rest) w0
       = match for_items checker now_ rest (failed item e w1) with
         | (Normal cs, w3) => (Normal (cs0 ++ item :: cs), w3)
         | (Raise e', w3) => (Raise e', w3)
         end)
  ∧ (∀ s, s_worker s = InScan now_ (item :: rest) → s_world s = w →
       s_worker (worker_step checker s) = InScan now_ rest
       ∧ s_world (worker_step checker s) = failed item e w1
       ∧ s_trace (worker_step checker s) = s_trace s ++ [Checked item]
       ∧ s_monitors (worker_step checker s) = s_monitors s).
Proof.
  intros Ha Hts Hdue Hraise.
  assert (loop_item checker now_ item w = (Normal true, failed item e w1)) as Hitem.
  { rewrite (loop_item_active _ _ _ _ Ha Hts).
    apply Z.leb_le in Hdue. rewrite Hdue. unfold try_except. by rewrite Hraise. }
  split; [done |].
  split.
  { unfold failed; simpl. by rewrite !dict_at_setitem_eq. }
  split.
  { intros other Hne. unfold failed; simpl. by rewrite !dict_at_setitem_ne. }
  split; [done |].
  split.
  - intros w0 cs0 Hbefore. rewrite for_items_app, Hbefore. simpl.
    unfold bind at 1. rewrite Hitem. unfold bind at 1.
    by destruct (for_items checker now_ rest (failed item e w1)) as [[cs | e'] w3].
  - intros s Hpc Hw. unfold worker_step. rewrite Hpc, Hw, Hitem. done.
Qed.

End PollLoop.

Section PollLoopInstances.

Import Engine Reading Samples.

Lemma checked_iff_active_and_due_witness :
  (is_active heap_checked 0%nat = false
   ∧ loop_item flaky 5000 0%nat (world_checked 5000)
     = (Normal false, world_checked 5000))
  ∧ (is_active heap2 1%nat = true ∧ unchecked heap2 1%nat = true
     ∧ ((loop_item flaky 60 1%nat (world2 60)).1 = Normal true ↔ (120 ≤ 60 - 0)%Z)
     ∧ ((loop_item flaky 120 1%nat (world2 120)).1 = Normal true ↔ (120 ≤ 120 - 0)%Z))
  ∧ (is_active heap_checked 1%nat = true
     ∧ dict_at heap_checked 1%nat !! "last_checked" = Some (VDatetime 1000)
     ∧ loop_item flaky 1060 1%nat (world_checked 1060)
       = (Normal false, world_checked 1060)
     ∧ (loop_item flaky 1121 1%nat (world_checked 1121)).1 = Normal true).
Proof.
  assert (is_active heap_checked 0%nat = false) as Hpaused by (vm_compute; reflexivity).
  assert (is_active heap2 1%nat = true) as Hact by (vm_compute; reflexivity).
  assert (unchecked heap2 1%nat = true) as Hunset by (vm_compute; reflexivity).
  assert (is_active heap_checked 1%nat = true) as Hact' by (vm_compute; reflexivity).
  assert (dict_at heap_checked 1%nat !! "last_checked" = Some (VDatetime 1000))
    as Hlast by (vm_compute; reflexivity).
  split; [split; [exact Hpaused |] |].
  { exact (proj1 (checked_iff_active_and_due flaky 5000 0%nat (world_checked 5000))
             Hpaused). }
  split.
  { split; [exact Hact |]. split; [exact Hunset |]. split.
    - destruct (checked_iff_active_and_due flaky 60 1%nat (world2 60))
        as (_ & Hdue & Hzero & _).
      exact (proj1 (Hdue 0 Hact (Hzero Hunset))).
    - destruct (checked_iff_active_and_due flaky 120 1%nat (world2 120))
        as (_ & Hdue & Hzero & _).
      exact (proj1 (Hdue 0 Hact (Hzero Hunset))). }
  split; [exact Hact' |]. split; [exact Hlast |]. split.
  - destruct (checked_iff_active_and_due flaky 1060 1%nat (world_checked 1060))
      as (_ & _ & _ & HT).
    exact (proj1 (proj2 (HT 1000 Hlast)) Hact' eq_refl).
  - destruct (checked_iff_active_and_due flaky 1121 1%nat (world_checked 1121))
      as (_ & _ & _ & HT).
    exact (proj2 (proj2 (HT 1000 Hlast)) Hact' eq_refl).
Defined.

(** C1 as worded fails: an active record whose [last_checked] is unset
    is not passed to the checker while the clock reads less than 120. *)
Lemma unset_record_not_always_due :
  ¬ (∀ (checker : loc → M unit) now_ item w,
       is_active (w_heap w) item = true →
       unchecked (w_heap w) item = true →
       (loop_item checker now_ item w).1 = Normal true).
Proof.
  intros H.
  assert (is_active heap2 1%nat = true) as Hact by (vm_compute; reflexivity).
  assert (unchecked heap2 1%nat = true) as Hunset by (vm_compute; reflexivity).
  specialize (H flaky 60 1%nat (world2 60) Hact Hunset).
  vm_compute in H. discriminate H.
Qed.

Lemma failing_check_is_contained_witness :
  is_active heap2 0%nat = true
  ∧ last_ts heap2 0%nat = Some 0
  ∧ (POLL_INTERVAL_SEC ≤ 1000 - 0)%Z
  ∧ flaky 0%nat (world2 1000) = (Raise boom, advance 5 (world2 1000))
  ∧ loop_item flaky 1000 0%nat (world2 1000)
    = (Normal true, failed 0%nat boom (advance 5 (world2 1000)))
  ∧ (for_items flaky 1000 [0%nat; 1%nat] (world2 1000)).1 = Normal [0%nat; 1%nat].
Proof.
  assert (is_active heap2 0%nat = true) as Hact by (vm_compute; reflexivity).
  assert (last_ts heap2 0%nat = Some 0) as Hts by (vm_compute; reflexivity).
  assert (POLL_INTERVAL_SEC ≤ 1000 - 0)%Z as Hdue by (unfold POLL_INTERVAL_SEC; lia).
  assert (flaky 0%nat (world2 1000) = (Raise boom, advance 5 (world2 1000)))
    as Hraise by reflexivity.
  destruct (failing_check_is_contained flaky 1000 0%nat [] [1%nat] (world2 1000)
              boom (advance 5 (world2 1000)) 0 Hact Hts Hdue Hraise)
    as (Hitem & _ & _ & _ & Hscan & _).
  repeat (split; [assumption |]).
  pose proof (Hscan (world2 1000) [] eq_refl) as H.
  change ([] ++ 0%nat :: [1%nat]) with [0%nat; 1%nat] in H.
  rewrite H. vm_compute. reflexivity.
Defined.

End PollLoopInstances.

(** ** Shutdown *)

Section Shutdown.

Import Engine Reading.

Variable checker : loc → M unit.

Implicit Types (s : sys) (a : action).

Ltac no_event :=
  simpl; split; [done |]; split; [set_solver |];
  exists []; rewrite app_nil_r; split; [done |];
  intros ? Hl; by apply elem_of_nil in Hl.

Lemma step_after_stop a s s1 :
  s_stop s = true →
  step checker a s = Some s1 →
  s_stop s1 = true
  ∧ pending (s_worker s1) ⊆ pending (s_worker s)
  ∧ ∃ evs, s_trace s1 = s_trace s ++ evs
           ∧ ∀ l, Checked l ∈ evs → l ∈ pending (s_worker s).
Proof.
  intros Hstop Hstep. destruct a; simpl in Hstep.
  - (* the worker moves *)
    injection Hstep as <-. unfold worker_step.
    destruct (s_worker s) as [| now_ [| item rest] | |] eqn:Hpc.
    + rewrite Hstop. no_event.
    + no_event.
    + destruct (loop_item checker now_ item (s_world s)) as [[[] | e] w].
      * simpl. split; [done |]. split; [set_solver |].
        exists [Checked item]. split; [done |].
        intros l Hl. apply list_elem_of_singleton in Hl. injection Hl as ->.
        set_solver.
      * no_event.
      * no_event.
    + rewrite Hstop. no_event.
    + rewrite Hpc. no_event.
  - (* add *)
    assert (s_stop s1 = s_stop s ∧ s_worker s1 = s_worker s ∧ s_trace s1 = s_trace s)
      as (-> & -> & ->).
    { unfold add in Hstep.
      destruct (dict_at (w_heap (s_world s)) item !! "id") as [[] |];
        by injection Hstep as <-. }
    no_event.
  - injection Hstep as <-. no_event.
  - injection Hstep as <-. unfold list_.
    destruct (copy_all (values (s_monitors s)) (w_heap (s_world s))) as [cs h].
    no_event.
  - injection Hstep as <-. unfold set_active.
    destruct (assoc_get item_id (s_monitors s)); no_event.
  - destruct (s_caller s); try done; injection Hstep as <-; no_event.
  - unfold stop_return in Hstep. destruct (s_caller s); try done.
    destruct (_ || _); [| done]. injection Hstep as <-. simpl.
    split; [done |]. split; [done |].
    exists [StopReturned]. split; [done |].
    intros l Hl. apply list_elem_of_singleton in Hl. discriminate Hl.
Qed.

Lemma run_after_stop sched s s' :
  s_stop s = true →
  run checker sched s = Some s' →
  s_stop s' = true
  ∧ ∃ evs, s_trace s' = s_trace s ++ evs
           ∧ ∀ l, Checked l ∈ evs → l ∈ pending (s_worker s).
Proof.
  revert s. induction sched as [| a sched IH]; intros s Hstop Hrun; simpl in Hrun.
  - injection Hrun as <-. split; [done |]. exists []. rewrite app_nil_r.
    split; [done |]. intros l Hl. by apply elem_of_nil in Hl.
  - destruct (step checker a s) as [s1 |] eqn:Hstep; [| done].
    destruct (step_after_stop _ _ _ Hstop Hstep) as (Hstop1 & Hsub & evs1 & Htr1 & Hin1).
    destruct (IH _ Hstop1 Hrun) as (Hstop' & evs & Htr & Hin).
    split; [done |]. exists (evs1 ++ evs). rewrite Htr, Htr1, app_assoc.
    split; [done |]. intros l Hl. apply elem_of_app in Hl as [Hl | Hl]; [by apply Hin1 |].
    apply Hsub. by apply Hin.
Qed.

Lemma worker_step_monitors s :
  s_monitors (worker_step checker s) = s_monitors s.
Proof.
  unfold worker_step.
  destruct (s_worker s) as [| now_ [| item rest] | |]; try done.
  - by destruct (s_stop s).
  - by destruct (loop_item checker now_ item (s_world s)) as [[c | e] w].
Qed.

Lemma worker_exited_stays n s :
  s_worker s = Exited → Nat.iter n (worker_step checker) s = s.
Proof.
  intros Hpc. induction n as [| n IH]; simpl; [done |].
  rewrite IH. unfold worker_step. by rewrite Hpc.
Qed.

Lemma worker_exits_after_stop s :
  s_stop s = true →
  s_worker (Nat.iter (length (pending (s_worker s)) + 3) (worker_step checker) s)
  = Exited.
Proof.
  intros Hstop.
  assert (∀ s, s_worker s = Exited → worker_step checker s = s) as Hexit.
  { intros s0 H0. unfold worker_step. by rewrite H0. }
  assert (∀ s, s_stop s = true → s_stop (worker_step checker s) = true) as Hkeep.
  { intros s0 H0. unfold worker_step.
    destruct (s_worker s0) as [| now_ [| item rest] | |]; simpl; try done.
    - by rewrite H0.
    - by destruct (loop_item checker now_ item (s_world s0)) as [[c | e] w]. }
  assert (∀ s, s_stop s = true → s_worker s = AtWhile →
            s_worker (worker_step checker s) = Exited) as Hwhile.
  { intros s0 H0 Hpc. unfold worker_step. by rewrite Hpc, H0. }
  assert (∀ s, s_stop s = true → s_worker s = Sleeping →
            s_worker (worker_step checker (worker_step checker s)) = Exited) as Hsleep.
  { intros s0 H0 Hpc. apply Hwhile; [by apply Hkeep |].
    unfold worker_step. by rewrite Hpc. }
  destruct (s_worker s) as [| now_ items | |] eqn:Hpc; simpl pending.
  - simpl. pose proof (Hwhile s Hstop Hpc) as H1.
    by rewrite !(Hexit _ H1).
  - revert s Hstop Hpc. induction items as [| item rest IH]; intros s Hstop Hpc.
    + simpl. apply (Hsleep (worker_step checker s)); [by apply Hkeep |].
      unfold worker_step. by rewrite Hpc.
    + simpl length. rewrite Nat.add_succ_l, Nat.iter_succ_r.
      destruct (s_worker (worker_step checker s)) as [| now' items' | |] eqn:Hpc1.
      * exfalso. revert Hpc1. unfold worker_step. rewrite Hpc.
        by destruct (loop_item checker now_ item (s_world s)) as [[c | e] w].
      * assert (now' = now_ ∧ items' = rest) as [-> ->].
        { revert Hpc1. unfold worker_step. rewrite Hpc.
          destruct (loop_item checker now_ item (s_world s)) as [[c | e] w]; simpl;
            [by intros [= -> ->] | done]. }
        apply IH; [by apply Hkeep | done].
      * exfalso. revert Hpc1. unfold worker_step. rewrite Hpc.
        by destruct (loop_item checker now_ item (s_world s)) as [[c | e] w].
      * by rewrite worker_exited_stays.
  - simpl. pose proof (Hsleep s Hstop Hpc) as H1. by rewrite (Hexit _ H1).
  - by rewrite worker_exited_stays.
Qed.

(** C5, as the code has it.  [stop()] sets the signal and waits for
    the worker until it has finished or three seconds have passed.
    Once set the signal stays set; the worker starts no new scan: the
    checks that still occur, also after [stop()] has returned, are of
    records left in the scan in flight, and the worker is out of its
    loop after at most that many moves plus three, the tick sleep
    taking no time.  Once the worker has finished no check follows. *)
Theorem stop_ends_polling sched s s' :
  s_stop s = true →
  run checker sched s = Some s' →
  (s_stop s' = true
   ∧ ∃ evs, s_trace s' = s_trace s ++ evs
            ∧ ∀ l, Checked l ∈ evs → l ∈ pending (s_worker s))
  ∧ s_worker (Nat.iter (length (pending (s_worker s)) + 3) (worker_step checker) s)
    = Exited
  ∧ (s_worker s = Sleeping →
     w_clock (s_world (worker_step checker s)) = w_clock (s_world s))
  ∧ (∀ s0, s_stop (stop_call s0) = true
           ∧ s_caller (stop_call s0) = Joining (w_clock (s_world s0) + 3))
  ∧ (∀ s1, stop_return s = Some s1 →
       ∃ deadline, s_caller s = Joining deadline
         ∧ (s_worker s = Exited ∨ (deadline ≤ w_clock (s_world s))%Z)).
Proof.
  intros Hstop Hrun.
  split; [exact (run_after_stop _ _ _ Hstop Hrun) |].
  split; [by apply worker_exits_after_stop |].
  split.
  { intros Hpc. unfold worker_step. rewrite Hpc, Hstop. simpl. lia. }
  split; [done |].
  intros s1 Hret. unfold stop_return in Hret.
  destruct (s_caller s) as [| deadline |]; try done. exists deadline.
  split; [done |].
  destruct (s_worker s); simpl in Hret; try (by left);
    (destruct (Z.leb deadline (w_clock (s_world s))) eqn:Hle; [| done];
     right; by apply Z.leb_le).
Qed.

End Shutdown.

Section ShutdownInstances.

Import Engine Reading Samples.

Lemma stop_ends_polling_witness :
  s_stop after_stop = true
  ∧ run flaky [Worker; StopReturn; Worker] after_stop
    = Some (default after_stop (run flaky [Worker; StopReturn; Worker] after_stop))
  ∧ s_stop (default after_stop (run flaky [Worker; StopReturn; Worker] after_stop))
    = true
  ∧ s_worker (Nat.iter 5 (worker_step flaky) after_stop) = Exited.
Proof.
  assert (s_stop after_stop = true) as Hstop by reflexivity.
  assert (run flaky [Worker; StopReturn; Worker] after_stop
          = Some (default after_stop (run flaky [Worker; StopReturn; Worker] after_stop)))
    as Hrun.
  { destruct (run flaky [Worker; StopReturn; Worker] after_stop) eqn:E;
      [reflexivity | vm_compute in E; discriminate E]. }
  destruct (stop_ends_polling flaky _ _ _ Hstop Hrun) as ((Hs & _) & Hexit & _).
  split; [exact Hstop |]. split; [exact Hrun |]. split; [exact Hs |]. exact Hexit.
Defined.

(** C5 as worded fails: [stop()] gives up waiting after three seconds
    while the worker is inside a check that takes five, and the worker
    then checks the next record of its scan. *)
Lemma check_after_stop_returned :
  ¬ (∀ (checker : loc → M unit) sched w s',
       run checker sched (init w) = Some s' →
       ∀ pre post l, s_trace s' = pre ++ StopReturned :: post → Checked l ∉ post).
Proof.
  intros H.
  destruct (run flaky slow_shutdown (init (world2 1000))) as [s' |] eqn:Hrun;
    [| vm_compute in Hrun; discriminate Hrun].
  assert (s_trace s' = [Checked 0%nat] ++ StopReturned :: [Checked 1%nat]) as Htrace.
  { assert (s_trace <$> run flaky slow_shutdown (init (world2 1000))
            = Some [Checked 0%nat; StopReturned; Checked 1%nat]) as E
      by (vm_compute; reflexivity).
    rewrite Hrun in E. by injection E. }
  apply (H flaky slow_shutdown (world2 1000) s' Hrun _ _ 1%nat Htrace).
  apply list_elem_of_here.
Qed.

End ShutdownInstances.

(** ** Snapshots *)

Section Snapshots.

Import Engine Reading.

Implicit Types (h : heap) (s : sys) (vs cs : list loc).

Lemma copy_all_spec vs : ∀ h cs h',
  copy_all vs h = (cs, h') →
  (∀ v, v ∈ vs → is_Some (dicts h !! v)) →
  lists h' = lists h
  ∧ (∀ l, is_Some (dicts h !! l) → dicts h' !! l = dicts h !! l)
  ∧ length cs = length vs
  ∧ (∀ (i : nat) c v, cs !! i = Some c → vs !! i = Some v →
       dicts h' !! c = Some (dict_at h v))
  ∧ (∀ c, c ∈ cs → dicts h !! c = None)
  ∧ NoDup cs.
Proof.
  induction vs as [| v vs IH]; intros h cs h' Hcopy Halloc; simpl in Hcopy.
  - injection Hcopy as <- <-.
    repeat split; try done; [intros c Hc; by apply elem_of_nil in Hc | constructor].
  - destruct (copy_all vs _) as [cs' h2] eqn:Hrest.
    injection Hcopy as <- <-.
    set (c := fresh (dom (dicts h))) in *.
    set (h1 := Heap (<[c := dict_at h v]> (dicts h)) (lists h)) in *.
    assert (dicts h !! c = None) as Hc by apply (alloc_dict_fresh h (dict_at h v)).
    assert (∀ l, is_Some (dicts h !! l) → dicts h1 !! l = dicts h !! l) as Hkeep.
    { intros l Hl. apply (alloc_dict_keeps h (dict_at h v) l Hl). }
    destruct (IH h1 cs' h2 Hrest) as (Hlists & Hsame & Hlen & Hcopies & Hnew & Hnodup).
    { intros v' Hv'. rewrite Hkeep; apply Halloc; by apply list_elem_of_further. }
    assert (dicts h1 !! c = Some (dict_at h v)) as Hc1 by apply lookup_insert_eq.
    split; [done |].
    split.
    { intros l Hl. rewrite Hsame; [by apply Hkeep |]. by rewrite Hkeep. }
    split; [simpl; by rewrite Hlen |].
    split.
    { intros [| i] c' v' Hi Hv; simpl in Hi, Hv.
      - injection Hi as <-. injection Hv as <-. rewrite Hsame; [done |]. by rewrite Hc1.
      - rewrite (Hcopies i c' v' Hi Hv). f_equal. unfold dict_at.
        rewrite Hkeep; [done |]. apply Halloc, list_elem_of_further.
        by eapply list_elem_of_lookup_2. }
    split.
    { intros c' Hc'. apply elem_of_cons in Hc' as [-> | Hc']; [done |].
      specialize (Hnew c' Hc'). destruct (decide (c' = c)) as [-> | Hne]; [congruence |].
      subst h1. simpl in Hnew. by rewrite lookup_insert_ne in Hnew. }
    constructor; [| done]. intros Hin. specialize (Hnew c Hin). congruence.
Qed.

Lemma allocated_keyed s : keyed s → allocated s.
Proof.
  intros Hkeyed l Hl. unfold values in Hl. apply list_elem_of_fmap in Hl as [[k l'] [-> Hin]].
  specialize (Hkeyed k l' Hin). unfold dict_at in Hkeyed. simpl.
  destruct (dicts (w_heap (s_world s)) !! l'); [done |].
  simpl in Hkeyed. by rewrite lookup_empty in Hkeyed.
Qed.

(** C3, as the code has it.  [list()] returns one new dict per record
    of the registry, in registry order, each holding the fields the
    record has in the state the call runs in; it changes no existing
    object.  Assigning a field of a returned dict changes no record of
    the registry.  The copies are shallow: a returned dict and its
    record refer to the same [found_slots] list, and appending to that
    list through the copy appends to the record's. *)
Theorem list_returns_shallow_copies s cs s' :
  allocated s →
  list_ s = (cs, s') →
  let h := w_heap (s_world s) in
  let h' := w_heap (s_world s') in
  s_monitors s' = s_monitors s
  ∧ length cs = length (s_monitors s)
  ∧ (∀ (i : nat) c v, cs !! i = Some c → values (s_monitors s) !! i = Some v →
       dict_at h' c = dict_at h v)
  ∧ NoDup cs
  ∧ (∀ c, c ∈ cs → dicts h !! c = None ∧ c ∉ values (s_monitors s))
  ∧ lists h' = lists h
  ∧ (∀ l, is_Some (dicts h !! l) → dict_at h' l = dict_at h l)
  ∧ (∀ c k x l, c ∈ cs → is_Some (dicts h !! l) →
       dict_at (dict_setitem c k x h') l = dict_at h l
       ∧ lists (dict_setitem c k x h') = lists h)
  ∧ (∀ (i : nat) c v lst x, cs !! i = Some c → values (s_monitors s) !! i = Some v →
       dict_at h' c !! "found_slots" = Some (VList lst) →
       found_slots (list_append lst x h') v = found_slots h v ++ [x]).
Proof.
  intros Halloc Hlist h h'. unfold list_ in Hlist.
  destruct (copy_all (values (s_monitors s)) (w_heap (s_world s))) as [cs0 h0] eqn:Hcopy.
  injection Hlist as <- <-. subst h'. simpl.
  destruct (copy_all_spec _ _ _ _ Hcopy Halloc)
    as (Hlists & Hsame & Hlen & Hcopies & Hnew & Hnodup).
  unfold allocated in Halloc. fold h in Halloc, Hlists, Hsame, Hcopies, Hnew.
  assert (∀ l, is_Some (dicts h !! l) → dict_at h0 l = dict_at h l) as Hsame'.
  { intros l Hl. unfold dict_at. by rewrite Hsame. }
  assert (∀ (i : nat) c v, cs0 !! i = Some c → values (s_monitors s) !! i = Some v →
            dict_at h0 c = dict_at h v) as Hcopies'.
  { intros i c v Hc Hv. unfold dict_at at 1. by rewrite (Hcopies i c v Hc Hv). }
  split; [done |].
  split; [rewrite Hlen; unfold values; by rewrite length_map |].
  split; [done |].
  split; [done |].
  split.
  { intros c Hc. split; [by apply Hnew |]. intros Hin.
    destruct (Halloc c Hin) as [d Hd]. rewrite (Hnew c Hc) in Hd. discriminate Hd. }
  split; [done |].
  split; [done |].
  split.
  { intros c k x l Hc Hl. split; [| done].
    rewrite dict_at_setitem_ne; [by apply Hsame' |].
    intros ->. destruct Hl as [d Hd]. rewrite (Hnew l Hc) in Hd. discriminate Hd. }
  intros i c v lst x Hc Hv Hfs.
  rewrite (Hcopies' i c v Hc Hv) in Hfs.
  assert (dict_at (list_append lst x h0) v = dict_at h v) as Hv'.
  { unfold list_append, dict_at; simpl. rewrite Hsame; [done |].
    apply Halloc. by eapply list_elem_of_lookup_2. }
  unfold found_slots. rewrite Hv', Hfs.
  unfold list_append, list_at; simpl. rewrite lookup_insert_eq. simpl.
  by rewrite Hlists.
Qed.

End Snapshots.

Section SnapshotInstances.

Import Engine Reading Samples.

Lemma sys2_allocated clock : allocated (sys2 clock).
Proof.
  intros l Hl. simpl in Hl.
  apply elem_of_cons in Hl as [-> | Hl]; [by vm_compute; eexists |].
  apply list_elem_of_singleton in Hl as ->. by vm_compute; eexists.
Defined.

Lemma list_returns_shallow_copies_witness :
  allocated (sys2 0)
  ∧ list_ (sys2 0) = ((list_ (sys2 0)).1, (list_ (sys2 0)).2)
  ∧ s_monitors (list_ (sys2 0)).2 = s_monitors (sys2 0)
  ∧ NoDup (list_ (sys2 0)).1.
Proof.
  pose proof (sys2_allocated 0) as Halloc.
  assert (list_ (sys2 0) = ((list_ (sys2 0)).1, (list_ (sys2 0)).2)) as Hlist
    by apply surjective_pairing.
  destruct (list_returns_shallow_copies _ _ _ Halloc Hlist)
    as (Hmon & _ & _ & Hnodup & _).
  split; [exact Halloc |]. split; [exact Hlist |]. split; [exact Hmon | exact Hnodup].
Defined.

(** C3 as worded fails: appending to [found_slots] through a returned
    copy appends to the [found_slots] of the registry's record. *)
Lemma snapshot_shares_found_slots :
  ¬ (∀ s cs s' c lst x v,
       list_ s = (cs, s') →
       c ∈ cs →
       dict_at (w_heap (s_world s')) c !! "found_slots" = Some (VList lst) →
       v ∈ values (s_monitors s) →
       found_slots (list_append lst x (w_heap (s_world s'))) v
       = found_slots (w_heap (s_world s')) v).
Proof.
  intros H.
  assert ((list_ (sys2 0)).1 = [2%nat; 3%nat]) as Hcs by (vm_compute; reflexivity).
  specialize (H (sys2 0) [2%nat; 3%nat] (list_ (sys2 0)).2 2%nat 2%nat (VStr "x") 0%nat).
  rewrite <- Hcs in H at 1.
  specialize (H (surjective_pairing _) (list_elem_of_here _ _)).
  assert (dict_at (w_heap (s_world (list_ (sys2 0)).2)) 2%nat !! "found_slots"
          = Some (VList 2%nat)) as Hfs by (vm_compute; reflexivity).
  specialize (H Hfs (list_elem_of_here _ _)).
  vm_compute in H. discriminate H.
Qed.

End SnapshotInstances.

(** ** Removal *)

Section Removal.

Import Engine Reading.

Variable checker : loc → M unit.

Hypothesis checker_keeps_ids : keeps_ids checker.

Implicit Types (h : heap) (s : sys) (m : list (string * loc)).

Lemma setitem_alloc h item k v l :
  is_Some (dicts h !! l) → is_Some (dicts (dict_setitem item k v h) !! l).
Proof.
  intros Hl. unfold dict_setitem; cbn [dicts].
  destruct (decide (item = l)) as [-> | Hne];
    [by rewrite lookup_insert_eq | by rewrite lookup_insert_ne].
Qed.

Lemma setitem_id h item k v l :
  k ≠ "id" → dict_at (dict_setitem item k v h) l !! "id" = dict_at h l !! "id".
Proof.
  intros Hk. destruct (decide (item = l)) as [-> | Hne].
  - rewrite dict_at_setitem_eq. by rewrite lookup_insert_ne.
  - by rewrite dict_at_setitem_ne.
Qed.

Lemma failed_keeps_id item e w l :
  (is_Some (dicts (w_heap w) !! l) → is_Some (dicts (w_heap (failed item e w)) !! l))
  ∧ dict_at (w_heap (failed item e w)) l !! "id" = dict_at (w_heap w) l !! "id".
Proof.
  unfold failed, with_heap; cbn [w_heap]. split.
  - intros Hl. by do 4 apply setitem_alloc.
  - by rewrite !setitem_id.
Qed.

Lemma guarded_keeps_id item w l :
  is_Some (dicts (w_heap w) !! l) →
  is_Some (dicts (w_heap (try_except (checker item) (on_failure item) w).2) !! l)
  ∧ dict_at (w_heap (try_except (checker item) (on_failure item) w).2) l !! "id"
    = dict_at (w_heap w) l !! "id".
Proof.
  intros Hl. unfold try_except.
  destruct (checker_keeps_ids item w l Hl) as [Hal Hid].
  destruct (checker item w) as [[[] | e] w1]; cbn [fst snd] in *; [done |].
  rewrite on_failure_spec; cbn [fst snd].
  destruct (failed_keeps_id item e w1 l) as [Hal' Hid'].
  split; [by apply Hal' |]. by rewrite Hid'.
Qed.

Lemma loop_item_keeps_id now_ item w l :
  is_Some (dicts (w_heap w) !! l) →
  is_Some (dicts (w_heap (loop_item checker now_ item w).2) !! l)
  ∧ dict_at (w_heap (loop_item checker now_ item w).2) l !! "id"
    = dict_at (w_heap w) l !! "id".
Proof.
  intros Hl. destruct (is_active (w_heap w) item) eqn:Ha.
  - destruct (last_ts (w_heap w) item) as [ts |] eqn:Hts.
    + rewrite (loop_item_active checker _ _ _ _ Ha Hts).
      destruct (Z.leb _ _); [| done]. by apply guarded_keeps_id.
    + destruct (loop_item_crash checker now_ _ _ Ha Hts) as [e ->]. done.
  - by rewrite (loop_item_inactive checker _ _ _ Ha).
Qed.

Lemma assoc_pop_sublist id m k l : (k, l) ∈ assoc_pop id m → (k, l) ∈ m.
Proof.
  induction m as [| [k' l'] m IH]; simpl; [done |].
  destruct (String.eqb k' id).
  - intros H. apply list_elem_of_further. by apply IH.
  - intros H. apply elem_of_cons in H as [-> | H];
      [apply list_elem_of_here | apply list_elem_of_further; by apply IH].
Qed.

Lemma assoc_get_none_ne id m k l : assoc_get id m = None → (k, l) ∈ m → k ≠ id.
Proof.
  induction m as [| [k' l'] m IH]; simpl; intros Hget Hin;
    [by apply elem_of_nil in Hin |].
  destruct (String.eqb k' id) eqn:Hk; [done |].
  apply elem_of_cons in Hin as [[= -> ->] | Hin]; [by apply String.eqb_neq | by apply IH].
Qed.

(** The registry after a move that is not an [add]: nothing was put in. *)
Lemma step_keeps_out a s s1 id :
  is_add a = false →
  step checker a s = Some s1 →
  keyed s →
  assoc_get id (s_monitors s) = None →
  keyed s1 ∧ assoc_get id (s_monitors s1) = None.
Proof.
  intros Hadd Hstep Hkeyed Hout.
  pose proof (allocated_keyed s Hkeyed) as Halloc.
  destruct a; simpl in Hstep; try done.
  - (* the worker *)
    injection Hstep as <-. unfold worker_step.
    destruct (s_worker s) as [| now_ [| item rest] | |] eqn:Hpc; try done.
    + by destruct (s_stop s).
    + pose proof (λ l, loop_item_keeps_id now_ item (s_world s) l) as Hkeep.
      destruct (loop_item checker now_ item (s_world s)) as [[c | e] w]; simpl in *.
      * split; [| done]. intros k l Hin. simpl in Hin |- *.
        assert (l ∈ values (s_monitors s)) as Hl.
        { unfold values. apply list_elem_of_fmap. by exists (k, l). }
        rewrite (proj2 (Hkeep l (Halloc l Hl))). by apply Hkeyed.
      * split; [| done]. intros k l Hin. simpl in Hin |- *.
        assert (l ∈ values (s_monitors s)) as Hl.
        { unfold values. apply list_elem_of_fmap. by exists (k, l). }
        rewrite (proj2 (Hkeep l (Halloc l Hl))). by apply Hkeyed.
  - (* remove *)
    injection Hstep as <-. simpl. split.
    + intros k l Hin. apply Hkeyed. exact (assoc_pop_sublist _ _ _ _ Hin).
    + rewrite assoc_get_pop. by destruct (String.eqb id item_id).
  - (* list *)
    injection Hstep as <-. unfold list_.
    destruct (copy_all (values (s_monitors s)) (w_heap (s_world s))) as [cs h] eqn:Hcopy.
    simpl. split; [| done]. intros k l Hin.
    destruct (copy_all_spec _ _ _ _ Hcopy Halloc) as (_ & Hsame & _).
    unfold dict_at. rewrite Hsame; [by apply Hkeyed |].
    apply Halloc. unfold values. apply list_elem_of_fmap. by exists (k, l).
  - (* set_active *)
    injection Hstep as <-. unfold set_active.
    destruct (assoc_get item_id (s_monitors s)) as [l0 |]; [| done]. simpl.
    split; [| done]. intros k l Hin. simpl in Hin |- *.
    rewrite setitem_id; [by apply Hkeyed | done].
  - destruct (s_caller s); try done; by injection Hstep as <-.
  - unfold stop_return in Hstep. destruct (s_caller s); try done.
    destruct (_ || _); [| done]. by injection Hstep as <-.
Qed.

Lemma run_keeps_out sched : ∀ s s2 id,
  forallb (λ a, negb (is_add a)) sched = true →
  run checker sched s = Some s2 →
  keyed s →
  assoc_get id (s_monitors s) = None →
  keyed s2 ∧ assoc_get id (s_monitors s2) = None.
Proof.
  induction sched as [| a sched IH]; intros s s2 id Hsched Hrun Hkeyed Hout;
    simpl in *.
  - by injection Hrun as <-.
  - apply andb_true_iff in Hsched as [Ha Hsched]. apply negb_true_iff in Ha.
    destruct (step checker a s) as [s1 |] eqn:Hstep; [| done].
    destruct (step_keeps_out _ _ _ _ Ha Hstep Hkeyed Hout) as [Hkeyed1 Hout1].
    by apply (IH s1).
Qed.

(** C9.  After [remove(id)], through any moves of the worker and of
    callers other than [add], the worker completing the check of a
    record it still holds included, the registry has no entry for
    [id] and [list()] returns no record carrying [id]: a move of the
    worker leaves the registry as it is. *)
Theorem removed_record_never_listed id sched s s2 :
  keyed s →
  forallb (λ a, negb (is_add a)) sched = true →
  run checker sched (remove id s) = Some s2 →
  assoc_get id (s_monitors s2) = None
  ∧ (∀ c, c ∈ (list_ s2).1 →
       dict_at (w_heap (s_world (list_ s2).2)) c !! "id" ≠ Some (VStr id))
  ∧ s_monitors (worker_step checker s2) = s_monitors s2.
Proof.
  intros Hkeyed Hsched Hrun.
  assert (keyed (remove id s)) as Hkeyed0.
  { intros k l Hin. apply Hkeyed. exact (assoc_pop_sublist _ _ _ _ Hin). }
  assert (assoc_get id (s_monitors (remove id s)) = None) as Hout0.
  { simpl. rewrite assoc_get_pop. by rewrite String.eqb_refl. }
  destruct (run_keeps_out _ _ _ _ Hsched Hrun Hkeyed0 Hout0) as [Hkeyed2 Hout2].
  split; [done |].
  split.
  - intros c Hc.
    pose proof (allocated_keyed _ Hkeyed2) as Halloc.
    unfold list_ in Hc |- *.
    destruct (copy_all (values (s_monitors s2)) (w_heap (s_world s2)))
      as [cs h'] eqn:Hcopy.
    destruct (copy_all_spec _ _ _ _ Hcopy Halloc) as (_ & _ & Hlen & Hcopies & _).
    cbn [fst snd] in Hc |- *. cbn [with_world with_heap s_world w_heap].
    apply list_elem_of_lookup_1 in Hc as [i Hi].
    destruct (lookup_lt_is_Some_2 (values (s_monitors s2)) i) as [v Hv].
    { rewrite <- Hlen. by eapply lookup_lt_Some. }
    assert (dict_at h' c = dict_at (w_heap (s_world s2)) v) as ->.
    { unfold dict_at at 1. by rewrite (Hcopies i c v Hi Hv). }
    unfold values in Hv. apply list_lookup_fmap_Some in Hv as [[k l] [-> Hkl]].
    apply list_elem_of_lookup_2 in Hkl.
    cbn [snd]. rewrite (Hkeyed2 k l Hkl). intros [= ->].
    by apply (assoc_get_none_ne _ _ _ _ Hout2 Hkl).
  - unfold worker_step.
    destruct (s_worker s2) as [| now_ [| item rest] | |]; try done.
    + by destruct (s_stop s2).
    + by destruct (loop_item checker now_ item (s_world s2)) as [[c | e] w].
Qed.

End Removal.

(** ** The checker *)

Section CheckerFacts.

Import Engine App Reading.

Implicit Types (w : world) (item : loc) (h : heap).

Lemma quiet_from_refl w : quiet_from w w.
Proof. split; [done |]. exists []. by rewrite app_nil_r. Qed.

Lemma attempts_app evs1 evs2 : attempts (evs1 ++ evs2) = (attempts evs1 + attempts evs2)%nat.
Proof. unfold attempts. by rewrite List.filter_app, length_app. Qed.

Lemma sends_app evs1 evs2 : sends (evs1 ++ evs2) = (sends evs1 + sends evs2)%nat.
Proof. unfold sends. by rewrite List.filter_app, length_app. Qed.

Lemma sends_le_attempts evs : (sends evs ≤ attempts evs)%nat.
Proof.
  unfold sends, attempts. induction evs as [| [] evs IH]; simpl; try done.
  destruct sent; simpl; lia.
Qed.

Lemma quiet_from_trans w w1 w2 : quiet_from w w1 → quiet_from w1 w2 → quiet_from w w2.
Proof.
  intros [Hh1 (evs1 & Hl1 & Ha1)] [Hh2 (evs2 & Hl2 & Ha2)].
  split; [congruence |]. exists (evs1 ++ evs2).
  rewrite Hl2, Hl1, app_assoc, attempts_app. split; [done | lia].
Qed.

Lemma pure_quiet {A} (m : M A) : pure m → quiet m.
Proof. intros Hm w. rewrite Hm. apply quiet_from_refl. Qed.

Lemma pure_bind {A B} (m : M A) (k : A → M B) :
  pure m → (∀ a, pure (k a)) → pure (bind m k).
Proof.
  intros Hm Hk w. unfold bind. specialize (Hm w).
  destruct (m w) as [[a | e] w1]; simpl in Hm; subst w1; [apply Hk | done].
Qed.

Lemma quiet_bind {A B} (m : M A) (k : A → M B) :
  quiet m → (∀ a, quiet (k a)) → quiet (bind m k).
Proof.
  intros Hm Hk w. unfold bind. specialize (Hm w).
  destruct (m w) as [[a | e] w1]; simpl in Hm; [| done].
  eapply quiet_from_trans; [exact Hm | apply Hk].
Qed.

Lemma quiet_try {A} (m : M A) (handler : exn → M A) :
  quiet m → (∀ e, quiet (handler e)) → quiet (try_except m handler).
Proof.
  intros Hm Hh w. unfold try_except. specialize (Hm w).
  destruct (m w) as [[a | e] w1]; simpl in Hm; [done |].
  eapply quiet_from_trans; [exact Hm | apply Hh].
Qed.

Lemma pure_ret {A} (a : A) : pure (ret a).
Proof. done. Qed.
Lemma pure_raise {A} e : pure (@raise A e).
Proof. done. Qed.
Lemma pure_lift {A} (o : outcome A) : pure (lift o).
Proof. done. Qed.
Lemma pure_item_get item k d : pure (item_get item k d).
Proof. done. Qed.
Lemma pure_item_getitem item k : pure (item_getitem item k).
Proof. intros w. unfold item_getitem. by destruct (_ !! _). Qed.
Lemma pure_is_truthy v : pure (is_truthy v).
Proof. done. Qed.
Lemma pure_contains v t : pure (contains v t).
Proof. intros w. unfold contains. by destruct v as [| | | | | | [] | |]. Qed.
Lemma pure_strftime_date v : pure (strftime_date v).
Proof. by destruct v. Qed.

Lemma quiet_call ev : (∀ b, is_webhook (ev b) = false) → quiet (call ev).
Proof.
  intros Hev w. split; [done |]. simpl. eexists. split; [done |].
  unfold attempts. simpl. by rewrite Hev.
Qed.

Ltac pure_tac :=
  repeat first
    [ apply pure_ret | apply pure_raise | apply pure_lift | apply pure_item_get
    | apply pure_item_getitem | apply pure_is_truthy | apply pure_contains
    | apply pure_strftime_date
    | apply pure_bind; [| intros ?]
    | match goal with
      | |- pure (if ?b then _ else _) => destruct b
      | |- pure (match ?x with _ => _ end) => destruct x
      end ].

Ltac quiet_tac :=
  repeat first
    [ apply pure_quiet; solve [pure_tac]
    | apply quiet_call; solve [done]
    | apply quiet_bind; [| intros ?]
    | apply quiet_try; [| intros ?]
    | match goal with
      | |- quiet (if ?b then _ else _) => destruct b
      | |- quiet (match ?x with _ => _ end) => destruct x
      end ].

Lemma quiet_for_slots item date_str venues slots : ∀ matches,
  quiet (for_slots item date_str venues slots matches).
Proof.
  induction slots as [| slot rest IH]; intros matches; simpl.
  - quiet_tac.
  - quiet_tac; apply IH.
Qed.

Lemma quiet_date_body item date_str matches : quiet (date_body item date_str matches).
Proof. unfold date_body, find. quiet_tac. apply quiet_for_slots. Qed.

Lemma quiet_for_dates item dates : ∀ matches, quiet (for_dates item dates matches).
Proof.
  induction dates as [| d rest IH]; intros matches; simpl.
  - quiet_tac.
  - apply quiet_bind; [| intros ?; apply IH].
    apply quiet_try; [apply quiet_date_body | intros e; quiet_tac].
Qed.

Lemma quiet_calendar_pass item : quiet (calendar_pass item).
Proof. unfold calendar_pass, get_calendar. quiet_tac. Qed.

Lemma pure_each_args item m : pure (each_args item m).
Proof. unfold each_args. pure_tac. Qed.

Lemma pure_first_args item ms : pure (first_args item ms).
Proof. unfold first_args. pure_tac. Qed.


Lemma set_none_spec item msg w :
  set_none item msg w = (Normal tt, with_heap (none_heap item msg (w_heap w)) w).
Proof. reflexivity. Qed.

Lemma set_found_spec item matches w :
  set_found item matches w = (Normal tt, with_heap (found_heap item matches (w_heap w)) w).
Proof.
  unfold set_found, found_heap, bind, item_setitem, set_found_slots, modify_heap,
    item_get, is_truthy, ret; simpl.
  by destruct (truthy _ _).
Qed.

Lemma truthy_not_none h v : truthy h v = true → v ≠ VNone.
Proof. by intros H ->. Qed.

Lemma on_error_spec item e w :
  ∃ msg err, err ≠ VNone
    ∧ on_error item e w = (Normal tt, with_heap (error_heap item msg err (w_heap w)) w).
Proof.
  unfold on_error, error_text, bind, item_setitem, modify_heap, is_truthy, ret; simpl.
  destruct (is_resy_error e).
  - destruct (truthy _ (dict_get (exn_details e) "text" VNone)) eqn:Ht.
    + eexists _, _. split; [| reflexivity]. exact (truthy_not_none _ _ Ht).
    + destruct (truthy _ (dict_get (exn_details e) "error" VNone)) eqn:Ht'.
      * eexists _, _. split; [| reflexivity]. exact (truthy_not_none _ _ Ht').
      * eexists _, _. split; [| reflexivity]. done.
  - eexists _, _. split; [| reflexivity]. done.
Qed.

Lemma run_check_try_unfold item w :
  run_check_try item w
  = match calendar_pass item w with
    | (Normal [], w0) => set_none item "Nothing available (calendar)" w0
    | (Normal (d :: dates), w0) =>
        match for_dates item (d :: dates) [] w0 with
        | (Normal [], w1) => set_none item "Nothing available for selected times" w1
        | (Normal (m :: ms), w1) =>
            (notify item (m :: ms) ;; set_found item (m :: ms)) w1
        | (Raise e, w1) => (Raise e, w1)
        end
    | (Raise e, w0) => (Raise e, w0)
    end.
Proof.
  unfold run_check_try, bind.
  destruct (calendar_pass item w) as [[[| d dates] | e] w0]; try done.
  by destruct (for_dates item (d :: dates) [] w0) as [[[| m ms] | e] w1].
Qed.

Lemma run_check_try_cases item w :
  ∃ w1, quiet_from w w1
    ∧ ((∃ e, run_check_try item w = (Raise e, w1))
       ∨ (∃ msg, found_matches item w = []
                 ∧ run_check_try item w = set_none item msg w1)
       ∨ (found_matches item w ≠ []
          ∧ run_check_try item w
            = (notify item (found_matches item w) ;;
               set_found item (found_matches item w)) w1)).
Proof.
  rewrite run_check_try_unfold. unfold found_matches.
  pose proof (quiet_calendar_pass item w) as Hq0.
  destruct (calendar_pass item w) as [[[| d dates] | e] w0]; simpl in Hq0.
  - exists w0. split; [done |]. right; left. eexists; split; reflexivity.
  - pose proof (quiet_for_dates item (d :: dates) [] w0) as Hq1.
    destruct (for_dates item (d :: dates) [] w0) as [[[| m ms] | e] w1]; simpl in Hq1;
      exists w1; (split; [by eapply quiet_from_trans |]).
    + right; left. eexists; split; reflexivity.
    + right; right. split; [done | reflexivity].
    + left. by eexists.
  - exists w0. split; [done |]. left. by eexists.
Qed.

Lemma bind_normal {A B} (m : M A) (k : A → M B) w b w' :
  bind m k w = (Normal b, w') →
  ∃ a w1, m w = (Normal a, w1) ∧ k a w1 = (Normal b, w').
Proof.
  unfold bind. destruct (m w) as [[a | e] w1]; [| done]. intros H. by exists a, w1.
Qed.

Lemma ret_normal {A} (a b : A) w w' : ret a w = (Normal b, w') → a = b ∧ w = w'.
Proof. by intros [= -> ->]. Qed.

Lemma each_args_length item m w args w' :
  each_args item m w = (Normal args, w') → length args = 6%nat.
Proof.
  unfold each_args. intros H.
  repeat (apply bind_normal in H as (? & ? & _ & H)).
  apply ret_normal in H as [<- _]. done.
Qed.

Lemma first_args_length item ms w args w' :
  first_args item ms w = (Normal args, w') → length args = 7%nat.
Proof.
  unfold first_args. intros H.
  repeat (apply bind_normal in H as (? & ? & _ & H)).
  apply ret_normal in H as [<- _]. done.
Qed.

Lemma send_each_raises item m rest w :
  ∃ e, send_each item (m :: rest) w = (Raise e, w).
Proof.
  simpl. unfold bind at 1.
  pose proof (pure_each_args item m w) as Hp.
  destruct (each_args item m w) as [[args | e] w0] eqn:Hargs; simpl in Hp; subst w0;
    [| by eexists].
  apply each_args_length in Hargs.
  destruct args as [| ? [| ? [| ? [| ? [| ? [| ? [| ? ?]]]]]]]; try done.
  by eexists.
Qed.

Lemma send_first_cases item ms w :
  (∃ e w1, send_first item ms w = (Raise e, w1)
     ∧ w_heap w1 = w_heap w
     ∧ (w_log w1 = w_log w ∨ ∃ args, w_log w1 = w_log w ++ [EvWebhook args false]))
  ∨ (∃ args w1, send_first item ms w
       = (Normal tt,
          with_heap (dict_setitem item "webhook_sent" (VBool true) (w_heap w)) w1)
     ∧ first_args item ms w = (Normal args, w)
     ∧ w_heap w1 = w_heap w
     ∧ w_log w1 = w_log w ++ [EvWebhook args true]).
Proof.
  assert (send_first item ms w
          = match first_args item ms w with
            | (Normal args, w0) =>
                (sendWebhook args ;; item_setitem item "webhook_sent" (VBool true)) w0
            | (Raise e, w0) => (Raise e, w0)
            end) as -> by reflexivity.
  pose proof (pure_first_args item ms w) as Hp.
  destruct (first_args item ms w) as [[args | e] w0] eqn:Hargs; simpl in Hp; subst w0.
  - pose proof (first_args_length _ _ _ _ _ Hargs) as Hlen.
    destruct args as [| a1 [| a2 [| a3 [| a4 [| a5 [| a6 [| a7 [| ? ?]]]]]]]]; try done.
    unfold sendWebhook, bind, call, item_setitem, modify_heap, ret; simpl.
    destruct (r_result (w_tape w (w_cursor w))) as [j | e] eqn:Hr.
    + right. eexists _, _. split; [reflexivity |]. split; [done |]. split; done.
    + left. eexists _, _. split; [reflexivity |]. split; [done |]. right. by eexists.
  - left. exists e, w. split; [done |]. split; [done |]. by left.
Qed.

Lemma notify_cases item m rest w :
  notify item (m :: rest) w
  = if only_one (w_heap w) item && webhook_sent (w_heap w) item then (Normal tt, w)
    else if only_one (w_heap w) item then send_first item (m :: rest) w
    else send_each item (m :: rest) w.
Proof.
  unfold notify, bind, item_get, is_truthy, only_one, webhook_sent; simpl.
  destruct (truthy (w_heap w) (dict_get (dict_at (w_heap w) item) "only_one_webhook" VNone));
    by destruct (truthy (w_heap w) (dict_get (dict_at (w_heap w) item) "webhook_sent" VNone)).
Qed.

Lemma run_check_unfold item w :
  run_check item w
  = match run_check_try item w with
    | (Normal a, w1) => (Normal a, stamped item w1)
    | (Raise e, w1) => ((on_error item e w1).1, stamped item (on_error item e w1).2)
    end.
Proof.
  unfold run_check, try_except.
  destruct (run_check_try item w) as [[[] | e] w1]; [done |].
  by destruct (on_error item e w1).
Qed.

Lemma run_check_cases item w :
  let h := w_heap w in
  let w' := (run_check item w).2 in
  (run_check item w).1 = Normal tt
  ∧ ∃ evs h1,
      w_log w' = w_log w ++ evs
      ∧ w_heap w' = dict_setitem item "last_checked" (VDatetime (w_clock w')) h1
      ∧ ((∃ msg err, err ≠ VNone
            ∧ h1 = error_heap item msg err h
            ∧ sends evs = 0%nat
            ∧ (attempts evs ≤ 1)%nat
            ∧ (only_one h item = false ∨ webhook_sent h item = true →
               attempts evs = 0%nat))
         ∨ (∃ msg, found_matches item w = []
              ∧ h1 = none_heap item msg h
              ∧ attempts evs = 0%nat)
         ∨ (found_matches item w ≠ []
            ∧ only_one h item = true ∧ webhook_sent h item = true
            ∧ h1 = found_heap item (found_matches item w) h
            ∧ attempts evs = 0%nat)
         ∨ (found_matches item w ≠ []
            ∧ only_one h item = true ∧ webhook_sent h item = false
            ∧ h1 = found_heap item (found_matches item w)
                     (dict_setitem item "webhook_sent" (VBool true) h)
            ∧ attempts evs = 1%nat ∧ sends evs = 1%nat
            ∧ ∃ evs0 args w1, evs = evs0 ++ [EvWebhook args true]
                ∧ attempts evs0 = 0%nat
                ∧ first_args item (found_matches item w) w1 = (Normal args, w1))).
Proof.
  intros h w'. subst w'. rewrite run_check_unfold.
  assert (∀ e w1 evs, w_heap w1 = h → w_log w1 = w_log w ++ evs →
    (on_error item e w1).1 = Normal tt
    ∧ w_log (stamped item (on_error item e w1).2) = w_log w ++ evs
    ∧ ∃ msg err, err ≠ VNone
        ∧ w_heap (stamped item (on_error item e w1).2)
          = dict_setitem item "last_checked"
              (VDatetime (w_clock (stamped item (on_error item e w1).2)))
              (error_heap item msg err h)) as Herr.
  { intros e w1 evs Hh Hl. destruct (on_error_spec item e w1) as (msg & err & Hne & ->).
    simpl. split; [done |]. split; [done |]. exists msg, err. by rewrite Hh. }
  destruct (run_check_try_cases item w) as (w1 & [Hh (evs & Hl & Ha)] & Hcases).
  fold h in Hh.
  destruct Hcases as [[e He] | [(msg & Hnone & He) | [Hsome He]]].
  - rewrite He.
    destruct (Herr e w1 evs Hh Hl) as (-> & Hlog & msg & err & Hne & Hheap).
    split; [done |]. exists evs, (error_heap item msg err h).
    split; [done |]. split; [done |]. left. exists msg, err.
    pose proof (sends_le_attempts evs). repeat split; try done; lia.
  - rewrite set_none_spec in He. rewrite He. cbn [fst snd]. split; [done |].
    exists evs, (none_heap item msg h). split; [done |]. split.
    { unfold stamped, with_heap; cbn [w_heap w_clock]. by rewrite Hh. }
    right; left. by exists msg.
  - destruct (found_matches item w) as [| m rest] eqn:Hms; [done |].
    unfold bind in He. rewrite notify_cases, Hh in He.
    destruct (only_one h item) eqn:Hone; cbn [andb] in He.
    + destruct (webhook_sent h item) eqn:Hsent.
      * rewrite set_found_spec in He. rewrite He. cbn [fst snd]. split; [done |].
        exists evs, (found_heap item (m :: rest) h).
        split; [done |]. split.
        { unfold stamped, with_heap; cbn [w_heap w_clock]. by rewrite Hh. }
        right; right; left. done.
      * destruct (send_first_cases item (m :: rest) w1)
          as [(e & w2 & Hsf & Hh2 & Hl2) | (args & w2 & Hsf & Hargs & Hh2 & Hl2)];
          rewrite Hsf in He; rewrite Hh in Hh2.
        -- assert (∃ evs', w_log w2 = w_log w ++ evs' ∧ sends evs' = 0%nat
                           ∧ (attempts evs' ≤ 1)%nat) as (evs' & Hl' & Hs' & Ha').
           { destruct Hl2 as [Hl2 | [args Hl2]]; rewrite Hl2, Hl.
             - exists evs. pose proof (sends_le_attempts evs).
               repeat split; try done; lia.
             - exists (evs ++ [EvWebhook args false]). rewrite app_assoc.
               pose proof (sends_le_attempts evs).
               rewrite sends_app, attempts_app.
               repeat split; try done; unfold sends, attempts in *; simpl; lia. }
           rewrite He.
           destruct (Herr e w2 evs' Hh2 Hl') as (-> & Hlog & msg & err & Hne & Hheap).
           split; [done |]. exists evs', (error_heap item msg err h).
           split; [done |]. split; [done |]. left. exists msg, err.
           repeat split; try done. by intros [? | ?].
        -- rewrite set_found_spec in He. rewrite He. cbn [fst snd]. split; [done |].
           exists (evs ++ [EvWebhook args true]),
             (found_heap item (m :: rest)
                (dict_setitem item "webhook_sent" (VBool true) h)).
           split.
           { unfold stamped, with_heap; cbn [w_log]. by rewrite Hl2, Hl, app_assoc. }
           split.
           { unfold stamped, with_heap; cbn [w_heap w_clock]. by rewrite Hh. }
           right; right; right.
           rewrite attempts_app, sends_app.
           pose proof (sends_le_attempts evs).
           repeat split; try done; try (unfold sends, attempts in *; simpl; lia).
           by exists evs, args, w1.
    + destruct (send_each_raises item m rest w1) as [e Hse]. rewrite Hse in He.
      rewrite He.
      destruct (Herr e w1 evs Hh Hl) as (-> & Hlog & msg & err & Hne & Hheap).
      split; [done |]. exists evs, (error_heap item msg err h).
      split; [done |]. split; [done |]. left. exists msg, err.
      pose proof (sends_le_attempts evs). repeat split; try done; lia.
Qed.


(** What the three result heaps hold. *)

Lemma error_heap_item item msg err h :
  dict_at (error_heap item msg err h) item
  = <["error" := err]>
      (<["status_msg" := VStr msg]> (<["status" := VStr "error"]> (dict_at h item))).
Proof. unfold error_heap. by rewrite !dict_at_setitem_eq. Qed.

Lemma error_heap_other item msg err h other :
  other ≠ item → dict_at (error_heap item msg err h) other = dict_at h other.
Proof. intros Hne. unfold error_heap. by rewrite !dict_at_setitem_ne. Qed.

Lemma none_heap_item item msg h :
  dict_at (none_heap item msg h) item
  = <["error" := VNone]>
      (<["found_slots" := VList (fresh (dom (lists h)))]>
         (<["status_msg" := VStr msg]> (<["status" := VStr "none"]> (dict_at h item)))).
Proof.
  unfold none_heap. rewrite !dict_at_setitem_eq. unfold alloc_list; simpl.
  do 2 f_equal. unfold dict_at; simpl. by rewrite !lookup_insert_eq.
Qed.

Lemma none_heap_other item msg h other :
  other ≠ item → dict_at (none_heap item msg h) other = dict_at h other.
Proof.
  intros Hne. unfold none_heap. rewrite !dict_at_setitem_ne by done.
  unfold alloc_list, dict_at; simpl. by rewrite !lookup_insert_ne.
Qed.

Lemma none_heap_lists item msg h :
  lists (none_heap item msg h) = <[fresh (dom (lists h)) := []]> (lists h).
Proof. reflexivity. Qed.

Lemma found_heap_item item ms h :
  let d := <["error" := VNone]>
             (<["found_slots" := VList (fresh (dom (lists h)))]>
                (<["status_msg" := VStr "🎉 Found reservations!"]>
                   (<["status" := VStr "found"]> (dict_at h item)))) in
  ∃ h4, dict_at h4 item = d
    ∧ dict_at (found_heap item ms h) item
      = (if truthy h4 (dict_get d "stop_on_match" (VBool true))
         then <["active" := VBool false]> d else d).
Proof.
  intros d. unfold found_heap.
  set (h4 := dict_setitem item "error" VNone _).
  assert (dict_at h4 item = d) as Hd.
  { subst h4 d. rewrite !dict_at_setitem_eq. unfold alloc_list; simpl.
    do 2 f_equal. unfold dict_at; simpl. by rewrite !lookup_insert_eq. }
  exists h4. split; [done |]. rewrite Hd.
  destruct (truthy h4 _); [| done]. by rewrite dict_at_setitem_eq, Hd.
Qed.

Lemma found_heap_other item ms h other :
  other ≠ item → dict_at (found_heap item ms h) other = dict_at h other.
Proof.
  intros Hne. unfold found_heap.
  set (h4 := dict_setitem item "error" VNone _).
  assert (dict_at h4 other = dict_at h other) as Hd.
  { subst h4. rewrite !dict_at_setitem_ne by done.
    unfold alloc_list, dict_at; simpl. by rewrite !lookup_insert_ne. }
  destruct (truthy h4 _); [| done]. by rewrite dict_at_setitem_ne.
Qed.

Lemma found_heap_lists item ms h :
  lists (found_heap item ms h) = <[fresh (dom (lists h)) := map VJson ms]> (lists h).
Proof. unfold found_heap. by destruct (truthy _ _). Qed.

Lemma fresh_list_unused h : lists h !! fresh (dom (lists h)) = None.
Proof. apply not_elem_of_dom, is_fresh. Qed.


Ltac map_lookups :=
  repeat first [rewrite lookup_insert_eq | rewrite lookup_insert_ne by done].

Ltac map_lookups_in H :=
  repeat first [rewrite lookup_insert_eq in H | rewrite lookup_insert_ne in H by done].

Lemma stamped_lookup item t h1 k :
  dict_at (dict_setitem item "last_checked" t h1) item !! k
  = if decide (k = "last_checked") then Some t else dict_at h1 item !! k.
Proof.
  rewrite dict_at_setitem_eq. destruct (decide (k = "last_checked")) as [-> | Hne].
  - apply lookup_insert_eq.
  - by rewrite lookup_insert_ne.
Qed.

Lemma found_slots_stamped item t h1 :
  found_slots (dict_setitem item "last_checked" t h1) item = found_slots h1 item.
Proof.
  unfold found_slots. rewrite stamped_lookup. simpl. done.
Qed.

Lemma found_slots_none item msg h : found_slots (none_heap item msg h) item = [].
Proof.
  unfold found_slots. rewrite none_heap_item.
  rewrite lookup_insert_ne by done. rewrite lookup_insert_eq.
  unfold list_at. rewrite none_heap_lists. by rewrite lookup_insert_eq.
Qed.

Lemma found_slots_found item ms h :
  found_slots (found_heap item ms h) item = map VJson ms.
Proof.
  unfold found_slots. destruct (found_heap_item item ms h) as (h4 & _ & ->).
  assert (∀ d : gmap string value,
            (<["error" := VNone]> (<["found_slots" := VList (fresh (dom (lists h)))]> d))
              !! "found_slots" = Some (VList (fresh (dom (lists h))))) as Hfs.
  { intros d. rewrite lookup_insert_ne by done. apply lookup_insert_eq. }
  destruct (truthy h4 _).
  - rewrite lookup_insert_ne by done. rewrite Hfs.
    unfold list_at. rewrite found_heap_lists. by rewrite lookup_insert_eq.
  - rewrite Hfs. unfold list_at. rewrite found_heap_lists. by rewrite lookup_insert_eq.
Qed.

(** C4.  [run_check] always returns, having set [last_checked] to the
    time of its [finally] block, and leaves the record in one of three
    states: [found], with the matches in [found_slots], no error, and
    the webhook sent in this check or recorded as sent by
    [webhook_sent]; [none], with [found_slots] empty and no error;
    [error], with [error] holding a value other than [None]. *)
Theorem run_check_result item w :
  let h := w_heap w in
  let w' := (run_check item w).2 in
  let h' := w_heap w' in
  (run_check item w).1 = Normal tt
  ∧ dict_at h' item !! "last_checked" = Some (VDatetime (w_clock w'))
  ∧ ∃ evs, w_log w' = w_log w ++ evs
      ∧ ((dict_at h' item !! "status" = Some (VStr "found")
          ∧ found_slots h' item = map VJson (found_matches item w)
          ∧ found_slots h' item ≠ []
          ∧ dict_at h' item !! "error" = Some VNone
          ∧ (sends evs = 1%nat
             ∨ only_one h item = true ∧ webhook_sent h item = true))
         ∨ (dict_at h' item !! "status" = Some (VStr "none")
            ∧ found_slots h' item = []
            ∧ dict_at h' item !! "error" = Some VNone)
         ∨ (dict_at h' item !! "status" = Some (VStr "error")
            ∧ ∃ err, dict_at h' item !! "error" = Some err ∧ err ≠ VNone)).
Proof.
  intros h w' h'. subst h' w'.
  destruct (run_check_cases item w) as (Hret & evs & h1 & Hlog & Hheap & Hcases).
  fold h in Hcases. split; [done |]. rewrite Hheap.
  split; [by rewrite stamped_lookup |].
  exists evs. split; [done |].
  rewrite !stamped_lookup, found_slots_stamped. simpl.
  destruct Hcases as [(msg & err & Hne & -> & _) | [(msg & _ & -> & _) |
    [(Hms & Hone & Hsent & -> & _) | (Hms & Hone & Hsent & -> & _ & Hsends & _)]]].
  - right; right. rewrite error_heap_item. map_lookups. split; [done |]. by exists err.
  - right; left. rewrite none_heap_item, found_slots_none. by map_lookups.
  - left. rewrite found_slots_found.
    destruct (found_heap_item item (found_matches item w) h) as (h4 & _ & ->).
    assert (map VJson (found_matches item w) ≠ []) as Hne.
    { by destruct (found_matches item w). }
    destruct (truthy h4 _); map_lookups; repeat split; try done; by right.
  - left. rewrite found_slots_found.
    destruct (found_heap_item item (found_matches item w)
                (dict_setitem item "webhook_sent" (VBool true) h)) as (h4 & _ & ->).
    assert (map VJson (found_matches item w) ≠ []) as Hne.
    { by destruct (found_matches item w). }
    destruct (truthy h4 _); map_lookups; repeat split; try done; by left.
Qed.


(** C6, as the code has it.  When a check of a record whose
    [stop_on_match] is [True] or missing ends in the [found] state,
    that is when it has collected a match and the notification step did
    not raise, the record's [active] field is [False]; the checker does
    not touch the registry, and every later scan skips the record. *)
Theorem found_deactivates item w :
  let h' := w_heap (run_check item w).2 in
  dict_get (dict_at (w_heap w) item) "stop_on_match" (VBool true) = VBool true →
  dict_at h' item !! "status" = Some (VStr "found") →
  found_matches item w ≠ []
  ∧ dict_at h' item !! "active" = Some (VBool false)
  ∧ is_active h' item = false
  ∧ (∀ checker now_ w2, w_heap w2 = h' →
       loop_item checker now_ item w2 = (Normal false, w2))
  ∧ (∀ s, s_monitors (worker_step run_check s) = s_monitors s).
Proof.
  intros h' Hstop Hfound. subst h'.
  destruct (run_check_cases item w) as (_ & evs & h1 & _ & Hheap & Hcases).
  rewrite Hheap in Hfound |- *. rewrite stamped_lookup in Hfound. simpl in Hfound.
  assert (∀ h0, dict_get (dict_at h0 item) "stop_on_match" (VBool true) = VBool true →
            found_matches item w ≠ [] →
            h1 = found_heap item (found_matches item w) h0 →
            dict_at h1 item !! "active" = Some (VBool false)) as Hactive.
  { intros h0 Hs Hms ->.
    destruct (found_heap_item item (found_matches item w) h0) as (h4 & _ & ->).
    unfold dict_get in *. map_lookups. rewrite Hs. simpl. by map_lookups. }
  assert (found_matches item w ≠ [] ∧ dict_at h1 item !! "active" = Some (VBool false))
    as [Hms Hact].
  { destruct Hcases as [(msg & err & Hne & -> & _) | [(msg & _ & -> & _) |
      [(Hms & _ & _ & Hh1 & _) | (Hms & _ & _ & Hh1 & _)]]].
    - rewrite error_heap_item in Hfound. by map_lookups_in Hfound.
    - rewrite none_heap_item in Hfound. by map_lookups_in Hfound.
    - split; [done |]. by apply (Hactive (w_heap w)).
    - split; [done |]. apply (Hactive (dict_setitem item "webhook_sent" (VBool true) (w_heap w)));
        [| done | done].
      rewrite dict_at_setitem_eq. unfold dict_get in *. by map_lookups. }
  assert (is_active (dict_setitem item "last_checked" (VDatetime (w_clock (run_check item w).2)) h1) item
          = false) as Hoff.
  { unfold is_active, dict_get. rewrite stamped_lookup. simpl. by rewrite Hact. }
  split; [done |]. split; [by rewrite stamped_lookup |]. split; [done |].
  split; [| intros s; apply worker_step_monitors].
  intros checker now_ w2 Hw2. apply loop_item_inactive. by rewrite Hw2.
Qed.


Lemma sent_counts evs args : EvWebhook args true ∈ evs → (1 ≤ sends evs)%nat.
Proof.
  unfold sends. induction evs as [| ev evs IH]; intros Hin;
    [by apply elem_of_nil in Hin |].
  apply elem_of_cons in Hin as [<- | Hin]; simpl; [lia |].
  specialize (IH Hin). destruct (is_sent ev); simpl; lia.
Qed.

Lemma check_sends_once item w (b : bool) :
  dict_at (w_heap w) item !! "only_one_webhook" = Some (VBool true) →
  dict_at (w_heap w) item !! "webhook_sent" = Some (VBool b) →
  let w' := (run_check item w).2 in
  ∃ evs (b' : bool),
    w_log w' = w_log w ++ evs
    ∧ dict_at (w_heap w') item !! "only_one_webhook" = Some (VBool true)
    ∧ dict_at (w_heap w') item !! "webhook_sent" = Some (VBool b')
    ∧ (sends evs + (if b then 1 else 0) = (if b' then 1 else 0))%nat
    ∧ (attempts evs ≤ (if b then 0 else 1))%nat
    ∧ (∀ args, EvWebhook args true ∈ evs →
         ∃ ms w1, ms ≠ [] ∧ first_args item ms w1 = (Normal args, w1)).
Proof.
  intros Hone Hsent w'. subst w'.
  destruct (run_check_cases item w) as (_ & evs & h1 & Hlog & Hheap & Hcases).
  assert (only_one (w_heap w) item = true) as Hone'.
  { unfold only_one, dict_get. by rewrite Hone. }
  assert (webhook_sent (w_heap w) item = b) as Hsent'.
  { unfold webhook_sent, dict_get. by rewrite Hsent. }
  rewrite Hone', Hsent' in Hcases.
  exists evs. rewrite Hheap, !stamped_lookup. simpl.
  pose proof (sends_le_attempts evs) as Hle.
  assert (sends evs = 0%nat →
          ∀ args, EvWebhook args true ∈ evs →
            ∃ ms w1, ms ≠ [] ∧ first_args item ms w1 = (Normal args, w1)) as Hnone.
  { intros H0 args Hin. apply sent_counts in Hin. lia. }
  destruct Hcases as [(msg & err & _ & -> & Hs & Ha & Ha0) | [(msg & _ & -> & Ha) |
    [(_ & _ & -> & -> & Ha) | (Hms & _ & -> & -> & Ha & Hs & evs0 & args0 & w1 & -> & Ha' & Hargs)]]].
  - exists b. rewrite error_heap_item. map_lookups.
    repeat split; try done; try (by apply Hnone); destruct b; try lia.
  - exists b. rewrite none_heap_item. map_lookups.
    repeat split; try done; try (apply Hnone; lia); destruct b; lia.
  - exists true.
    destruct (found_heap_item item (found_matches item w) (w_heap w)) as (h4 & _ & ->).
    destruct (truthy h4 _); map_lookups; repeat split; try done;
      try (apply Hnone; lia); lia.
  - exists true.
    destruct (found_heap_item item (found_matches item w)
                (dict_setitem item "webhook_sent" (VBool true) (w_heap w)))
      as (h4 & _ & ->).
    rewrite dict_at_setitem_eq.
    assert (∀ args, EvWebhook args true ∈ evs0 ++ [EvWebhook args0 true] →
              ∃ ms w1, ms ≠ [] ∧ first_args item ms w1 = (Normal args, w1)) as Hfirst.
    { intros args Hin. apply elem_of_app in Hin as [Hin | Hin].
      - apply sent_counts in Hin. pose proof (sends_le_attempts evs0). lia.
      - apply list_elem_of_singleton in Hin as [= ->].
        by exists (found_matches item w), w1. }
    destruct (truthy h4 _); map_lookups; repeat split; try done; lia.
Qed.

(** C7.  For a record whose [only_one_webhook] is [True] and whose
    [webhook_sent] is a boolean, over any number of checks in a row:
    [webhook_sent] ends [True] exactly when it began [True] or one call
    of [sendWebhook] has returned, and no second call ever returns;
    once [webhook_sent] is [True] no check calls [sendWebhook] at all;
    a check calls it at most once, with the arguments built from
    [matches[0]]; [only_one_webhook] is never assigned. *)
Theorem webhook_sent_at_most_once item n w (b : bool) :
  dict_at (w_heap w) item !! "only_one_webhook" = Some (VBool true) →
  dict_at (w_heap w) item !! "webhook_sent" = Some (VBool b) →
  let w' := checks item n w in
  ∃ evs (b' : bool),
    w_log w' = w_log w ++ evs
    ∧ dict_at (w_heap w') item !! "only_one_webhook" = Some (VBool true)
    ∧ dict_at (w_heap w') item !! "webhook_sent" = Some (VBool b')
    ∧ (sends evs + (if b then 1 else 0) = (if b' then 1 else 0))%nat
    ∧ (b = true → attempts evs = 0%nat)
    ∧ (attempts evs ≤ n)%nat
    ∧ (∀ args, EvWebhook args true ∈ evs →
         ∃ ms w1, ms ≠ [] ∧ first_args item ms w1 = (Normal args, w1)).
Proof.
  intros Hone Hsent. induction n as [| n IH]; simpl.
  - exists [], b. rewrite app_nil_r. repeat split; try done.
    intros args Hin. by apply elem_of_nil in Hin.
  - destruct IH as (evs & b1 & Hlog & Hone1 & Hsent1 & Hsum & Hzero & Hle & Hfirst).
    destruct (check_sends_once item (checks item n w) b1 Hone1 Hsent1)
      as (evs' & b' & Hlog' & Hone' & Hsent' & Hsum' & Hle' & Hfirst').
    exists (evs ++ evs'), b'. unfold checks in *.
    rewrite Hlog', Hlog, app_assoc, sends_app, attempts_app.
    repeat split; try done.
    + destruct b, b1, b'; lia.
    + intros ->. rewrite (Hzero eq_refl). destruct b1; [lia |]. simpl in Hsum. lia.
    + destruct b1; lia.
    + intros args Hin. apply elem_of_app in Hin as [Hin | Hin]; [by apply Hfirst |].
      by apply Hfirst'.
Qed.

(** C10.  A check that ends in the [error] state has assigned
    [status], [status_msg], [error] and [last_checked] of its record
    and nothing else: every other field, every other record and every
    list, the one behind [found_slots] included, is as it was.  The
    same holds of the failure boundary of the poll loop, on top of what
    the checker left.  A record can hold [status = "error"] together
    with the slots an earlier check found. *)
Theorem error_outcome_frame :
  (∀ item w,
     let h := w_heap w in
     let h' := w_heap (run_check item w).2 in
     dict_at h' item !! "status" = Some (VStr "error") →
     (∀ k, k ∉ error_fields → dict_at h' item !! k = dict_at h item !! k)
     ∧ (∀ other, other ≠ item → dict_at h' other = dict_at h other)
     ∧ lists h' = lists h
     ∧ found_slots h' item = found_slots h item)
  ∧ (∀ item e w1,
       let h' := w_heap (failed item e w1) in
       (∀ k, k ∉ error_fields → dict_at h' item !! k = dict_at (w_heap w1) item !! k)
       ∧ (∀ other, other ≠ item → dict_at h' other = dict_at (w_heap w1) other)
       ∧ lists h' = lists (w_heap w1)
       ∧ found_slots h' item = found_slots (w_heap w1) item)
  ∧ (∃ item w,
       dict_at (w_heap (checks item 2 w)) item !! "status" = Some (VStr "error")
       ∧ found_slots (w_heap (checks item 2 w)) item ≠ []).
Proof.
  assert (∀ k, k ∉ error_fields →
            "status" ≠ k ∧ "status_msg" ≠ k ∧ "error" ≠ k ∧ "last_checked" ≠ k) as Hkeys.
  { intros k Hk. unfold error_fields in Hk.
    repeat (apply not_elem_of_cons in Hk as [? Hk]). by repeat split. }
  split; [| split].
  - intros item w h h' Herr. subst h h'.
    destruct (run_check_cases item w) as (_ & evs & h1 & _ & Hheap & Hcases).
    rewrite Hheap in Herr |- *. rewrite stamped_lookup in Herr. simpl in Herr.
    destruct Hcases as [(msg & err & _ & -> & _) | [(msg & _ & -> & _) |
      [(_ & _ & _ & -> & _) | (_ & _ & _ & -> & _)]]].
    + assert (∀ k, k ∉ error_fields →
                dict_at (dict_setitem item "last_checked"
                           (VDatetime (w_clock (run_check item w).2))
                           (error_heap item msg err (w_heap w))) item !! k
                = dict_at (w_heap w) item !! k) as Hframe.
      { intros k Hk. destruct (Hkeys k Hk) as (? & ? & ? & ?).
        rewrite dict_at_setitem_eq, error_heap_item. by map_lookups. }
      split; [done |]. split.
      { intros other Hne. rewrite dict_at_setitem_ne by done.
        by apply error_heap_other. }
      split; [done |].
      unfold found_slots. rewrite Hframe; [done |].
      unfold error_fields. repeat (apply not_elem_of_cons; split; [done |]).
      apply not_elem_of_nil.
    + rewrite none_heap_item in Herr. by map_lookups_in Herr.
    + exfalso.
      destruct (found_heap_item item (found_matches item w) (w_heap w)) as (h4 & _ & Hd).
      rewrite Hd in Herr. destruct (truthy h4 _); by map_lookups_in Herr.
    + exfalso.
      destruct (found_heap_item item (found_matches item w)
                  (dict_setitem item "webhook_sent" (VBool true) (w_heap w)))
        as (h4 & _ & Hd).
      rewrite Hd in Herr. destruct (truthy h4 _); by map_lookups_in Herr.
  - intros item e w1 h'. subst h'.
    assert (∀ k, k ∉ error_fields →
              dict_at (w_heap (failed item e w1)) item !! k
              = dict_at (w_heap w1) item !! k) as Hframe.
    { intros k Hk. destruct (Hkeys k Hk) as (? & ? & ? & ?).
      unfold failed; simpl. rewrite !dict_at_setitem_eq. by map_lookups. }
    split; [done |]. split.
    { intros other Hne. unfold failed; simpl. by rewrite !dict_at_setitem_ne. }
    split; [done |].
    unfold found_slots. rewrite Hframe; [done |].
    unfold error_fields. repeat (apply not_elem_of_cons; split; [done |]).
    apply not_elem_of_nil.
  - exists 0%nat, Samples.world_found.
    split; [by vm_compute | vm_compute; discriminate].
Qed.

End CheckerFacts.

Section RemovalInstances.

Import Engine Reading Samples.

Lemma flaky_keeps_ids : keeps_ids flaky.
Proof.
  intros item w l Hl. unfold flaky. destruct item as [| n]; [done |].
  unfold bind, now, item_setitem, modify_heap; simpl.
  split; [by apply setitem_alloc | by apply setitem_id].
Qed.

Lemma sys_in_flight_keyed : keyed sys_in_flight.
Proof.
  intros k l Hin. simpl in Hin.
  apply elem_of_cons in Hin as [[= -> ->] | Hin]; [by vm_compute |].
  apply list_elem_of_singleton in Hin as [= -> ->]. by vm_compute.
Qed.

Lemma removed_record_never_listed_witness :
  keeps_ids flaky
  ∧ keyed sys_in_flight
  ∧ run flaky [Worker; Worker] (remove "834-1" sys_in_flight)
    = Some (default sys_in_flight
              (run flaky [Worker; Worker] (remove "834-1" sys_in_flight)))
  ∧ assoc_get "834-1"
      (s_monitors (default sys_in_flight
                     (run flaky [Worker; Worker] (remove "834-1" sys_in_flight))))
    = None
  ∧ s_trace (default sys_in_flight
               (run flaky [Worker; Worker] (remove "834-1" sys_in_flight)))
    = [Checked 0%nat; Checked 1%nat].
Proof.
  assert (run flaky [Worker; Worker] (remove "834-1" sys_in_flight)
          = Some (default sys_in_flight
                    (run flaky [Worker; Worker] (remove "834-1" sys_in_flight))))
    as Hrun by reflexivity.
  destruct (removed_record_never_listed flaky flaky_keeps_ids "834-1"
              [Worker; Worker] sys_in_flight _ sys_in_flight_keyed eq_refl Hrun)
    as (Hout & _ & _).
  split; [exact flaky_keeps_ids |]. split; [exact sys_in_flight_keyed |].
  split; [exact Hrun |]. split; [exact Hout |]. by vm_compute.
Defined.

End RemovalInstances.

Section CheckerInstances.

Import Engine App Reading Samples.

Lemma found_deactivates_witness :
  dict_get (dict_at (w_heap world_found) 0%nat) "stop_on_match" (VBool true)
  = VBool true
  ∧ dict_at (w_heap (run_check 0%nat world_found).2) 0%nat !! "status"
    = Some (VStr "found")
  ∧ is_active (w_heap (run_check 0%nat world_found).2) 0%nat = false.
Proof.
  assert (dict_get (dict_at (w_heap world_found) 0%nat) "stop_on_match" (VBool true)
          = VBool true) as Hstop by (vm_compute; reflexivity).
  assert (dict_at (w_heap (run_check 0%nat world_found).2) 0%nat !! "status"
          = Some (VStr "found")) as Hfound by (vm_compute; reflexivity).
  destruct (found_deactivates 0%nat world_found Hstop Hfound) as (_ & _ & Hoff & _).
  split; [exact Hstop |]. split; [exact Hfound | exact Hoff].
Defined.

(** C6 as worded fails: the check collects a match, the webhook cannot
    be delivered, the record ends in the [error] state and stays
    active. *)
Lemma match_found_but_still_active :
  ¬ (∀ item w,
       dict_get (dict_at (w_heap w) item) "stop_on_match" (VBool true) = VBool true →
       found_matches item w ≠ [] →
       is_active (w_heap (run_check item w).2) item = false).
Proof.
  intros H.
  assert (dict_get (dict_at (w_heap world_webhook_down) 0%nat) "stop_on_match"
            (VBool true) = VBool true) as Hstop by (vm_compute; reflexivity).
  assert (found_matches 0%nat world_webhook_down ≠ []) as Hms
    by (vm_compute; discriminate).
  specialize (H 0%nat world_webhook_down Hstop Hms).
  vm_compute in H. discriminate H.
Qed.

Lemma webhook_sent_at_most_once_witness :
  dict_at (w_heap world_found) 0%nat !! "only_one_webhook" = Some (VBool true)
  ∧ dict_at (w_heap world_found) 0%nat !! "webhook_sent" = Some (VBool false)
  ∧ ∃ evs (b' : bool),
      w_log (checks 0%nat 2 world_found) = w_log world_found ++ evs
      ∧ dict_at (w_heap (checks 0%nat 2 world_found)) 0%nat !! "webhook_sent"
        = Some (VBool b')
      ∧ (sends evs + 0 = (if b' then 1 else 0))%nat.
Proof.
  assert (dict_at (w_heap world_found) 0%nat !! "only_one_webhook" = Some (VBool true))
    as Hone by (vm_compute; reflexivity).
  assert (dict_at (w_heap world_found) 0%nat !! "webhook_sent" = Some (VBool false))
    as Hsent by (vm_compute; reflexivity).
  destruct (webhook_sent_at_most_once 0%nat 2 world_found false Hone Hsent)
    as (evs & b' & Hlog & _ & Hsent' & Hsum & _).
  split; [exact Hone |]. split; [exact Hsent |].
  exists evs, b'. split; [exact Hlog |]. split; [exact Hsent' | exact Hsum].
Defined.

Lemma error_outcome_frame_witness :
  dict_at (w_heap (run_check 0%nat world_down).2) 0%nat !! "status"
  = Some (VStr "error")
  ∧ lists (w_heap (run_check 0%nat world_down).2) = lists (w_heap world_down)
  ∧ found_slots (w_heap (run_check 0%nat world_down).2) 0%nat
    = found_slots (w_heap world_down) 0%nat.
Proof.
  assert (dict_at (w_heap (run_check 0%nat world_down).2) 0%nat !! "status"
          = Some (VStr "error")) as Herr by (vm_compute; reflexivity).
  destruct error_outcome_frame as (Hframe & _ & _).
  destruct (Hframe 0%nat world_down Herr) as (_ & _ & Hlists & Hslots).
  split; [exact Herr |]. split; [exact Hlists | exact Hslots].
Defined.

End CheckerInstances.

(** ** More on the registry *)

Section RegistryMore.

Import Engine Reading.

Implicit Types (m : list (string * loc)) (s : sys) (k id : string) (l : loc).

Lemma assoc_get_set k l m k' :
  assoc_get k' (assoc_set k l m)
  = if String.eqb k' k then Some l else assoc_get k' m.
Proof.
  induction m as [| [q lq] m IH]; simpl.
  - rewrite (String.eqb_sym k k'). by destruct (String.eqb k' k).
  - destruct (String.eqb q k) eqn:Hq; simpl.
    + apply String.eqb_eq in Hq as ->.
      rewrite (String.eqb_sym k k'). by destruct (String.eqb k' k).
    + destruct (String.eqb q k') eqn:Hq'; [| exact IH].
      apply String.eqb_eq in Hq' as ->. by rewrite Hq.
Qed.

Lemma assoc_pop_set k l m : assoc_pop k (assoc_set k l m) = assoc_pop k m.
Proof.
  induction m as [| [q lq] m IH]; simpl.
  - by rewrite String.eqb_refl.
  - destruct (String.eqb q k) eqn:Hq; simpl; rewrite Hq; [done |]. by rewrite IH.
Qed.

Lemma assoc_get_none_keys k m : assoc_get k m = None → k ∉ map fst m.
Proof.
  induction m as [| [q lq] m IH]; simpl; intros Hget; [apply not_elem_of_nil |].
  destruct (String.eqb q k) eqn:Hq; [done |].
  apply not_elem_of_cons. split; [| by apply IH].
  apply String.eqb_neq in Hq. congruence.
Qed.

Lemma assoc_set_keys k l m :
  map fst (assoc_set k l m)
  = match assoc_get k m with
    | Some _ => map fst m
    | None => map fst m ++ [k]
    end.
Proof.
  induction m as [| [q lq] m IH]; simpl; [done |].
  destruct (String.eqb q k) eqn:Hq; simpl; [done |].
  rewrite IH. by destruct (assoc_get k m).
Qed.

Lemma assoc_set_elem k l m k' l' :
  (k', l') ∈ assoc_set k l m → (k' = k ∧ l' = l) ∨ (k', l') ∈ m.
Proof.
  induction m as [| [q lq] m IH]; simpl; intros Hin.
  - apply list_elem_of_singleton in Hin as [= -> ->]. by left.
  - destruct (String.eqb q k) eqn:Hq.
    + apply String.eqb_eq in Hq as ->.
      apply elem_of_cons in Hin as [[= -> ->] | Hin]; [by left |].
      right. by apply list_elem_of_further.
    + apply elem_of_cons in Hin as [[= -> ->] | Hin]; [right; apply list_elem_of_here |].
      destruct (IH Hin) as [? | ?]; [by left |]. right. by apply list_elem_of_further.
Qed.

Lemma assoc_pop_keys_sublist id m : map fst (assoc_pop id m) `sublist_of` map fst m.
Proof.
  induction m as [| [q lq] m IH]; simpl; [done |].
  destruct (String.eqb q id); simpl; [by apply sublist_cons | by apply sublist_skip].
Qed.

(** X1.  [add(item)] stores the record under the id it carries: that id
    then looks up the record, every other id looks up what it did, an
    id already present keeps its place in the iteration order and a new
    one goes last, and nothing but the registry changes; removing the
    id afterwards leaves the registry as removing it before would.  A
    record without an [id] raises [KeyError] and the engine is as it
    was. *)
Theorem add_registers item s :
  (∀ k, dict_at (w_heap (s_world s)) item !! "id" = Some (VStr k) →
     ∃ s', add item s = Normal s'
       ∧ assoc_get k (s_monitors s') = Some item
       ∧ (∀ k', k' ≠ k → assoc_get k' (s_monitors s') = assoc_get k' (s_monitors s))
       ∧ map fst (s_monitors s')
         = match assoc_get k (s_monitors s) with
           | Some _ => map fst (s_monitors s)
           | None => map fst (s_monitors s) ++ [k]
           end
       ∧ s' = with_monitors (s_monitors s') s
       ∧ remove k s' = remove k s)
  ∧ (dict_at (w_heap (s_world s)) item !! "id" = None →
     add item s = Raise (mk_exn KeyError "'id'")
     ∧ ∀ checker, step checker (Add item) s = Some s).
Proof.
  split.
  - intros k Hid. unfold add. rewrite Hid.
    eexists. split; [reflexivity |]. simpl.
    split; [by rewrite assoc_get_set, String.eqb_refl |].
    split.
    { intros k' Hne. rewrite assoc_get_set.
      apply String.eqb_neq in Hne. by rewrite Hne. }
    split; [apply assoc_set_keys |].
    split; [done |].
    unfold remove, with_monitors; simpl. by rewrite assoc_pop_set.
  - intros Hid. unfold step, add. by rewrite Hid.
Qed.

Section WithChecker.

Variable checker : loc → M unit.

Hypothesis checker_keeps_ids : keeps_ids checker.

Lemma step_keeps_keyed a s s1 :
  step checker a s = Some s1 →
  keyed s ∧ NoDup (map fst (s_monitors s)) →
  keyed s1 ∧ NoDup (map fst (s_monitors s1)).
Proof.
  intros Hstep [Hkeyed Hnodup].
  pose proof (allocated_keyed s Hkeyed) as Halloc.
  destruct a; simpl in Hstep.
  - (* the worker *)
    injection Hstep as <-. rewrite worker_step_monitors. split; [| done].
    intros k l Hin. rewrite worker_step_monitors in Hin.
    assert (l ∈ values (s_monitors s)) as Hl.
    { unfold values. apply list_elem_of_fmap. by exists (k, l). }
    unfold worker_step.
    destruct (s_worker s) as [| now_ [| item rest] | |] eqn:Hpc; simpl;
      try (by apply Hkeyed).
    + destruct (s_stop s); by apply Hkeyed.
    + pose proof (loop_item_keeps_id checker checker_keeps_ids now_ item (s_world s) l
                    (Halloc l Hl)) as [_ Hid].
      destruct (loop_item checker now_ item (s_world s)) as [[c | e] w]; simpl in *;
        rewrite Hid; by apply Hkeyed.
  - (* add *)
    unfold add in Hstep.
    destruct (dict_at (w_heap (s_world s)) item !! "id") as [v |] eqn:Hid;
      [| by injection Hstep as <-].
    destruct v as [| | | k | | | | |]; try (by injection Hstep as <-).
    injection Hstep as <-. simpl. split.
    + intros k' l' Hin. simpl in Hin |- *.
      apply assoc_set_elem in Hin as [[-> ->] | Hin]; [done | by apply Hkeyed].
    + rewrite assoc_set_keys.
      destruct (assoc_get k (s_monitors s)) eqn:Hget; [done |].
      apply NoDup_app. split; [done |]. split; [| apply NoDup_singleton].
      intros q Hq Hq'. apply list_elem_of_singleton in Hq' as ->.
      by apply (assoc_get_none_keys _ _ Hget).
  - (* remove *)
    injection Hstep as <-. simpl. split.
    + intros k l Hin. apply Hkeyed. exact (assoc_pop_sublist _ _ _ _ Hin).
    + exact (sublist_NoDup _ _ Hnodup (assoc_pop_keys_sublist _ _)).
  - (* list *)
    injection Hstep as <-. unfold list_.
    destruct (copy_all (values (s_monitors s)) (w_heap (s_world s))) as [cs h] eqn:Hcopy.
    simpl. split; [| done]. intros k l Hin. simpl in Hin |- *.
    destruct (copy_all_spec _ _ _ _ Hcopy Halloc) as (_ & Hsame & _).
    unfold dict_at. rewrite Hsame; [by apply Hkeyed |].
    apply Halloc. unfold values. apply list_elem_of_fmap. by exists (k, l).
  - (* set_active *)
    injection Hstep as <-. unfold set_active.
    destruct (assoc_get item_id (s_monitors s)) as [l0 |]; [| done]. simpl.
    split; [| done]. intros k l Hin. simpl in Hin |- *.
    rewrite setitem_id; [by apply Hkeyed | done].
  - destruct (s_caller s); try done; by injection Hstep as <-.
  - unfold stop_return in Hstep. destruct (s_caller s); try done.
    destruct (_ || _); [| done]. by injection Hstep as <-.
Qed.

(** X2.  From a new engine on, through whatever the caller and the worker
    do, every record of the registry is an object that carries the id
    it is registered under, and no id is registered twice, provided the
    checker assigns no [id]. *)
Theorem registry_stays_keyed sched w s :
  run checker sched (init w) = Some s →
  keyed s ∧ NoDup (map fst (s_monitors s)) ∧ allocated s.
Proof.
  assert (∀ s0, run checker sched s0 = Some s →
            keyed s0 ∧ NoDup (map fst (s_monitors s0)) →
            keyed s ∧ NoDup (map fst (s_monitors s))) as Hrun.
  { induction sched as [| a sched IH]; intros s0 Hrun Hinv; simpl in Hrun.
    - by injection Hrun as <-.
    - destruct (step checker a s0) as [s1 |] eqn:Hstep; [| done].
      apply (IH s1 Hrun). by eapply step_keeps_keyed. }
  intros Hs. destruct (Hrun (init w) Hs) as [Hkeyed Hnodup].
  { split; [| constructor]. intros k l Hin. by apply elem_of_nil in Hin. }
  split; [done |]. split; [done |]. by apply allocated_keyed.
Qed.

End WithChecker.

(** X3.  Within one scan the checker is invoked on records of the snapshot
    only, at most once for each entry and in the order of the
    snapshot. *)
Theorem scan_checks_within_snapshot checker now_ items w cs w' :
  for_items checker now_ items w = (Normal cs, w') → cs `sublist_of` items.
Proof.
  revert w cs w'. induction items as [| item rest IH]; intros w cs w' H; simpl in H.
  - by injection H as <- <-.
  - unfold bind, ret in H.
    destruct (loop_item checker now_ item w) as [[c | e] w1]; [| done].
    destruct (for_items checker now_ rest w1) as [[cs1 | e] w2] eqn:Hrest; [| done].
    injection H as <- <-. specialize (IH _ _ _ Hrest).
    destruct c; [by apply sublist_skip | by apply sublist_cons].
Qed.

(** X4.  [set_active(id, False)] pauses a monitor: the poll loop passes over
    its record however overdue it is, and [last_checked] is kept, so
    that [set_active(id, True)] puts it back where it was. *)
Theorem paused_record_is_skipped checker id s l now_ :
  assoc_get id (s_monitors s) = Some l →
  loop_item checker now_ l (s_world (set_active id false s))
  = (Normal false, s_world (set_active id false s))
  ∧ is_active (w_heap (s_world (set_active id true s))) l = true
  ∧ (∀ flag k, k ≠ "active" →
       dict_at (w_heap (s_world (set_active id flag s))) l !! k
       = dict_at (w_heap (s_world s)) l !! k).
Proof.
  intros Hget.
  assert (∀ flag, w_heap (s_world (set_active id flag s))
                  = dict_setitem l "active" (VBool flag) (w_heap (s_world s))) as Hheap.
  { intros flag. unfold set_active. by rewrite Hget. }
  assert (∀ flag, is_active (w_heap (s_world (set_active id flag s))) l = flag) as Hact.
  { intros flag. rewrite Hheap. unfold is_active, dict_get.
    rewrite dict_at_setitem_eq, lookup_insert_eq. by destruct flag. }
  split; [apply loop_item_inactive, Hact |]. split; [apply Hact |].
  intros flag k Hk. rewrite Hheap, dict_at_setitem_eq. by rewrite lookup_insert_ne.
Qed.

(** X5.  Without [stop()], the worker leaves its loop in one way only: on a
    record that is active and whose [last_checked] is true but has no
    [timestamp]; the exception is raised before the checker is called,
    and the records after it in the snapshot are never checked. *)
Theorem worker_exit_cause checker s :
  s_stop s = false →
  s_worker s ≠ Exited →
  (s_worker (worker_step checker s) = Exited
   ↔ ∃ now_ item rest,
       s_worker s = InScan now_ (item :: rest)
       ∧ is_active (w_heap (s_world s)) item = true
       ∧ last_ts (w_heap (s_world s)) item = None)
  ∧ (s_worker (worker_step checker s) = Exited →
     s_world (worker_step checker s) = s_world s
     ∧ s_trace (worker_step checker s) = s_trace s).
Proof.
  intros Hstop Hpc. unfold worker_step.
  destruct (s_worker s) as [| now_ [| item rest] | |] eqn:Hw; try done.
  - rewrite Hstop. simpl. split; [| done].
    split; [done | by intros (? & ? & ? & ? & _)].
  - simpl. split; [| done]. split; [done | by intros (? & ? & ? & ? & _)].
  - destruct (is_active (w_heap (s_world s)) item) eqn:Ha.
    + destruct (last_ts (w_heap (s_world s)) item) as [ts |] eqn:Hts.
      * rewrite (loop_item_active checker _ _ _ _ Ha Hts).
        destruct (Z.leb _ _); simpl; (split; [| done]);
          (split; [done |]); intros (? & ? & ? & [= <- <- <-] & _ & ?); congruence.
      * destruct (loop_item_crash checker now_ _ _ Ha Hts) as [e ->]. simpl.
        split; [| done]. split; [| done]. intros _. by exists now_, item, rest.
    + rewrite (loop_item_inactive checker _ _ _ Ha). simpl. split; [| done].
      split; [done |]. intros (? & ? & ? & [= <- <- <-] & ? & _). congruence.
  - simpl. split; [| done]. split; [done | by intros (? & ? & ? & ? & _)].
Qed.

End RegistryMore.

(** ** More on the checker *)

Section CheckerMore.

Import Engine App Reading Checking.

Implicit Types (w : world) (item : loc) (h : heap).

Ltac map_lookups :=
  repeat first [rewrite lookup_insert_eq | rewrite lookup_insert_ne by done].

Lemma result_heap_frame item w :
  let h := w_heap w in
  let h' := w_heap (run_check item w).2 in
  (∀ other, other ≠ item → dict_at h' other = dict_at h other)
  ∧ (∀ l, is_Some (lists h !! l) → lists h' !! l = lists h !! l)
  ∧ (∀ k, k ∉ result_fields → dict_at h' item !! k = dict_at h item !! k)
  ∧ (∀ l, is_Some (dicts h !! l) → is_Some (dicts h' !! l)).
Proof.
  intros h h'. subst h'.
  destruct (run_check_cases item w) as (_ & evs & h1 & _ & -> & Hcases).
  fold h in Hcases.
  assert (∀ k, k ∉ result_fields →
            "status" ≠ k ∧ "status_msg" ≠ k ∧ "found_slots" ≠ k ∧ "error" ≠ k
            ∧ "active" ≠ k ∧ "webhook_sent" ≠ k ∧ "last_checked" ≠ k) as Hkeys.
  { intros k Hk. unfold result_fields in Hk.
    repeat (apply not_elem_of_cons in Hk as [? Hk]). by repeat split. }
  assert (∀ h0 l, is_Some (lists h0 !! l) →
            <[fresh (dom (lists h0)) := @nil value]> (lists h0) !! l = lists h0 !! l)
    as Hfresh0.
  { intros h0 l [x Hx]. rewrite lookup_insert_ne; [done |].
    intros <-. by rewrite fresh_list_unused in Hx. }
  assert (∀ h0 ms l, is_Some (lists h0 !! l) →
            <[fresh (dom (lists h0)) := map VJson ms]> (lists h0) !! l = lists h0 !! l)
    as Hfresh.
  { intros h0 ms l [x Hx]. rewrite lookup_insert_ne; [done |].
    intros <-. by rewrite fresh_list_unused in Hx. }
  assert (∀ h0 ms l, is_Some (dicts h0 !! l) →
            is_Some (dicts (found_heap item ms h0) !! l)) as Hfound_alloc.
  { intros h0 ms l Hl. unfold found_heap.
    destruct (truthy _ _); repeat apply setitem_alloc; simpl;
      by repeat apply setitem_alloc. }
  assert (∀ h0 ms k, k ∉ result_fields →
            dict_at (found_heap item ms h0) item !! k = dict_at h0 item !! k) as Hfound_k.
  { intros h0 ms k Hk. destruct (Hkeys k Hk) as (? & ? & ? & ? & ? & ? & ?).
    destruct (found_heap_item item ms h0) as (h4 & _ & ->).
    destruct (truthy h4 _); by map_lookups. }
  destruct Hcases as [(msg & err & _ & -> & _) | [(msg & _ & -> & _) |
    [(_ & _ & _ & -> & _) | (_ & _ & _ & -> & _)]]].
  - split; [intros other Hne; rewrite dict_at_setitem_ne by done;
            by apply error_heap_other |].
    split; [done |]. split.
    + intros k Hk. destruct (Hkeys k Hk) as (? & ? & ? & ? & ? & ? & ?).
      rewrite dict_at_setitem_eq, error_heap_item. by map_lookups.
    + intros l Hl. unfold error_heap. by repeat apply setitem_alloc.
  - split; [intros other Hne; rewrite dict_at_setitem_ne by done;
            by apply none_heap_other |].
    split; [intros l Hl; rewrite lists_setitem, none_heap_lists; by apply Hfresh0 |].
    split.
    + intros k Hk. destruct (Hkeys k Hk) as (? & ? & ? & ? & ? & ? & ?).
      rewrite dict_at_setitem_eq, none_heap_item. by map_lookups.
    + intros l Hl. unfold none_heap. repeat apply setitem_alloc. simpl.
      by repeat apply setitem_alloc.
  - split; [intros other Hne; rewrite dict_at_setitem_ne by done;
            by apply found_heap_other |].
    split; [intros l Hl; rewrite lists_setitem, found_heap_lists; by apply Hfresh |].
    split.
    + intros k Hk. destruct (Hkeys k Hk) as (? & ? & ? & ? & ? & ? & ?).
      rewrite dict_at_setitem_eq, lookup_insert_ne by done. by apply Hfound_k.
    + intros l Hl. by apply setitem_alloc, Hfound_alloc.
  - split.
    { intros other Hne. rewrite dict_at_setitem_ne by done.
      rewrite found_heap_other by done. by rewrite dict_at_setitem_ne. }
    split.
    { intros l Hl. rewrite lists_setitem, found_heap_lists.
      exact (Hfresh (dict_setitem item "webhook_sent" (VBool true) h) _ l Hl). }
    split.
    + intros k Hk. destruct (Hkeys k Hk) as (? & ? & ? & ? & ? & ? & ?).
      rewrite dict_at_setitem_eq, lookup_insert_ne by done.
      rewrite Hfound_k by done. rewrite dict_at_setitem_eq. by map_lookups.
    + intros l Hl. by apply setitem_alloc, Hfound_alloc, setitem_alloc.
Qed.


(** X6.  [run_check] works on its own record: whatever the outcome, every
    other dict and every list that existed is as it was, and of its
    record only [status], [status_msg], [found_slots], [error],
    [active], [webhook_sent] and [last_checked] can differ. *)
Theorem run_check_touches_own_record item w :
  let h := w_heap w in
  let h' := w_heap (run_check item w).2 in
  (∀ other, other ≠ item → dict_at h' other = dict_at h other)
  ∧ (∀ l, is_Some (lists h !! l) → lists h' !! l = lists h !! l)
  ∧ (∀ k, k ∉ result_fields → dict_at h' item !! k = dict_at h item !! k).
Proof.
  intros h h'. destruct (result_heap_frame item w) as (H1 & H2 & H3 & _). by repeat split.
Qed.

Lemma run_check_keeps_ids : keeps_ids run_check.
Proof.
  intros item w l Hl.
  destruct (result_heap_frame item w) as (Hother & _ & Hkeys & Halloc).
  split; [by apply Halloc |].
  destruct (decide (l = item)) as [-> | Hne]; [| by rewrite Hother].
  apply Hkeys. unfold result_fields.
  repeat (apply not_elem_of_cons; split; [done |]). apply not_elem_of_nil.
Qed.

(** X7.  When [only_one_webhook] is false and a check collects a match, the
    call of [sendWebhook] on line 188 passes six arguments for seven
    parameters: no webhook is sent, the check ends in the [error]
    state, and [active] and [found_slots] are as they were. *)
Theorem every_slot_branch_never_sends item w :
  let h := w_heap w in
  let w' := (run_check item w).2 in
  only_one h item = false →
  found_matches item w ≠ [] →
  ∃ evs, w_log w' = w_log w ++ evs
    ∧ attempts evs = 0%nat
    ∧ dict_at (w_heap w') item !! "status" = Some (VStr "error")
    ∧ dict_at (w_heap w') item !! "active" = dict_at h item !! "active"
    ∧ dict_at (w_heap w') item !! "webhook_sent" = dict_at h item !! "webhook_sent"
    ∧ found_slots (w_heap w') item = found_slots h item.
Proof.
  intros h w' Hone Hms. subst w'.
  destruct (run_check_cases item w) as (_ & evs & h1 & Hlog & Hheap & Hcases).
  fold h in Hcases. exists evs. split; [done |]. rewrite Hheap.
  destruct Hcases as [(msg & err & _ & -> & _ & _ & Hzero) | [(msg & Hnone & _) |
    [(_ & Hone' & _) | (_ & Hone' & _)]]]; try congruence.
  split; [apply Hzero; by left |].
  rewrite found_slots_stamped, !stamped_lookup. simpl.
  unfold found_slots. rewrite error_heap_item. by map_lookups.
Qed.

(** X8.  A record just checked waits: after [run_check], and after the
    failure boundary of the loop, the record is not passed to the
    checker again while less than 120 seconds have gone by on the
    clock, however often the loop scans. *)
Theorem checked_record_waits checker item now_ :
  (∀ w w2, w_heap w2 = w_heap (run_check item w).2 →
     now_ - w_clock (run_check item w).2 < POLL_INTERVAL_SEC →
     loop_item checker now_ item w2 = (Normal false, w2))
  ∧ (∀ e w1 w2, w_heap w2 = w_heap (failed item e w1) →
       now_ - w_clock w1 < POLL_INTERVAL_SEC →
       loop_item checker now_ item w2 = (Normal false, w2)).
Proof.
  assert (∀ w2 t, dict_at (w_heap w2) item !! "last_checked" = Some (VDatetime t) →
            now_ - t < POLL_INTERVAL_SEC →
            loop_item checker now_ item w2 = (Normal false, w2)) as Hwait.
  { intros w2 t Hlast Hlt.
    destruct (is_active (w_heap w2) item) eqn:Ha; [| by apply loop_item_inactive].
    rewrite (loop_item_active checker _ _ _ _ Ha (last_ts_datetime _ _ _ Hlast)).
    apply Z.leb_gt in Hlt. by rewrite Hlt. }
  split.
  - intros w w2 Hw2 Hlt. apply (Hwait w2 (w_clock (run_check item w).2)); [| done].
    rewrite Hw2.
    destruct (run_check_cases item w) as (_ & evs & h1 & _ & -> & _).
    by rewrite stamped_lookup.
  - intros e w1 w2 Hw2 Hlt. apply (Hwait w2 (w_clock w1)); [| done].
    rewrite Hw2. unfold failed; simpl. by rewrite dict_at_setitem_eq, lookup_insert_eq.
Qed.

Lemma calendar_pass_ready item w venue_id party_size start_ end_ :
  ready (w_heap w) item venue_id party_size start_ end_ →
  calendar_pass item w
  = match r_result (w_tape w (w_cursor w)) with
    | Normal cal =>
        (calendar_dates cal, (get_calendar venue_id party_size start_ end_ w).2)
    | Raise e => (Raise e, (get_calendar venue_id party_size start_ end_ w).2)
    end.
Proof.
  intros (Hs & He & Hv & Hp).
  unfold calendar_pass, bind, item_getitem, strftime_date, ret, get_calendar, call, lift,
    calendar_dates.
  repeat (first [rewrite Hs | rewrite He | rewrite Hv | rewrite Hp]; simpl).
  destruct (r_result (w_tape w (w_cursor w))) as [cal | e]; [| done].
  destruct (py_get cal "scheduled" (JArr [])) as [scheduled | e]; [| done].
  by destruct (py_iter scheduled).
Qed.

(** X9.  When the calendar reports no available date the check stops
    there: one calendar call and nothing else leaves the process, no
    [/4/find], no webhook, and the record says [none], "Nothing
    available (calendar)", with [found_slots] empty. *)
Theorem empty_calendar_stops_check item w venue_id party_size start_ end_ dt cal :
  ready (w_heap w) item venue_id party_size start_ end_ →
  w_tape w (w_cursor w) = Reply dt (Normal cal) →
  calendar_dates cal = Normal [] →
  let w' := (run_check item w).2 in
  w_log w' = w_log w ++ [EvCalendar venue_id party_size start_ end_]
  ∧ w_cursor w' = S (w_cursor w)
  ∧ w_clock w' = w_clock w + dt
  ∧ dict_at (w_heap w') item !! "status" = Some (VStr "none")
  ∧ dict_at (w_heap w') item !! "status_msg"
    = Some (VStr "Nothing available (calendar)")
  ∧ dict_at (w_heap w') item !! "last_checked" = Some (VDatetime (w_clock w + dt))
  ∧ found_slots (w_heap w') item = [].
Proof.
  intros Hready Hreply Hdates w'. subst w'.
  pose proof (calendar_pass_ready _ _ _ _ _ _ Hready) as Hcal.
  rewrite Hreply in Hcal. simpl in Hcal. rewrite Hdates in Hcal.
  rewrite run_check_unfold, run_check_try_unfold, Hcal, set_none_spec.
  unfold get_calendar, call, stamped, with_heap. rewrite Hreply. simpl.
  rewrite found_slots_stamped, !stamped_lookup. simpl.
  rewrite found_slots_none, none_heap_item. by map_lookups.
Qed.

(** X10.  What [_request] raises comes out on the record.  An upstream HTTP
    error gives [status_msg] "API error <code>" and as [error] the body
    of the response, or "Upstream error <code>" when the body is empty;
    a network error gives "API error" and the text of the underlying
    exception, or "Network error" when that is empty. *)
Theorem client_errors_are_reported item w venue_id party_size start_ end_ dt :
  ready (w_heap w) item venue_id party_size start_ end_ →
  let w' := (run_check item w).2 in
  (∀ status body,
     w_tape w (w_cursor w) = Reply dt (Raise (Client.upstream_error status body)) →
     status ≠ 0 →
     dict_at (w_heap w') item !! "status" = Some (VStr "error")
     ∧ dict_at (w_heap w') item !! "status_msg"
       = Some (VStr ("API error " +:+ pretty status))
     ∧ dict_at (w_heap w') item !! "error"
       = Some (VStr (if String.eqb body "" then "Upstream error " +:+ pretty status
                     else body))
     ∧ w_log w' = w_log w ++ [EvCalendar venue_id party_size start_ end_])
  ∧ (∀ msg,
       w_tape w (w_cursor w) = Reply dt (Raise (Client.network_error msg)) →
       dict_at (w_heap w') item !! "status" = Some (VStr "error")
       ∧ dict_at (w_heap w') item !! "status_msg" = Some (VStr "API error")
       ∧ dict_at (w_heap w') item !! "error"
         = Some (VStr (if String.eqb msg "" then "Network error" else msg))
       ∧ w_log w' = w_log w ++ [EvCalendar venue_id party_size start_ end_]).
Proof.
  intros Hready w'. subst w'.
  pose proof (calendar_pass_ready _ _ _ _ _ _ Hready) as Hcal.
  split.
  - intros status body Hreply Hstatus.
    rewrite Hreply in Hcal. simpl in Hcal.
    rewrite run_check_unfold, run_check_try_unfold, Hcal.
    unfold get_calendar, call. rewrite Hreply.
    unfold on_error, error_text, bind, item_setitem, modify_heap, is_truthy, ret,
      stamped, with_heap, dict_get, api_error_msg; simpl.
    apply Z.eqb_neq in Hstatus. rewrite Hstatus.
    rewrite lookup_singleton_eq. simpl.
    destruct (String.eqb body "") eqn:Hbody; simpl.
    + rewrite lookup_singleton_ne by done. simpl.
      rewrite !dict_at_setitem_eq. by map_lookups.
    + rewrite !dict_at_setitem_eq. by map_lookups.
  - intros msg Hreply.
    rewrite Hreply in Hcal. simpl in Hcal.
    rewrite run_check_unfold, run_check_try_unfold, Hcal.
    unfold get_calendar, call. rewrite Hreply.
    unfold on_error, error_text, bind, item_setitem, modify_heap, is_truthy, ret,
      stamped, with_heap, dict_get, api_error_msg; simpl.
    rewrite lookup_singleton_ne by done. simpl. rewrite lookup_singleton_eq. simpl.
    destruct (String.eqb msg "") eqn:Hmsg; simpl;
      rewrite !dict_at_setitem_eq; by map_lookups.
Qed.

(** X11.  A [ResyClientError] from [client.find] costs the date it was
    raised for and nothing else: the loop over the dates goes on with
    the matches it had; any other exception ends it. *)
Theorem failing_date_is_skipped item date_str rest ms w venue_id party_size dt e :
  dict_at (w_heap w) item !! "venue_id" = Some venue_id →
  dict_at (w_heap w) item !! "party_size" = Some party_size →
  w_tape w (w_cursor w) = Reply dt (Raise e) →
  for_dates item (date_str :: rest) ms w
  = if is_resy_error e
    then for_dates item rest ms (find venue_id party_size date_str w).2
    else (Raise e, (find venue_id party_size date_str w).2).
Proof.
  intros Hv Hp Hreply. simpl.
  unfold bind at 1, try_except, date_body. unfold bind at 1 2 3 4 5.
  unfold item_getitem.
  repeat (first [rewrite Hv | rewrite Hp]; simpl).
  unfold find, call. rewrite Hreply. simpl.
  destruct (is_resy_error e); [| done]. unfold ret. done.
Qed.

End CheckerMore.



(** ** The client *)

Section ClientFacts.

Import Client Retrying.

Implicit Types (n : net) (evs : list net_event).

Lemma requests_app evs1 evs2 : requests (evs1 ++ evs2) = (requests evs1 + requests evs2)%nat.
Proof. unfold requests. by rewrite List.filter_app, length_app. Qed.

Lemma sleeps_app evs1 evs2 : sleeps (evs1 ++ evs2) = (sleeps evs1 + sleeps evs2)%nat.
Proof. unfold sleeps. by rewrite List.filter_app, length_app. Qed.

Lemma attempts_from_spec remaining : ∀ attempt max_retries last m u p n r n',
  (attempt + remaining = S max_retries)%nat →
  attempts_from remaining attempt max_retries last m u p n = (r, n') →
  n_tape n' = n_tape n
  ∧ ∃ evs, n_log n' = n_log n ++ evs
      ∧ (requests evs ≤ remaining)%nat
      ∧ n_cursor n' = (n_cursor n + requests evs)%nat
      ∧ ((1 ≤ remaining)%nat →
         (1 ≤ requests evs)%nat ∧ (sleeps evs + 1 = requests evs)%nat)
      ∧ match r with
        | Normal resp =>
            (status_code resp < 400)%Z
            ∧ n_tape n (n_cursor n' - 1)%nat
              = Response (status_code resp) (text resp) (json_ resp)
        | Raise e =>
            (remaining = 0%nat ∧ e = network_error last)
            ∨ ((1 ≤ remaining)%nat
               ∧ match n_tape n (n_cursor n' - 1)%nat with
                 | Response status body _ =>
                     e = upstream_error status body ∧ (400 ≤ status)%Z
                     ∧ (retryable status = true → requests evs = remaining)
                 | Timeout msg | ConnectionError msg =>
                     e = network_error msg ∧ requests evs = remaining
                 | Failure e' => e = e'
                 end)
        end.
Proof.
  induction remaining as [| remaining IH]; intros attempt max_retries last m u p n r n' Hsum Hrun;
    simpl in Hrun.
  - injection Hrun as <- <-. split; [done |]. exists [].
    rewrite app_nil_r. repeat split; try done; try lia. by left.
  - assert (∀ last' r n',
              Nat.ltb attempt max_retries = true →
              attempts_from remaining (S attempt) max_retries last' m u p
                (slept attempt (sent m u p attempt n)) = (r, n') →
              n_tape n' = n_tape n
              ∧ ∃ evs, n_log n' = n_log n ++ evs
                  ∧ (requests evs ≤ S remaining)%nat
                  ∧ n_cursor n' = (n_cursor n + requests evs)%nat
                  ∧ ((1 ≤ S remaining)%nat →
                     (1 ≤ requests evs)%nat ∧ (sleeps evs + 1 = requests evs)%nat)
                  ∧ match r with
                    | Normal resp =>
                        (status_code resp < 400)%Z
                        ∧ n_tape n (n_cursor n' - 1)%nat
                          = Response (status_code resp) (text resp) (json_ resp)
                    | Raise e =>
                        (S remaining = 0%nat ∧ e = network_error last)
                        ∨ ((1 ≤ S remaining)%nat
                           ∧ match n_tape n (n_cursor n' - 1)%nat with
                             | Response status body _ =>
                                 e = upstream_error status body ∧ (400 ≤ status)%Z
                                 ∧ (retryable status = true → requests evs = S remaining)
                             | Timeout msg | ConnectionError msg =>
                                 e = network_error msg ∧ requests evs = S remaining
                             | Failure e' => e = e'
                             end)
                    end) as Hretry.
    { intros last' r0 n0 Hlt Hrec. apply Nat.ltb_lt in Hlt.
      destruct (IH (S attempt) max_retries last' m u p _ r0 n0 ltac:(lia) Hrec)
        as (Htape & evs & Hlog & Hreq & Hcur & Hpos & Hres).
      simpl in Htape, Hlog, Hcur.
      assert (1 ≤ remaining)%nat as Hrem by lia.
      destruct (Hpos Hrem) as [Hone Hsl].
      split; [done |].
      exists ([Requested m u p attempt; Slept attempt] ++ evs).
      rewrite requests_app, sleeps_app.
      change (requests [Requested m u p attempt; Slept attempt]) with 1%nat.
      change (sleeps [Requested m u p attempt; Slept attempt]) with 1%nat.
      rewrite Hlog, <- !app_assoc. simpl app.
      split; [done |]. split; [lia |]. split; [lia |]. split; [lia |].
      destruct r0 as [resp | e].
      - destruct Hres as [Hst Hlast]. split; [done |]. simpl in Hlast. exact Hlast.
      - right. split; [lia |]. destruct Hres as [[-> _] | [_ Hres]]; [lia |].
        simpl in Hres.
        destruct (n_tape n (n_cursor n0 - 1)%nat) as [status body js | msg | msg | e'];
          try done.
        + destruct Hres as (-> & Hge & Hall). repeat split; try done.
          intros Hr. specialize (Hall Hr). lia.
        + destruct Hres as [-> Hall]. split; [done | lia].
        + destruct Hres as [-> Hall]. split; [done | lia]. }
    assert (∀ r0, (r0, sent m u p attempt n) = (r, n') →
              n_tape n' = n_tape n
              ∧ n_log n' = n_log n ++ [Requested m u p attempt]
              ∧ n_cursor n' = (n_cursor n + 1)%nat
              ∧ r = r0
              ∧ (n_cursor n' - 1)%nat = n_cursor n) as Hstop.
    { intros r0 [= <- <-]. simpl. repeat split; try done; lia. }
    destruct (n_tape n (n_cursor n)) as [status body js | msg | msg | e'] eqn:Hreply.
    + destruct (Z.geb status 400) eqn:Hge.
      * destruct (retryable status && Nat.ltb attempt max_retries) eqn:Hre.
        -- apply andb_true_iff in Hre as [_ Hlt]. by apply (Hretry last).
        -- destruct (Hstop _ Hrun) as (Htape & Hlog & Hcur & -> & Hlast).
           split; [done |]. exists [Requested m u p attempt].
           split; [done |]. split; [unfold requests; simpl; lia |]. split; [unfold requests; simpl; lia |]. split; [unfold requests, sleeps; simpl; lia |].
           right. split; [lia |]. rewrite Hlast, Hreply.
           rewrite Z.geb_leb in Hge. apply Z.leb_le in Hge.
           repeat split; try done. intros Hr. rewrite Hr in Hre. simpl in Hre.
           apply Nat.ltb_ge in Hre. unfold requests; simpl. lia.
      * destruct (Hstop _ Hrun) as (Htape & Hlog & Hcur & -> & Hlast).
        split; [done |]. exists [Requested m u p attempt].
        split; [done |]. split; [unfold requests; simpl; lia |]. split; [unfold requests; simpl; lia |]. split; [unfold requests, sleeps; simpl; lia |].
        simpl. rewrite Hlast, Hreply. split; [| done].
        rewrite Z.geb_leb in Hge. apply Z.leb_gt in Hge. lia.
    + destruct (Nat.ltb attempt max_retries) eqn:Hlt; [by apply (Hretry msg) |].
      destruct (Hstop _ Hrun) as (Htape & Hlog & Hcur & -> & Hlast).
      split; [done |]. exists [Requested m u p attempt].
      split; [done |]. split; [unfold requests; simpl; lia |]. split; [unfold requests; simpl; lia |]. split; [unfold requests, sleeps; simpl; lia |].
      right. split; [lia |]. rewrite Hlast, Hreply. split; [done |].
      apply Nat.ltb_ge in Hlt. unfold requests; simpl. lia.
    + destruct (Nat.ltb attempt max_retries) eqn:Hlt; [by apply (Hretry msg) |].
      destruct (Hstop _ Hrun) as (Htape & Hlog & Hcur & -> & Hlast).
      split; [done |]. exists [Requested m u p attempt].
      split; [done |]. split; [unfold requests; simpl; lia |]. split; [unfold requests; simpl; lia |]. split; [unfold requests, sleeps; simpl; lia |].
      right. split; [lia |]. rewrite Hlast, Hreply. split; [done |].
      apply Nat.ltb_ge in Hlt. unfold requests; simpl. lia.
    + destruct (Hstop _ Hrun) as (Htape & Hlog & Hcur & -> & Hlast).
      split; [done |]. exists [Requested m u p attempt].
      split; [done |]. split; [unfold requests; simpl; lia |]. split; [unfold requests; simpl; lia |]. split; [unfold requests, sleeps; simpl; lia |].
      right. split; [lia |]. by rewrite Hlast, Hreply.
Qed.


Lemma attempts_from_all_to remaining : ∀ attempt max_retries last m u p n,
  ∃ evs, n_log (attempts_from remaining attempt max_retries last m u p n).2 = n_log n ++ evs
    ∧ all_to m u p evs.
Proof.
  induction remaining as [| remaining IH]; intros attempt max_retries last m u p n; simpl.
  - exists []. rewrite app_nil_r. split; [done |]. intros ? ? ? ? H. by apply elem_of_nil in H.
  - assert (all_to m u p [Requested m u p attempt]) as Hone.
    { intros ? ? ? ? H. apply list_elem_of_singleton in H. by injection H as -> -> -> _. }
    assert (∀ last', ∃ evs,
              n_log (attempts_from remaining (S attempt) max_retries last' m u p
                       (slept attempt (sent m u p attempt n))).2 = n_log n ++ evs
              ∧ all_to m u p evs) as Hretry.
    { intros last'.
      destruct (IH (S attempt) max_retries last' m u p (slept attempt (sent m u p attempt n)))
        as (evs & Hlog & Hall).
      exists ([Requested m u p attempt; Slept attempt] ++ evs). split.
      - rewrite Hlog. simpl. by rewrite <- !app_assoc.
      - intros m' u' p' a H. apply elem_of_app in H as [H | H]; [| by apply (Hall _ _ _ a)].
        apply elem_of_cons in H as [H | H]; [by injection H as -> -> -> _ |].
        apply list_elem_of_singleton in H. done. }
    destruct (n_tape n (n_cursor n)) as [status body js | msg | msg | e'].
    + destruct (Z.geb status 400); [| by exists [Requested m u p attempt]].
      destruct (retryable status && Nat.ltb attempt max_retries);
        [apply Hretry | by exists [Requested m u p attempt]].
    + destruct (Nat.ltb attempt max_retries);
        [apply Hretry | by exists [Requested m u p attempt]].
    + destruct (Nat.ltb attempt max_retries);
        [apply Hretry | by exists [Requested m u p attempt]].
    + by exists [Requested m u p attempt].
Qed.

Lemma attempts_from_settles k : ∀ remaining attempt max_retries last m u p n,
  (k < remaining)%nat →
  (attempt + remaining = S max_retries)%nat →
  (∀ i, (i < k)%nat → retried (n_tape n (n_cursor n + i)%nat) = true) →
  retried (n_tape n (n_cursor n + k)%nat) = false ∨ remaining = S k →
  (attempts_from remaining attempt max_retries last m u p n).1
  = settle (n_tape n (n_cursor n + k)%nat)
  ∧ n_cursor (attempts_from remaining attempt max_retries last m u p n).2
    = (n_cursor n + S k)%nat.
Proof.
  induction k as [| k IH]; intros remaining attempt max_retries last m u p n Hk Hsum Hretried Hstop.
  - destruct remaining as [| remaining]; [lia |]. simpl.
    rewrite Nat.add_0_r in *.
    destruct (n_tape n (n_cursor n)) as [status body js | msg | msg | e']; simpl in *.
    + destruct (Z.geb status 400); simpl in *; [| split; [done | lia]].
      destruct Hstop as [-> | Hlast]; simpl; [split; [done | lia] |].
      assert (Nat.ltb attempt max_retries = false) as -> by (apply Nat.ltb_ge; lia).
      rewrite andb_false_r. simpl. split; [done | lia].
    + destruct Hstop as [? | Hlast]; [done |].
      assert (Nat.ltb attempt max_retries = false) as -> by (apply Nat.ltb_ge; lia).
      simpl. split; [done | lia].
    + destruct Hstop as [? | Hlast]; [done |].
      assert (Nat.ltb attempt max_retries = false) as -> by (apply Nat.ltb_ge; lia).
      simpl. split; [done | lia].
    + split; [done | lia].
  - destruct remaining as [| remaining]; [lia |]. simpl.
    assert (Nat.ltb attempt max_retries = true) as Hlt by (apply Nat.ltb_lt; lia).
    pose proof (Hretried 0%nat ltac:(lia)) as Hfirst. rewrite Nat.add_0_r in Hfirst.
    assert (∀ last',
              (attempts_from remaining (S attempt) max_retries last' m u p
                 (slept attempt (sent m u p attempt n))).1
              = settle (n_tape n (n_cursor n + S k)%nat)
              ∧ n_cursor (attempts_from remaining (S attempt) max_retries last' m u p
                            (slept attempt (sent m u p attempt n))).2
                = (n_cursor n + S (S k))%nat) as Hrec.
    { intros last'.
      destruct (IH remaining (S attempt) max_retries last' m u p
                  (slept attempt (sent m u p attempt n))) as [Hres Hcur].
      - lia.
      - lia.
      - intros i Hi. simpl. rewrite <- Nat.add_succ_r. apply Hretried. lia.
      - simpl. rewrite <- Nat.add_succ_r.
        destruct Hstop as [? | ?]; [by left | right; lia].
      - simpl in Hres, Hcur. rewrite <- Nat.add_succ_r in Hres.
        split; [done | lia]. }
    destruct (n_tape n (n_cursor n)) as [status body js | msg | msg | e']; simpl in Hfirst.
    + apply andb_true_iff in Hfirst as [-> ->]. rewrite Hlt. simpl. apply Hrec.
    + rewrite Hlt. apply Hrec.
    + rewrite Hlt. apply Hrec.
    + done.
Qed.

(** X12.  [_request] makes at most [max_retries] requests, all of them the
    one it was asked for, and sleeps between two requests and nowhere
    else.  It returns a response only when the status is below 400.
    When it raises, the last reply tells what: an HTTP status of 400 or
    more gives [ResyClientError("Upstream error <status>")] with the
    body, for a retryable status only once [max_retries] requests are
    used up; a timeout or a lost connection gives
    [ResyClientError("Network error")], only after [max_retries]
    requests; any other exception of the session goes through as it is.
    With [max_retries = 0] nothing is sent and the error reads
    "None". *)
Theorem request_outcome max_retries m u p n r n' :
  _request max_retries m u p n = (r, n') →
  n_tape n' = n_tape n
  ∧ ∃ evs, n_log n' = n_log n ++ evs
      ∧ all_to m u p evs
      ∧ (requests evs ≤ max_retries)%nat
      ∧ n_cursor n' = (n_cursor n + requests evs)%nat
      ∧ sleeps evs = (requests evs - 1)%nat
      ∧ match r with
        | Normal resp =>
            (status_code resp < 400)%Z
            ∧ n_tape n (n_cursor n' - 1)%nat
              = Response (status_code resp) (text resp) (json_ resp)
        | Raise e =>
            (max_retries = 0%nat ∧ e = network_error "None" ∧ n' = n)
            ∨ ((1 ≤ max_retries)%nat
               ∧ match n_tape n (n_cursor n' - 1)%nat with
                 | Response status body _ =>
                     e = upstream_error status body ∧ (400 ≤ status)%Z
                     ∧ (retryable status = true → requests evs = max_retries)
                 | Timeout msg | ConnectionError msg =>
                     e = network_error msg ∧ requests evs = max_retries
                 | Failure e' => e = e'
                 end)
        end.
Proof.
  intros Hrun. unfold _request in Hrun.
  destruct (attempts_from_spec max_retries 1 max_retries "None" m u p n r n' ltac:(lia) Hrun)
    as (Htape & evs & Hlog & Hreq & Hcur & Hpos & Hres).
  destruct (attempts_from_all_to max_retries 1 max_retries "None" m u p n)
    as (evs' & Hlog' & Hall).
  rewrite Hrun in Hlog'. simpl in Hlog'. rewrite Hlog in Hlog'.
  apply app_inv_head in Hlog' as <-.
  split; [done |]. exists evs.
  split; [done |]. split; [done |]. split; [done |]. split; [done |].
  split.
  { destruct max_retries as [| k].
    - simpl in Hrun. injection Hrun as <- <-.
      rewrite <- (app_nil_r (n_log n)) in Hlog at 1. by apply app_inv_head in Hlog as <-.
    - destruct (Hpos ltac:(lia)). lia. }
  destruct r as [resp | e]; [done |].
  destruct Hres as [[-> ->] | Hres]; [| by right].
  left. simpl in Hrun. by injection Hrun as <-.
Qed.

(** X13.  Which reply settles a call: [_request] goes past every reply that
    is a retryable failure (429, 500, 502, 503, 504, a timeout, a lost
    connection) and stops at the first reply that is not, or at reply
    number [max_retries]; the outcome is that reply's, and one request
    was made per reply seen. *)
Theorem request_settles_at max_retries k m u p n :
  (k < max_retries)%nat →
  (∀ i, (i < k)%nat → retried (n_tape n (n_cursor n + i)%nat) = true) →
  retried (n_tape n (n_cursor n + k)%nat) = false ∨ max_retries = S k →
  (_request max_retries m u p n).1 = settle (n_tape n (n_cursor n + k)%nat)
  ∧ n_cursor (_request max_retries m u p n).2 = (n_cursor n + S k)%nat.
Proof.
  intros Hk Hretried Hstop. unfold _request.
  apply attempts_from_settles; first [done | lia].
Qed.

(** X14.  [lookup_venue] returns only JSON that holds an [id]: the data of a
    response below 400 to a GET of [/3/venue] with the two slugs, after
    at most [max_retries] requests. *)
Theorem lookup_venue_has_id max_retries city_slug venue_slug n data n' :
  lookup_venue max_retries city_slug venue_slug n = (Normal data, n') →
  lacks_id data = Normal false
  ∧ ∃ status body evs,
      (status < 400)%Z
      ∧ n_tape n (n_cursor n' - 1)%nat = Response status body (Normal data)
      ∧ n_log n' = n_log n ++ evs
      ∧ (1 ≤ requests evs ≤ max_retries)%nat
      ∧ all_to "GET" "https://api.resy.com/3/venue"
          [("url_slug", VStr venue_slug); ("location", VStr city_slug)] evs.
Proof.
  unfold lookup_venue. intros Hrun.
  destruct (_request max_retries "GET" "https://api.resy.com/3/venue"
              [("url_slug", VStr venue_slug); ("location", VStr city_slug)] n)
    as [[resp | e] n1] eqn:Hreq; [| done].
  destruct (json_ resp) as [data' | e] eqn:Hjson; [| done].
  destruct (lacks_id data') as [[|] | e] eqn:Hid; try done.
  injection Hrun as <- <-. split; [done |].
  destruct max_retries as [| k]; [done |].
  unfold _request in Hreq.
  destruct (attempts_from_spec (S k) 1 (S k) "None" _ _ _ n _ _ ltac:(lia) Hreq)
    as (Htape & evs & Hlog & Hle & Hcur & Hpos & Hlt & Hlast).
  destruct (attempts_from_all_to (S k) 1 (S k) "None" "GET" "https://api.resy.com/3/venue"
              [("url_slug", VStr venue_slug); ("location", VStr city_slug)] n)
    as (evs' & Hlog' & Hall).
  rewrite Hreq in Hlog'. simpl in Hlog'. rewrite Hlog in Hlog'.
  apply app_inv_head in Hlog' as <-.
  exists (status_code resp), (text resp), evs.
  split; [done |]. split; [by rewrite Hlast, Hjson |]. split; [done |].
  split; [| done]. destruct (Hpos ltac:(lia)). lia.
Qed.

End ClientFacts.

(** ** The helpers of the page *)

Section UiFacts.

Import Engine App Reading Ui.

Lemma round_trip_table :
  forallb (fun h => forallb (fun m =>
    match to_24h_hhmm (time_12 (h, m)), strptime_HM (two_digits h +:+ ":" +:+ two_digits m) with
    | Normal t24, Normal (h', m') =>
        String.eqb t24 (two_digits h +:+ ":" +:+ two_digits m) && Z.eqb h' h && Z.eqb m' m
    | _, _ => false
    end) (map Z.of_nat (seq 0 60))) (map Z.of_nat (seq 0 24)) = true.
Proof. vm_compute. reflexivity. Qed.

Lemma in_range (x : Z) (n : nat) : (0 ≤ x < Z.of_nat n)%Z → In x (map Z.of_nat (seq 0 n)).
Proof.
  intros Hx. apply in_map_iff. exists (Z.to_nat x). split; [lia |].
  apply in_seq. lia.
Qed.

Lemma time_round_trip_aux h m :
  0 ≤ h < 24 → 0 ≤ m < 60 →
  to_24h_hhmm (time_12 (h, m)) = Normal (two_digits h +:+ ":" +:+ two_digits m)
  ∧ strptime_HM (two_digits h +:+ ":" +:+ two_digits m) = Normal (h, m)
  ∧ to_time_12 (JStr (two_digits h +:+ ":" +:+ two_digits m)) = Normal (time_12 (h, m)).
Proof.
  intros Hh Hm.
  pose proof round_trip_table as Htable.
  rewrite forallb_forall in Htable. specialize (Htable h (in_range h 24 Hh)).
  rewrite forallb_forall in Htable. specialize (Htable m (in_range m 60 Hm)).
  simpl in Htable.
  destruct (to_24h_hhmm (time_12 (h, m))) as [t24 | e]; [| done].
  unfold to_time_12.
  destruct (strptime_HM (two_digits h +:+ ":" +:+ two_digits m)) as [[h' m'] | e]; [| done].
  apply andb_true_iff in Htable as [Htable Hm'].
  apply andb_true_iff in Htable as [Ht Hh'].
  apply String.eqb_eq in Ht as ->. apply Z.eqb_eq in Hh' as ->. apply Z.eqb_eq in Hm' as ->.
  done.
Qed.

Lemma options_in_range t :
  t ∈ times_12h_options → ∃ h m, 0 ≤ h < 24 ∧ 0 ≤ m < 60 ∧ t = time_12 (h, m).
Proof.
  unfold times_12h_options. rewrite list_elem_of_In, in_flat_map.
  intros (h & Hh & Ht). apply in_map_iff in Hh as (n & <- & Hn). apply in_seq in Hn.
  apply in_map_iff in Ht as (m & <- & Hm).
  exists (Z.of_nat n), m. split; [lia |]. split; [| done].
  simpl in Hm. lia.
Qed.

(** X15.  A time of day survives the page.  Written as the 12-hour text of
    the page, [to_24h_hhmm] turns it into the zero-padded 24-hour text
    the checker compares slots with, and that text parsed and written
    back for the webhook is the 12-hour text again.  Every option of
    [times_12h_options] is such a text: it converts without an error,
    and the time named in the webhook is the option the user picked. *)
Theorem time_round_trip :
  (∀ h m, 0 ≤ h < 24 → 0 ≤ m < 60 →
     to_24h_hhmm (time_12 (h, m)) = Normal (two_digits h +:+ ":" +:+ two_digits m)
     ∧ strptime_HM (two_digits h +:+ ":" +:+ two_digits m) = Normal (h, m)
     ∧ to_time_12 (JStr (two_digits h +:+ ":" +:+ two_digits m))
       = Normal (time_12 (h, m)))
  ∧ (∀ t, t ∈ times_12h_options →
       ∃ t24, to_24h_hhmm t = Normal t24 ∧ to_time_12 (JStr t24) = Normal t)
  ∧ length times_12h_options = 96%nat.
Proof.
  split; [apply time_round_trip_aux |]. split; [| done].
  intros t Ht. destruct (options_in_range t Ht) as (h & m & Hh & Hm & ->).
  destruct (time_round_trip_aux h m Hh Hm) as (H1 & _ & H3). eauto.
Qed.





Lemma eta_table :
  forallb (fun remain =>
    let m := remain / 60 in
    let s := remain mod 60 in
    Bool.eqb
      (String.eqb (if negb (Z.eqb m 0) then pretty m +:+ "m " +:+ pretty s +:+ "s"
                   else pretty s +:+ "s") "0s")
      (Z.eqb remain 0)) (map Z.of_nat (seq 0 121)) = true.
Proof. vm_compute. reflexivity. Qed.

Lemma eta_text_spec now_ item w ts :
  last_ts (w_heap w) item = Some ts →
  eta_text now_ item w
  = (Normal (let remain := eta_remain now_ ts in
             if negb (Z.eqb (remain / 60) 0)
             then pretty (remain / 60) +:+ "m " +:+ pretty (remain mod 60) +:+ "s"
             else pretty (remain mod 60) +:+ "s"), w).
Proof.
  unfold last_ts, eta_text, bind, item_get, item_getitem, lift, get_heap, is_truthy, ret, dict_get.
  simpl.
  destruct (dict_at (w_heap w) item !! "last_checked") as [v |] eqn:Hv; simpl.
  - destruct (truthy (w_heap w) v) eqn:Ht; simpl.
    + destruct v; try done. intros [= ->]. rewrite Hv. simpl.
      by destruct (negb _).
    + intros [= <-]. by destruct (negb _).
  - intros [= <-]. by destruct (negb _).
Qed.

(** X17.  The countdown of the card and the loop agree: [eta_text] shows
    "0s" exactly when 120 seconds or more have gone by since
    [last_checked] (since the epoch when it is unset), and for an
    active record that is exactly when [_loop] passes it to the
    checker. *)
Theorem countdown_zero_iff_due checker now_ item w ts :
  last_ts (w_heap w) item = Some ts →
  ∃ text, eta_text now_ item w = (Normal text, w)
    ∧ (text = "0s" ↔ (POLL_INTERVAL_SEC ≤ now_ - ts)%Z)
    ∧ (is_active (w_heap w) item = true →
       (text = "0s" ↔ (loop_item checker now_ item w).1 = Normal true)).
Proof.
  intros Hts. rewrite (eta_text_spec _ _ _ _ Hts). eexists. split; [done |].
  assert (0 ≤ eta_remain now_ ts < 121)%Z as Hrange.
  { unfold eta_remain, ENGINE_POLL_INTERVAL_SEC. lia. }
  pose proof eta_table as Htable. rewrite forallb_forall in Htable.
  specialize (Htable _ (in_range _ 121 Hrange)). simpl in Htable.
  apply Bool.eqb_prop in Htable.
  assert (eta_remain now_ ts = 0 ↔ (POLL_INTERVAL_SEC ≤ now_ - ts)%Z) as Hdue.
  { unfold eta_remain, ENGINE_POLL_INTERVAL_SEC, POLL_INTERVAL_SEC. lia. }
  assert (∀ text : string, text = "0s" ↔ String.eqb text "0s" = true) as Heq.
  { intros text. by rewrite String.eqb_eq. }
  cbv zeta. rewrite Heq, Htable, Z.eqb_eq, Hdue.
  split; [done |]. intros Ha.
  rewrite (loop_item_active checker _ _ _ _ Ha Hts).
  destruct (Z.leb POLL_INTERVAL_SEC (now_ - ts)) eqn:Hle; simpl.
  - apply Z.leb_le in Hle. done.
  - apply Z.leb_gt in Hle. split; [lia | done].
Qed.

End UiFacts.

(** ** The card of a checked record *)

Section CardFacts.

Import Engine App Reading Ui.

Ltac map_lookups :=
  repeat first [rewrite lookup_insert_eq | rewrite lookup_insert_ne by done].

Lemma status_pill_of h item st :
  dict_at h item !! "status" = Some (VStr st) →
  status_pill h item
  = match VStr st with
    | VStr "found" => pill "pill-ok" "✅ Found"
    | VStr "none" => pill "pill-warn" "❌ None"
    | VStr "error" => pill "pill-warn" "⚠️ Error"
    | _ => pill "pill-run" "🔄 Polling"
    end.
Proof. intros Hst. unfold status_pill, dict_get. by rewrite Hst. Qed.

Lemma checked_status item w :
  let h' := w_heap (run_check item w).2 in
  dict_at h' item !! "status" = Some (VStr "found")
  ∨ dict_at h' item !! "status" = Some (VStr "none")
  ∨ dict_at h' item !! "status" = Some (VStr "error").
Proof.
  intros h'. subst h'.
  destruct (run_check_cases item w) as (_ & evs & h1 & _ & -> & Hcases).
  rewrite !stamped_lookup. simpl.
  destruct Hcases as [(msg & err & _ & -> & _) | [(msg & _ & -> & _) |
    [(_ & _ & _ & -> & _) | (_ & _ & _ & -> & _)]]].
  - right; right. rewrite error_heap_item. by map_lookups.
  - right; left. rewrite none_heap_item. by map_lookups.
  - left. destruct (found_heap_item item (found_matches item w) (w_heap w)) as (h4 & _ & ->).
    destruct (truthy h4 _); by map_lookups.
  - left.
    destruct (found_heap_item item (found_matches item w)
                (dict_setitem item "webhook_sent" (VBool true) (w_heap w)))
      as (h4 & _ & ->).
    destruct (truthy h4 _); by map_lookups.
Qed.

(** X18.  Once checked, a card never says "Polling" again: after
    [run_check] the pill is the one of the outcome, Found, None or
    Error, and after a failure caught by the loop it is Error. *)
Theorem checked_card_shows_outcome item w e :
  let h' := w_heap (run_check item w).2 in
  (dict_at h' item !! "status" = Some (VStr "found")
   ∧ status_pill h' item = pill "pill-ok" "✅ Found"
   ∨ dict_at h' item !! "status" = Some (VStr "none")
     ∧ status_pill h' item = pill "pill-warn" "❌ None"
   ∨ dict_at h' item !! "status" = Some (VStr "error")
     ∧ status_pill h' item = pill "pill-warn" "⚠️ Error")
  ∧ status_pill h' item ≠ pill "pill-run" "🔄 Polling"
  ∧ status_pill (w_heap (failed item e w)) item = pill "pill-warn" "⚠️ Error".
Proof.
  intros h'.
  split; [| split].
  - destruct (checked_status item w) as [Hst | [Hst | Hst]]; fold h' in Hst.
    + left. split; [done |]. by rewrite (status_pill_of _ _ _ Hst).
    + right; left. split; [done |]. by rewrite (status_pill_of _ _ _ Hst).
    + right; right. split; [done |]. by rewrite (status_pill_of _ _ _ Hst).
  - destruct (checked_status item w) as [Hst | [Hst | Hst]]; fold h' in Hst;
      rewrite (status_pill_of _ _ _ Hst); vm_compute; discriminate.
  - apply (status_pill_of _ _ "error"). unfold failed; simpl.
    rewrite !dict_at_setitem_eq. by map_lookups.
Qed.

End CardFacts.

(** ** The added properties on sample data *)

Section MoreInstances.

Import Engine App Reading Samples Checking Client Retrying Ui Cases.

Lemma add_registers_witness :
  ∃ s', add 0%nat (init (world2 1000)) = Normal s'
    ∧ assoc_get "834-1" (s_monitors s') = Some 0%nat
    ∧ map fst (s_monitors s') = ["834-1"]
    ∧ remove "834-1" s' = remove "834-1" (init (world2 1000)).
Proof.
  destruct (add_registers 0%nat (init (world2 1000))) as [Hadd _].
  assert (dict_at (w_heap (s_world (init (world2 1000)))) 0%nat !! "id"
          = Some (VStr "834-1")) as Hid by (vm_compute; reflexivity).
  destruct (Hadd "834-1" Hid) as (s' & H1 & H2 & _ & H4 & _ & H6).
  exists s'. split; [exact H1 |]. split; [exact H2 |]. split; [exact H4 | exact H6].
Defined.

Lemma registry_stays_keyed_witness :
  run run_check busy_day (init world_found)
  = Some (default (init world_found) (run run_check busy_day (init world_found)))
  ∧ keyed (default (init world_found) (run run_check busy_day (init world_found)))
  ∧ map fst (s_monitors (default (init world_found)
                           (run run_check busy_day (init world_found))))
    = ["834-2"].
Proof.
  assert (run run_check busy_day (init world_found)
          = Some (default (init world_found) (run run_check busy_day (init world_found))))
    as Hrun by (vm_compute; reflexivity).
  destruct (registry_stays_keyed run_check run_check_keeps_ids busy_day world_found _ Hrun)
    as (Hkeyed & _ & _).
  split; [exact Hrun |]. split; [exact Hkeyed |]. vm_compute; reflexivity.
Defined.

Lemma scan_checks_within_snapshot_witness :
  (for_items quick 1130 [0%nat; 1%nat] (world_checked 1130)).1 = Normal [1%nat]
  ∧ [1%nat] `sublist_of` [0%nat; 1%nat].
Proof.
  assert (for_items quick 1130 [0%nat; 1%nat] (world_checked 1130)
          = (Normal [1%nat], (for_items quick 1130 [0%nat; 1%nat] (world_checked 1130)).2))
    as Hscan by (vm_compute; reflexivity).
  split; [by rewrite Hscan |].
  exact (scan_checks_within_snapshot quick 1130 [0%nat; 1%nat] (world_checked 1130) _ _ Hscan).
Defined.

Lemma paused_record_is_skipped_witness :
  assoc_get "834-1" (s_monitors (sys2 5000)) = Some 0%nat
  ∧ loop_item quick 5000 0%nat (s_world (set_active "834-1" false (sys2 5000)))
    = (Normal false, s_world (set_active "834-1" false (sys2 5000))).
Proof.
  assert (assoc_get "834-1" (s_monitors (sys2 5000)) = Some 0%nat) as Hget by reflexivity.
  destruct (paused_record_is_skipped quick "834-1" (sys2 5000) 0%nat 5000 Hget)
    as (Hskip & _ & _).
  split; [exact Hget | exact Hskip].
Defined.

Lemma worker_exit_cause_witness :
  s_stop sys_ill_typed = false
  ∧ s_worker (worker_step quick sys_ill_typed) = Exited
  ∧ s_world (worker_step quick sys_ill_typed) = s_world sys_ill_typed
  ∧ s_trace (worker_step quick sys_ill_typed) = [].
Proof.
  assert (s_stop sys_ill_typed = false) as Hstop by reflexivity.
  assert (s_worker sys_ill_typed ≠ Exited) as Hpc by (vm_compute; discriminate).
  destruct (worker_exit_cause quick sys_ill_typed Hstop Hpc) as [Hiff Hsame].
  assert (s_worker (worker_step quick sys_ill_typed) = Exited) as Hexit.
  { apply Hiff. exists 1000, 0%nat, [1%nat].
    split; [reflexivity |]. split; vm_compute; reflexivity. }
  destruct (Hsame Hexit) as [Hworld Htrace].
  split; [exact Hstop |]. split; [exact Hexit |]. split; [exact Hworld | exact Htrace].
Defined.

Lemma every_slot_branch_never_sends_witness :
  only_one (w_heap world_every_slot) 0%nat = false
  ∧ found_matches 0%nat world_every_slot ≠ []
  ∧ ∃ evs, w_log (run_check 0%nat world_every_slot).2 = w_log world_every_slot ++ evs
      ∧ attempts evs = 0%nat
      ∧ dict_at (w_heap (run_check 0%nat world_every_slot).2) 0%nat !! "status"
        = Some (VStr "error").
Proof.
  assert (only_one (w_heap world_every_slot) 0%nat = false) as Hone
    by (vm_compute; reflexivity).
  assert (found_matches 0%nat world_every_slot ≠ []) as Hms by (vm_compute; discriminate).
  destruct (every_slot_branch_never_sends 0%nat world_every_slot Hone Hms)
    as (evs & Hlog & Hzero & Hstatus & _).
  split; [exact Hone |]. split; [exact Hms |].
  exists evs. split; [exact Hlog |]. split; [exact Hzero | exact Hstatus].
Defined.

Lemma checked_record_waits_witness :
  loop_item quick 1100 0%nat (run_check 0%nat world_down).2
  = (Normal false, (run_check 0%nat world_down).2).
Proof.
  destruct (checked_record_waits quick 0%nat 1100) as [Hwait _].
  apply (Hwait world_down); [reflexivity |]. vm_compute; reflexivity.
Defined.

Lemma empty_calendar_stops_check_witness :
  w_log (run_check 0%nat world_empty_calendar).2
  = [EvCalendar (VStr "834") (VInt 2) "2025-09-03" "2025-09-03"]
  ∧ dict_at (w_heap (run_check 0%nat world_empty_calendar).2) 0%nat !! "status"
    = Some (VStr "none")
  ∧ found_slots (w_heap (run_check 0%nat world_empty_calendar).2) 0%nat = [].
Proof.
  assert (ready (w_heap world_empty_calendar) 0%nat (VStr "834") (VInt 2)
            "2025-09-03" "2025-09-03") as Hready
    by (repeat split; vm_compute; reflexivity).
  destruct (empty_calendar_stops_check 0%nat world_empty_calendar (VStr "834") (VInt 2)
              "2025-09-03" "2025-09-03" 1 (JObj [("scheduled", JArr [])])
              Hready eq_refl eq_refl)
    as (Hlog & _ & _ & Hstatus & _ & _ & Hslots).
  split; [exact Hlog |]. split; [exact Hstatus | exact Hslots].
Defined.

Lemma client_errors_are_reported_witness :
  dict_at (w_heap (run_check 0%nat world_down).2) 0%nat !! "status_msg"
  = Some (VStr ("API error " +:+ pretty 503))
  ∧ dict_at (w_heap (run_check 0%nat world_down).2) 0%nat !! "error"
    = Some (VStr "Service Unavailable")
  ∧ dict_at (w_heap (run_check 0%nat world_timeout).2) 0%nat !! "status_msg"
    = Some (VStr "API error")
  ∧ dict_at (w_heap (run_check 0%nat world_timeout).2) 0%nat !! "error"
    = Some (VStr "Read timed out").
Proof.
  assert (∀ w, w_heap w = heap2 →
            ready (w_heap w) 0%nat (VStr "834") (VInt 2) "2025-09-03" "2025-09-03")
    as Hready by (intros w ->; repeat split; vm_compute; reflexivity).
  destruct (client_errors_are_reported 0%nat world_down (VStr "834") (VInt 2)
              "2025-09-03" "2025-09-03" 1 (Hready world_down eq_refl)) as [Hup _].
  destruct (client_errors_are_reported 0%nat world_timeout (VStr "834") (VInt 2)
              "2025-09-03" "2025-09-03" 12 (Hready world_timeout eq_refl)) as [_ Hnet].
  assert (w_tape world_down (w_cursor world_down)
          = Reply 1 (Raise (upstream_error 503 "Service Unavailable"))) as Hreply
    by (vm_compute; reflexivity).
  assert (503 ≠ 0)%Z as Hne by discriminate.
  destruct (Hup 503 "Service Unavailable" Hreply Hne) as (_ & Hmsg & Herr & _).
  destruct (Hnet "Read timed out" eq_refl) as (_ & Hmsg' & Herr' & _).
  split; [exact Hmsg |]. split; [exact Herr |]. split; [exact Hmsg' | exact Herr'].
Defined.

Lemma failing_date_is_skipped_witness :
  for_dates 0%nat [JStr "2025-09-03"; JStr "2025-09-04"] [] world_down
  = for_dates 0%nat [JStr "2025-09-04"] []
      (App.find (VStr "834") (VInt 2) (JStr "2025-09-03") world_down).2.
Proof.
  exact (failing_date_is_skipped 0%nat (JStr "2025-09-03") [JStr "2025-09-04"] []
           world_down (VStr "834") (VInt 2) 1 resy_503 eq_refl eq_refl eq_refl).
Defined.

Lemma request_outcome_witness :
  (_request 3 "GET" "https://api.resy.com/3/venue" [] net_third_time).1
  = Normal (Resp 200 "{}" (Normal venue_json))
  ∧ ∃ evs,
      n_log (_request 3 "GET" "https://api.resy.com/3/venue" [] net_third_time).2
      = n_log net_third_time ++ evs
      ∧ (requests evs ≤ 3)%nat
      ∧ sleeps evs = (requests evs - 1)%nat.
Proof.
  assert (_request 3 "GET" "https://api.resy.com/3/venue" [] net_third_time
          = (Normal (Resp 200 "{}" (Normal venue_json)),
             (_request 3 "GET" "https://api.resy.com/3/venue" [] net_third_time).2))
    as Hrun by (vm_compute; reflexivity).
  destruct (request_outcome 3 "GET" "https://api.resy.com/3/venue" [] net_third_time _ _ Hrun)
    as (_ & evs & Hlog & _ & Hle & _ & Hsleeps & _).
  split; [by rewrite Hrun |].
  exists evs. split; [exact Hlog |]. split; [exact Hle | exact Hsleeps].
Defined.

Lemma request_settles_at_witness :
  (_request 3 "GET" "https://api.resy.com/3/venue" [] net_third_time).1
  = settle (Response 200 "{}" (Normal venue_json))
  ∧ n_cursor (_request 3 "GET" "https://api.resy.com/3/venue" [] net_third_time).2
    = 3%nat.
Proof.
  apply (request_settles_at 3 2 "GET" "https://api.resy.com/3/venue" [] net_third_time).
  - lia.
  - intros [| [| i]] Hi; [reflexivity | reflexivity | lia].
  - left. reflexivity.
Defined.

Lemma lookup_venue_has_id_witness :
  lookup_venue 3 "toronto-on" "casa-paco" net_third_time
  = (Normal venue_json, (lookup_venue 3 "toronto-on" "casa-paco" net_third_time).2)
  ∧ lacks_id venue_json = Normal false.
Proof.
  assert (lookup_venue 3 "toronto-on" "casa-paco" net_third_time
          = (Normal venue_json, (lookup_venue 3 "toronto-on" "casa-paco" net_third_time).2))
    as Hrun by (vm_compute; reflexivity).
  destruct (lookup_venue_has_id 3 "toronto-on" "casa-paco" net_third_time _ _ Hrun)
    as [Hid _].
  split; [exact Hrun | exact Hid].
Defined.

Lemma countdown_zero_iff_due_witness :
  last_ts (w_heap (world_checked 1120)) 1%nat = Some 1000
  ∧ ∃ text, eta_text 1120 1%nat (world_checked 1120) = (Normal text, world_checked 1120)
      ∧ (text = "0s" ↔ (POLL_INTERVAL_SEC ≤ 1120 - 1000)%Z).
Proof.
  assert (last_ts (w_heap (world_checked 1120)) 1%nat = Some 1000) as Hts
    by (vm_compute; reflexivity).
  destruct (countdown_zero_iff_due quick 1120 1%nat (world_checked 1120) 1000 Hts)
    as (text & Htext & Hdue & _).
  split; [exact Hts |]. exists text. split; [exact Htext | exact Hdue].
Defined.

End MoreInstances.
